(** * mozilla-services/wmf: request signing (hawk.go) and the Postgres store

    A shallow embedding of the HAWK signer/verifier of [hawk.go] and of the
    nonce, pending-command and position operations of the Postgres storage
    backend, with the properties the specification states about them, and
    of the device registry of that backend.

    Go strings are byte sequences: they are modelled by [string], whose
    characters are the 8-bit [ascii].  Byte slices handed to the digest
    functions are lists of integers in [0, 256). *)

From Stdlib Require Import ZArith List String Ascii Bool Lia Arith.
From Stdlib Require Import Decimal DecimalString.
From Stdlib Require Import Floats SpecFloat.
Import ListNotations.

Open Scope list_scope.
Open Scope string_scope.

(** Characters that cannot be written inside a string literal. *)
Definition dquote : string := String (ascii_of_nat 34) EmptyString.
Definition newline : string := String (ascii_of_nat 10) EmptyString.
Definition backslash : string := String (ascii_of_nat 92) EmptyString.

Definition bytes := list Z.

Definition bytes_of_string (s : string) : bytes :=
  map (fun c => Z.of_nat (nat_of_ascii c)) (list_ascii_of_string s).

(** ** The Go standard library functions the program calls *)

Module strings.

(** [s[n:]] and [s[:n]] without the bounds check (see [slice_from] and
    [slice_to] for Go's checked slicing). *)
Fixpoint drop (n : nat) (s : string) : string :=
  match n, s with
  | O, _ => s
  | S k, String _ t => drop k t
  | S _, EmptyString => EmptyString
  end.

Fixpoint take (n : nat) (s : string) : string :=
  match n, s with
  | O, _ => EmptyString
  | S k, String c t => String c (take k t)
  | S _, EmptyString => EmptyString
  end.

(** Go's slice expressions panic when the bound exceeds the length: [None]. *)
Definition slice_to (s : string) (n : nat) : option string :=
  if (n <=? String.length s)%nat then Some (take n s) else None.

Definition slice_from (s : string) (n : nat) : option string :=
  if (n <=? String.length s)%nat then Some (drop n s) else None.

(** The text before and after the first occurrence of [sep]. *)
Fixpoint cut (sep s : string) : option (string * string) :=
  if String.prefix sep s then Some (EmptyString, drop (String.length sep) s)
  else match s with
       | EmptyString => None
       | String c t =>
           match cut sep t with
           | Some (a, b) => Some (String c a, b)
           | None => None
           end
       end.

(** [strings.Contains]. *)
Definition Contains (s substr : string) : bool :=
  match cut substr s with
  | Some _ => true
  | None => false
  end.

Fixpoint split_upto (cuts : nat) (s sep : string) : list string :=
  match cuts with
  | O => [s]
  | S k =>
      match cut sep s with
      | None => [s]
      | Some (a, b) => a :: split_upto k b sep
      end
  end.

(** [strings.Split(s, sep)] for a non-empty separator: a string of length n
    holds at most n separators. *)
Definition Split (s sep : string) : list string :=
  split_upto (String.length s) s sep.

(** [strings.SplitN(s, sep, n)] for a non-empty separator. *)
Definition SplitN (s sep : string) (n : Z) : list string :=
  if (n =? 0)%Z then []
  else if (n <? 0)%Z then Split s sep
  else split_upto (Nat.min (Z.to_nat n - 1) (String.length s)) s sep.

Definition in_cutset (c : ascii) (cutset : string) : bool :=
  existsb (Ascii.eqb c) (list_ascii_of_string cutset).

Fixpoint TrimLeft (s cutset : string) : string :=
  match s with
  | EmptyString => EmptyString
  | String c t => if in_cutset c cutset then TrimLeft t cutset else s
  end.

Fixpoint TrimRight (s cutset : string) : string :=
  match s with
  | EmptyString => EmptyString
  | String c t =>
      match TrimRight t cutset with
      | EmptyString => if in_cutset c cutset then EmptyString else String c EmptyString
      | r => String c r
      end
  end.

Definition Trim (s cutset : string) : string :=
  TrimLeft (TrimRight s cutset) cutset.

(** [strings.Replace(s, old, new, -1)] for a non-empty [old]: the leftmost
    occurrences, not overlapping.  [skip] counts the characters of a matched
    occurrence that are still to be passed over. *)
Fixpoint replace_from (skip : nat) (s old new : string) : string :=
  match s with
  | EmptyString => EmptyString
  | String c t =>
      match skip with
      | S k => replace_from k t old new
      | O =>
          if String.prefix old s
          then new ++ replace_from (String.length old - 1) t old new
          else String c (replace_from O t old new)
      end
  end.

Definition Replace (s old new : string) : string := replace_from O s old new.

(** Case mapping of the ASCII letters; other bytes are kept.  (Go maps the
    letters of every script; on ASCII text the two agree.) *)
Definition upper_byte (c : ascii) : ascii :=
  let n := nat_of_ascii c in
  if ((97 <=? n) && (n <=? 122))%nat then ascii_of_nat (n - 32) else c.

Definition lower_byte (c : ascii) : ascii :=
  let n := nat_of_ascii c in
  if ((65 <=? n) && (n <=? 90))%nat then ascii_of_nat (n + 32) else c.

Fixpoint map_bytes (f : ascii -> ascii) (s : string) : string :=
  match s with
  | EmptyString => EmptyString
  | String c t => String (f c) (map_bytes f t)
  end.

Definition ToUpper (s : string) : string := map_bytes upper_byte s.
Definition ToLower (s : string) : string := map_bytes lower_byte s.

End strings.

Module strconv.

(** [strconv.FormatInt(i, 10)]. *)
Definition FormatInt (i : Z) : string := NilZero.string_of_int (Z.to_int i).

End strconv.

Module base64.

Definition alphabet : string :=
  "ABCDEFGHIJKLMNOPQRSTUVWXYZabcdefghijklmnopqrstuvwxyz0123456789+/".

Definition digit (n : Z) : ascii :=
  match String.get (Z.to_nat n) alphabet with
  | Some c => c
  | None => "="%char
  end.

Definition pad : ascii := "="%char.

(** [base64.StdEncoding.EncodeToString]. *)
Fixpoint EncodeToString (src : bytes) : string :=
  match src with
  | [] => EmptyString
  | [a] =>
      String (digit (Z.shiftr a 2))
        (String (digit (Z.shiftl (Z.land a 3) 4))
           (String pad (String pad EmptyString)))
  | [a; b] =>
      String (digit (Z.shiftr a 2))
        (String (digit (Z.lor (Z.shiftl (Z.land a 3) 4) (Z.shiftr b 4)))
           (String (digit (Z.shiftl (Z.land b 15) 2))
              (String pad EmptyString)))
  | a :: b :: c :: rest =>
      String (digit (Z.shiftr a 2))
        (String (digit (Z.lor (Z.shiftl (Z.land a 3) 4) (Z.shiftr b 4)))
           (String (digit (Z.lor (Z.shiftl (Z.land b 15) 2) (Z.shiftr c 6)))
              (String (digit (Z.land c 63)) (EncodeToString rest))))
  end.

End base64.

Module hex.

Definition digit (n : Z) : ascii :=
  match String.get (Z.to_nat n) "0123456789abcdef" with
  | Some c => c
  | None => "0"%char
  end.

(** [hex.EncodeToString]. *)
Fixpoint EncodeToString (src : bytes) : string :=
  match src with
  | [] => EmptyString
  | b :: rest =>
      String (digit (Z.shiftr b 4)) (String (digit (Z.land b 15)) (EncodeToString rest))
  end.

End hex.

Module sha256.
Local Open Scope list_scope.
Local Open Scope Z_scope.

Definition w32 (x : Z) : Z := x mod 4294967296.

Definition rotr (n x : Z) : Z :=
  Z.lor (Z.shiftr x n) (w32 (Z.shiftl x (32 - n))).

Definition Ch (x y z : Z) : Z :=
  Z.lxor (Z.land x y) (Z.land (Z.lxor x 4294967295) z).

Definition Maj (x y z : Z) : Z :=
  Z.lxor (Z.lxor (Z.land x y) (Z.land x z)) (Z.land y z).

Definition Sigma0 (x : Z) : Z := Z.lxor (Z.lxor (rotr 2 x) (rotr 13 x)) (rotr 22 x).
Definition Sigma1 (x : Z) : Z := Z.lxor (Z.lxor (rotr 6 x) (rotr 11 x)) (rotr 25 x).
Definition sigma0 (x : Z) : Z := Z.lxor (Z.lxor (rotr 7 x) (rotr 18 x)) (Z.shiftr x 3).
Definition sigma1 (x : Z) : Z := Z.lxor (Z.lxor (rotr 17 x) (rotr 19 x)) (Z.shiftr x 10).

Definition K : list Z :=
  [1116352408; 1899447441; 3049323471; 3921009573; 961987163; 1508970993;
   2453635748; 2870763221; 3624381080; 310598401; 607225278; 1426881987;
   1925078388; 2162078206; 2614888103; 3248222580; 3835390401; 4022224774;
   264347078; 604807628; 770255983; 1249150122; 1555081692; 1996064986;
   2554220882; 2821834349; 2952996808; 3210313671; 3336571891; 3584528711;
   113926993; 338241895; 666307205; 773529912; 1294757372; 1396182291;
   1695183700; 1986661051; 2177026350; 2456956037; 2730485921; 2820302411;
   3259730800; 3345764771; 3516065817; 3600352804; 4094571909; 275423344;
   430227734; 506948616; 659060556; 883997877; 958139571; 1322822218;
   1537002063; 1747873779; 1955562222; 2024104815; 2227730452; 2361852424;
   2428436474; 2756734187; 3204031479; 3329325298].

Definition H0 : list Z :=
  [1779033703; 3144134277; 1013904242; 2773480762;
   1359893119; 2600822924; 528734635; 1541459225].

(** The n low bytes of x, most significant first. *)
Fixpoint be_bytes (n : nat) (x : Z) : bytes :=
  match n with
  | O => []
  | S k => be_bytes k (Z.shiftr x 8) ++ [x mod 256]
  end.

Definition padding (len : Z) : bytes :=
  128 :: repeat 0 (Z.to_nat ((55 - len) mod 64)) ++ be_bytes 8 (8 * len).

Fixpoint be_words (n : nat) (b : bytes) : list Z :=
  match n, b with
  | S k, b0 :: b1 :: b2 :: b3 :: rest =>
      (((b0 * 256 + b1) * 256 + b2) * 256 + b3) :: be_words k rest
  | _, _ => []
  end.

Fixpoint schedule (n : nat) (w : list Z) : list Z :=
  match n with
  | O => w
  | S k =>
      let t := List.length w in
      schedule k
        (w ++ [w32 (sigma1 (nth (t - 2) w 0) + nth (t - 7) w 0
                    + sigma0 (nth (t - 15) w 0) + nth (t - 16) w 0)])
  end.

Definition round (st : list Z) (kw : Z * Z) : list Z :=
  match st with
  | [a; b; c; d; e; f; g; h] =>
      let t1 := h + Sigma1 e + Ch e f g + fst kw + snd kw in
      let t2 := Sigma0 a + Maj a b c in
      [w32 (t1 + t2); a; b; c; w32 (d + t1); e; f; g]
  | _ => st
  end.

Definition compress (hs : list Z) (block : bytes) : list Z :=
  let w := schedule 48 (be_words 16 block) in
  map w32 (map (fun p => fst p + snd p) (combine hs (fold_left round (combine K w) hs))).

Fixpoint blocks (n : nat) (hs : list Z) (msg : bytes) : list Z :=
  match n with
  | O => hs
  | S k => blocks k (compress hs (firstn 64 msg)) (skipn 64 msg)
  end.

(** [sha256.Sum256]. *)
Definition Sum256 (data : bytes) : bytes :=
  let m := data ++ padding (Z.of_nat (List.length data)) in
  flat_map (be_bytes 4) (blocks (Nat.div (List.length m) 64) H0 m).

End sha256.

Module hmac.
Local Open Scope list_scope.
Local Open Scope Z_scope.

Definition block_key (key : bytes) : bytes :=
  let k := if (64 <? List.length key)%nat then sha256.Sum256 key else key in
  k ++ repeat 0 (64 - List.length k)%nat.

(** [hmac.New(sha256.New, key)], one [Write(msg)], then [Sum(nil)]. *)
Definition SumSHA256 (key msg : bytes) : bytes :=
  sha256.Sum256
    (map (Z.lxor 92) (block_key key)
       ++ sha256.Sum256 (map (Z.lxor 54) (block_key key) ++ msg)).

End hmac.

Module md5.
Local Open Scope list_scope.
Local Open Scope Z_scope.

Definition w32 (x : Z) : Z := x mod 4294967296.
Definition not32 (x : Z) : Z := Z.lxor x 4294967295.

Definition rotl (n x : Z) : Z :=
  Z.lor (w32 (Z.shiftl x n)) (Z.shiftr x (32 - n)).

Definition shifts : list Z :=
  [7; 12; 17; 22; 7; 12; 17; 22; 7; 12; 17; 22; 7; 12; 17; 22;
   5; 9; 14; 20; 5; 9; 14; 20; 5; 9; 14; 20; 5; 9; 14; 20;
   4; 11; 16; 23; 4; 11; 16; 23; 4; 11; 16; 23; 4; 11; 16; 23;
   6; 10; 15; 21; 6; 10; 15; 21; 6; 10; 15; 21; 6; 10; 15; 21].

Definition T : list Z :=
  [3614090360; 3905402710; 606105819; 3250441966; 4118548399; 1200080426;
   2821735955; 4249261313; 1770035416; 2336552879; 4294925233; 2304563134;
   1804603682; 4254626195; 2792965006; 1236535329; 4129170786; 3225465664;
   643717713; 3921069994; 3593408605; 38016083; 3634488961; 3889429448;
   568446438; 3275163606; 4107603335; 1163531501; 2850285829; 4243563512;
   1735328473; 2368359562; 4294588738; 2272392833; 1839030562; 4259657740;
   2763975236; 1272893353; 4139469664; 3200236656; 681279174; 3936430074;
   3572445317; 76029189; 3654602809; 3873151461; 530742520; 3299628645;
   4096336452; 1126891415; 2878612391; 4237533241; 1700485571; 2399980690;
   4293915773; 2240044497; 1873313359; 4264355552; 2734768916; 1309151649;
   4149444226; 3174756917; 718787259; 3951481745].

(** The n low bytes of x, least significant first. *)
Fixpoint le_bytes (n : nat) (x : Z) : bytes :=
  match n with
  | O => []
  | S k => (x mod 256) :: le_bytes k (Z.shiftr x 8)
  end.

Definition padding (len : Z) : bytes :=
  128 :: repeat 0 (Z.to_nat ((55 - len) mod 64)) ++ le_bytes 8 (8 * len).

Fixpoint le_words (n : nat) (b : bytes) : list Z :=
  match n, b with
  | S k, b0 :: b1 :: b2 :: b3 :: rest =>
      (((b3 * 256 + b2) * 256 + b1) * 256 + b0) :: le_words k rest
  | _, _ => []
  end.

Definition step (m : list Z) (st : list Z) (i : Z) : list Z :=
  match st with
  | [a; b; c; d] =>
      let fg :=
        if i <? 16 then (Z.lor (Z.land b c) (Z.land (not32 b) d), i)
        else if i <? 32 then (Z.lor (Z.land d b) (Z.land (not32 d) c), (5 * i + 1) mod 16)
        else if i <? 48 then (Z.lxor (Z.lxor b c) d, (3 * i + 5) mod 16)
        else (Z.lxor c (Z.lor b (not32 d)), (7 * i) mod 16) in
      let f := w32 (fst fg + a + nth (Z.to_nat i) T 0 + nth (Z.to_nat (snd fg)) m 0) in
      [d; w32 (b + rotl (nth (Z.to_nat i) shifts 0) f); b; c]
  | _ => st
  end.

Definition compress (hs : list Z) (block : bytes) : list Z :=
  let m := le_words 16 block in
  map w32 (map (fun p => fst p + snd p)
             (combine hs (fold_left (step m) (map Z.of_nat (seq 0 64)) hs))).

Fixpoint blocks (n : nat) (hs : list Z) (msg : bytes) : list Z :=
  match n with
  | O => hs
  | S k => blocks k (compress hs (firstn 64 msg)) (skipn 64 msg)
  end.

(** [md5.New()], one write of [data], then [Sum(nil)]. *)
Definition Sum (data : bytes) : bytes :=
  let m := data ++ padding (Z.of_nat (List.length data)) in
  flat_map (le_bytes 4)
    (blocks (Nat.div (List.length m) 64) [1732584193; 4023233417; 2562383102; 271733878] m).

End md5.

(** ** Results of a call that may panic

    A call on a receiver of type S either returns a value together with the
    receiver's state after the call, or panics (a run-time error such as a
    slice bound out of range or a nil pointer dereference) in some state. *)
Inductive outcome (S A : Type) : Type :=
| Ret (a : A) (s : S)
| Panic (s : S).
Arguments Ret {S A} a s.
Arguments Panic {S A} s.

Module url.

Record URL : Type := {
  Scheme : string;
  Path : string;
  RawQuery : string;
  Fragment : string
}.

End url.

Module http.

(** The request headers, under their canonical names. *)
Definition Header := list (string * string).

(** [Header.Get]: the value of the header, or the empty string. *)
Fixpoint Get (h : Header) (key : string) : string :=
  match h with
  | [] => EmptyString
  | (k, v) :: t => if String.eqb k key then v else Get t key
  end.

Record Request : Type := {
  Method : string;
  URL : url.URL;
  Host : string;
  Hdr : Header
}.

End http.

Module util.

(** Modelled from the spec: util.MzGetFlag and util.JsMap are not among the
    sources.  The configuration is the list of its flags, and a flag that is
    not set reads as false (the specification's override flag). *)
Definition JsMap := list (string * bool).

Fixpoint MzGetFlag (m : JsMap) (key : string) : bool :=
  match m with
  | [] => false
  | (k, v) :: t => if String.eqb k key then v else MzGetFlag t key
  end.

End util.

(** ** hawk.go *)

Module wmf.

Inductive error : Type :=
| ErrNoAuth
| ErrNotHawkAuth
| ErrInvalidSignature.

(** The logger is left out: log calls do not change what is computed. *)
Record Hawk : Type := {
  config : util.JsMap;
  header : string;
  Id : string;
  Time : string;
  Nonce : string;
  Method : string;
  Path : string;
  Host : string;
  Port : string;
  Extra : string;
  Hash : string;
  Signature : string
}.

Definition set_Id (v : string) (h : Hawk) : Hawk :=
  {| config := config h; header := header h; Id := v; Time := Time h;
     Nonce := Nonce h; Method := Method h; Path := Path h; Host := Host h;
     Port := Port h; Extra := Extra h; Hash := Hash h; Signature := Signature h |}.

Definition set_Time (v : string) (h : Hawk) : Hawk :=
  {| config := config h; header := header h; Id := Id h; Time := v;
     Nonce := Nonce h; Method := Method h; Path := Path h; Host := Host h;
     Port := Port h; Extra := Extra h; Hash := Hash h; Signature := Signature h |}.

Definition set_Nonce (v : string) (h : Hawk) : Hawk :=
  {| config := config h; header := header h; Id := Id h; Time := Time h;
     Nonce := v; Method := Method h; Path := Path h; Host := Host h;
     Port := Port h; Extra := Extra h; Hash := Hash h; Signature := Signature h |}.

Definition set_Method (v : string) (h : Hawk) : Hawk :=
  {| config := config h; header := header h; Id := Id h; Time := Time h;
     Nonce := Nonce h; Method := v; Path := Path h; Host := Host h;
     Port := Port h; Extra := Extra h; Hash := Hash h; Signature := Signature h |}.

Definition set_Path (v : string) (h : Hawk) : Hawk :=
  {| config := config h; header := header h; Id := Id h; Time := Time h;
     Nonce := Nonce h; Method := Method h; Path := v; Host := Host h;
     Port := Port h; Extra := Extra h; Hash := Hash h; Signature := Signature h |}.

Definition set_Host_Port (v : string * string) (h : Hawk) : Hawk :=
  {| config := config h; header := header h; Id := Id h; Time := Time h;
     Nonce := Nonce h; Method := Method h; Path := Path h; Host := fst v;
     Port := snd v; Extra := Extra h; Hash := Hash h; Signature := Signature h |}.

Definition set_Extra (v : string) (h : Hawk) : Hawk :=
  {| config := config h; header := header h; Id := Id h; Time := Time h;
     Nonce := Nonce h; Method := Method h; Path := Path h; Host := Host h;
     Port := Port h; Extra := v; Hash := Hash h; Signature := Signature h |}.

Definition set_Hash (v : string) (h : Hawk) : Hawk :=
  {| config := config h; header := header h; Id := Id h; Time := Time h;
     Nonce := Nonce h; Method := Method h; Path := Path h; Host := Host h;
     Port := Port h; Extra := Extra h; Hash := v; Signature := Signature h |}.

Definition set_Signature (v : string) (h : Hawk) : Hawk :=
  {| config := config h; header := header h; Id := Id h; Time := Time h;
     Nonce := Nonce h; Method := Method h; Path := Path h; Host := Host h;
     Port := Port h; Extra := Extra h; Hash := Hash h; Signature := v |}.

(** What the signer reads from outside the program: the bytes [rand.Read]
    delivers and the clock, [time.Now().UTC().Unix()]. *)
Record Env : Type := {
  entropy : bytes;
  unix : Z
}.

(** [GenNonce]: l random bytes (6 when l is 0), base64.  The buffer starts out
    zeroed, and the error of [rand.Read] is not looked at. *)
Definition GenNonce (rnd : bytes) (l : nat) : string :=
  let l := if (l =? 0)%nat then 6%nat else l in
  base64.EncodeToString
    (firstn l (map (fun x => (x mod 256)%Z) rnd ++ repeat 0%Z l)%list).

Definition getFullPath (req : http.Request) : string :=
  let path := url.Path (http.URL req) in
  let path :=
    if (0 <? String.length (url.RawQuery (http.URL req)))%nat
    then path ++ "?" ++ url.RawQuery (http.URL req) else path in
  let path :=
    if (0 <? String.length (url.Fragment (http.URL req)))%nat
    then path ++ "#" ++ url.Fragment (http.URL req) else path in
  path.

Definition getHostPort (self : Hawk) (req : http.Request) : string * string :=
  let elements := strings.Split (http.Host req) ":" in
  let host := nth 0 elements EmptyString in
  let port :=
    if (List.length elements =? 2)%nat then nth 1 elements EmptyString
    else EmptyString in
  let port :=
    if String.eqb port EmptyString || util.MzGetFlag (config self) "override_port"
    then (if String.eqb (url.Scheme (http.URL req)) "https" then "443" else "80")
    else port in
  (host, port).

(** The string [genHash] hashes. *)
Definition payloadStr (req : http.Request) (body : string) : string :=
  let contentType := http.Get (http.Hdr req) "Content-Type" in
  let contentType :=
    if String.eqb contentType EmptyString then "text/plain" else contentType in
  let contentType := nth 0 (strings.Split contentType ";") EmptyString in
  let nbody := strings.Replace body backslash (backslash ++ backslash) in
  let nbody := strings.Replace nbody newline (backslash ++ "n") in
  "hawk.1.payload" ++ newline ++ contentType ++ newline ++ nbody ++ newline.

Definition genHash (self : Hawk) (req : http.Request) (body : string) : string :=
  let marshalStr := payloadStr req body in
  base64.EncodeToString (sha256.Sum256 (bytes_of_string marshalStr)).

(** The string [GenerateSignature] signs, from the fields of the receiver. *)
Definition headerStr (self : Hawk) (extra : string) : string :=
  "hawk.1.header" ++ newline
    ++ Time self ++ newline
    ++ Nonce self ++ newline
    ++ strings.ToUpper (Method self) ++ newline
    ++ Path self ++ newline
    ++ strings.ToLower (Host self) ++ newline
    ++ Port self ++ newline
    ++ Hash self ++ newline
    ++ extra ++ newline.

Definition sign (secret marshalStr : string) : string :=
  base64.EncodeToString
    (hmac.SumSHA256 (bytes_of_string secret) (bytes_of_string marshalStr)).

(** [GenerateSignature] fills the fields of the receiver that are still empty
    and sets its Signature.  Its error result is never assigned: it is nil on
    every path, and the receiver after the call is what is returned here. *)
Definition GenerateSignature (env : Env) (self : Hawk) (req : http.Request)
    (extra body secret : string) : Hawk :=
  let self :=
    if String.eqb (Path self) EmptyString
    then set_Path (getFullPath req) self else self in
  let self :=
    if String.eqb (Host self) EmptyString
    then set_Host_Port (getHostPort self req) self else self in
  let self :=
    if String.eqb (Nonce self) EmptyString
    then set_Nonce (GenNonce (entropy env) 6) self else self in
  let self :=
    if String.eqb (Time self) EmptyString
    then set_Time (strconv.FormatInt (unix env)) self else self in
  let self :=
    if String.eqb (Method self) EmptyString
    then set_Method (strings.ToUpper (http.Method req)) self else self in
  let self :=
    if String.eqb (Hash self) EmptyString
    then set_Hash (genHash self req body) self else self in
  let marshalStr := headerStr self extra in
  set_Signature (sign secret marshalStr) self.

(** [AsHeader]: the header text and the receiver after the call. *)
Definition AsHeader (env : Env) (self : Hawk) (req : http.Request)
    (id body extra secret : string) : string * Hawk :=
  let self :=
    if String.eqb (Signature self) EmptyString
    then GenerateSignature env self req extra body secret else self in
  ("Hawk id=" ++ dquote ++ id ++ dquote
     ++ ", ts=" ++ dquote ++ Time self ++ dquote
     ++ ", nonce=" ++ dquote ++ Nonce self ++ dquote
     ++ " ext=" ++ dquote ++ Extra self ++ dquote
     ++ ", hash=" ++ dquote ++ Hash self ++ dquote
     ++ " mac=" ++ dquote ++ Signature self ++ dquote,
   self).

(** One [key="value"] element of the Authorization header. *)
Definition parseElement (self : Hawk) (element : string) : Hawk :=
  let kv := strings.SplitN element "=" 2 in
  if (List.length kv <? 2)%nat then self
  else
    let val := strings.Trim (nth 1 kv EmptyString) dquote in
    let key := strings.ToLower (nth 0 kv EmptyString) in
    if String.eqb key "id" then set_Id val self
    else if String.eqb key "ts" then set_Time val self
    else if String.eqb key "nonce" then set_Nonce val self
    else if String.eqb key "ext" then set_Extra val self
    else if String.eqb key "hash" then set_Hash val self
    else if String.eqb key "mac" then set_Signature val self
    else self.

(** [ParseAuthHeader].  The slice expressions [auth[:4]] and [auth[5:]] panic
    when the header is shorter than their bound. *)
Definition ParseAuthHeader (self : Hawk) (req : http.Request)
    : outcome Hawk (option error) :=
  let auth := http.Get (http.Hdr req) "Authorization" in
  if String.eqb auth EmptyString then Ret (Some ErrNoAuth) self
  else
    match strings.slice_to auth 4 with
    | None => Panic self
    | Some scheme =>
        if negb (String.eqb (strings.ToLower scheme) "hawk")
        then Ret (Some ErrNotHawkAuth) self
        else
          match strings.slice_from auth 5 with
          | None => Panic self
          | Some rest =>
              let elements := strings.Split rest ", " in
              let self := fold_left parseElement elements self in
              let self := set_Path (getFullPath req) self in
              let self := set_Host_Port (getHostPort self req) self in
              Ret None self
          end
    end.

(** [Compare]. *)
Definition Compare (self : Hawk) (sig : string) : bool :=
  String.eqb (strings.TrimRight sig "=") (strings.TrimRight (Signature self) "=").

End wmf.

(** ** The Postgres store *)

Module storage.
Local Open Scope Z_scope.

Inductive error : Type :=
| ErrUnknownDevice
| ErrDriver.  (* an error reported by database/sql or the driver *)

(** [float32(x)]: a float64 rounded to the nearest single-precision value. *)
Definition float32 (x : float) : float :=
  match Prim2SF x with
  | S754_finite s m e =>
      SF2Prim (binary_normalize 24 128 (if s then Z.neg m else Z.pos m) e s)
  | _ => x
  end.

Record Position : Type := {
  Latitude : float;
  Longitude : float;
  Altitude : float;
  Accuracy : float;
  Time : Z
}.

(** *** Tables

    A table is the list of its rows; timestamps are microseconds. *)

Record deviceInfoRow : Type := {
  dev_deviceId : string;
  dev_lockable : bool;
  dev_loggedin : bool;
  dev_lastExchange : Z;
  dev_hawkSecret : string;
  dev_pushUrl : string;
  dev_accepts : string;
  dev_accesstoken : string
}.

Record pendingCommandsRow : Type := {
  cmd_id : Z;
  cmd_deviceId : string;
  cmd_time : Z;
  cmd_cmd : string;
  cmd_type : string
}.

Record positionRow : Type := {
  pos_id : Z;
  pos_deviceId : string;
  pos_time : Z;
  pos_latitude : float;
  pos_longitude : float;
  pos_altitude : float;
  pos_accuracy : float
}.

Record nonceRow : Type := {
  nonce_key : string;
  nonce_val : string;
  nonce_time : Z
}.

(** The receiver of the storage operations: the database behind [self.db]
    (the configuration fields of the struct are not read by the operations
    below), the database clock, and the driver calls that are going to fail. *)
Record pgStore : Type := {
  deviceInfo : list deviceInfoRow;
  pendingCommands : list pendingCommandsRow;
  position : list positionRow;
  nonce : list nonceRow;
  serial : Z;          (* the next id the database assigns to a new row *)
  clock : Z;           (* current_timestamp, and the clock dbNow() reads *)
  faults : list bool   (* per coming driver call: true when it fails *)
}.

Definition with_deviceInfo (t : list deviceInfoRow) (s : pgStore) : pgStore :=
  {| deviceInfo := t; pendingCommands := pendingCommands s; position := position s;
     nonce := nonce s; serial := serial s; clock := clock s; faults := faults s |}.

Definition with_pendingCommands (t : list pendingCommandsRow) (s : pgStore) : pgStore :=
  {| deviceInfo := deviceInfo s; pendingCommands := t; position := position s;
     nonce := nonce s; serial := serial s; clock := clock s; faults := faults s |}.

Definition with_position (t : list positionRow) (s : pgStore) : pgStore :=
  {| deviceInfo := deviceInfo s; pendingCommands := pendingCommands s; position := t;
     nonce := nonce s; serial := serial s; clock := clock s; faults := faults s |}.

Definition with_nonce (t : list nonceRow) (s : pgStore) : pgStore :=
  {| deviceInfo := deviceInfo s; pendingCommands := pendingCommands s;
     position := position s; nonce := t; serial := serial s; clock := clock s;
     faults := faults s |}.

Definition with_serial (n : Z) (s : pgStore) : pgStore :=
  {| deviceInfo := deviceInfo s; pendingCommands := pendingCommands s;
     position := position s; nonce := nonce s; serial := n; clock := clock s;
     faults := faults s |}.

Definition with_clock (t : Z) (s : pgStore) : pgStore :=
  {| deviceInfo := deviceInfo s; pendingCommands := pendingCommands s;
     position := position s; nonce := nonce s; serial := serial s; clock := t;
     faults := faults s |}.

Definition with_faults (f : list bool) (s : pgStore) : pgStore :=
  {| deviceInfo := deviceInfo s; pendingCommands := pendingCommands s;
     position := position s; nonce := nonce s; serial := serial s; clock := clock s;
     faults := f |}.

(** *** The store monad: state passing with panics *)

Definition M (A : Type) : Type := pgStore -> outcome pgStore A.

Definition ret {A : Type} (a : A) : M A := fun s => Ret a s.

Definition bind {A B : Type} (m : M A) (k : A -> M B) : M B :=
  fun s =>
    match m s with
    | Ret a s' => k a s'
    | Panic s' => Panic s'
    end.

Definition panic {A : Type} : M A := fun s => Panic s.

Notation "x <- m ;; k" := (bind m (fun x => k))
  (at level 61, m at next level, right associativity).
Notation "' p <- m ;; k" := (bind m (fun x => match x with p => k end))
  (at level 61, p pattern, m at next level, right associativity).

(** [defer d] around a body: d runs when the body returns, and also while a
    panic of the body unwinds; a panic of d replaces the result. *)
Definition defer {A : Type} (d : M unit) (body : M A) : M A :=
  fun s =>
    match body s with
    | Ret a s' =>
        match d s' with
        | Ret _ s'' => Ret a s''
        | Panic s'' => Panic s''
        end
    | Panic s' =>
        match d s' with
        | Ret _ s'' => Panic s''
        | Panic s'' => Panic s''
        end
    end.

(** *** database/sql

    Each call that reaches the driver takes the next entry of [faults]; when
    the entry is true the call reports an error and changes nothing.  A call
    that fails returns a nil handle beside its error, and a method called on
    a nil [*sql.Rows] or [*sql.Stmt] dereferences it: a panic. *)

Definition driver_call : M bool :=
  fun s =>
    match faults s with
    | [] => Ret false s
    | f :: rest => Ret f (with_faults rest s)
    end.

(** [dbh.Exec]: the number of affected rows, or an error. *)
Definition Exec (stmt : pgStore -> Z * pgStore) : M (option Z * option error) :=
  failed <- driver_call ;;
  if (failed : bool) then ret (None, Some ErrDriver)
  else fun s => Ret (Some (fst (stmt s)), None) (snd (stmt s)).

(** [result.RowsAffected()]. *)
Definition RowsAffected (result : option Z) : M Z :=
  match result with
  | Some n => ret n
  | None => panic
  end.

(** [dbh.Query]: a cursor over the selected rows, or nil and an error. *)
Definition Query {R : Type} (q : pgStore -> list R)
    : M (option (list R) * option error) :=
  failed <- driver_call ;;
  if (failed : bool) then ret (None, Some ErrDriver)
  else fun s => Ret (Some (q s), None) s.

(** [rows.Next()]: the current row and the rows after it, when there is one. *)
Definition Next {R : Type} (rows : option (list R)) : M (option (R * list R)) :=
  match rows with
  | None => panic
  | Some [] => ret None
  | Some (r :: rest) => ret (Some (r, rest))
  end.

(** [rows.Scan(...)]: the error, when copying the columns fails. *)
Definition Scan : M (option error) :=
  failed <- driver_call ;;
  ret (if (failed : bool) then Some ErrDriver else None).

(** [rows.Close()]. *)
Definition Close {R : Type} (rows : option (list R)) : M unit :=
  match rows with
  | None => panic
  | Some _ => ret tt
  end.

(** [dbh.Prepare]: a statement handle, or nil and an error. *)
Definition Prepare : M (option unit * option error) :=
  failed <- driver_call ;;
  ret (if (failed : bool) then (None, Some ErrDriver) else (Some tt, None)).

(** [st.Exec(...)]. *)
Definition StmtExec (st : option unit) (stmt : pgStore -> Z * pgStore)
    : M (option Z * option error) :=
  match st with
  | None => panic
  | Some _ => Exec stmt
  end.

(** [st.Close()]. *)
Definition StmtClose (st : option unit) : M unit :=
  match st with
  | None => panic
  | Some _ => ret tt
  end.

(** *** The SQL statements *)

Definition count {R : Type} (p : R -> bool) (t : list R) : Z :=
  Z.of_nat (List.length (filter p t)).

Definition minutes (n : Z) : Z := n * 60 * 1000000.

(** delete from nonce where time < current_timestamp - interval '5 minutes' *)
Definition nonce_expired (now : Z) (r : nonceRow) : bool :=
  nonce_time r <? now - minutes 5.

Definition delete_expired_nonces (s : pgStore) : Z * pgStore :=
  (count (nonce_expired (clock s)) (nonce s),
   with_nonce (filter (fun r => negb (nonce_expired (clock s) r)) (nonce s)) s).

Definition has_key (key : string) (r : nonceRow) : bool :=
  String.eqb (nonce_key r) key.

(** select val from nonce where key = $1 limit 1 *)
Definition select_nonce_val (key : string) (s : pgStore) : list string :=
  map nonce_val (firstn 1 (filter (has_key key) (nonce s))).

(** delete from nonce where key = $1 *)
Definition delete_nonce (key : string) (s : pgStore) : Z * pgStore :=
  (count (has_key key) (nonce s),
   with_nonce (filter (fun r => negb (has_key key r)) (nonce s)) s).

(** insert into nonce (key, val, time) values ($1, $2, current_timestamp) *)
Definition insert_nonce (key val : string) (s : pgStore) : Z * pgStore :=
  (1, with_nonce (nonce s ++ [{| nonce_key := key; nonce_val := val;
                                nonce_time := clock s |}])%list s).

Definition for_device_type (devId cType : string) (r : pendingCommandsRow) : bool :=
  String.eqb (cmd_deviceId r) devId && String.eqb (cmd_type r) cType.

Definition for_device (devId : string) (r : pendingCommandsRow) : bool :=
  String.eqb (cmd_deviceId r) devId.

(** update pendingCommands set time=$1, cmd=$2 where deviceid=$3 and type=$4 *)
Definition update_pending (now : Z) (command devId cType : string) (s : pgStore)
    : Z * pgStore :=
  (count (for_device_type devId cType) (pendingCommands s),
   with_pendingCommands
     (map (fun r =>
             if for_device_type devId cType r
             then {| cmd_id := cmd_id r; cmd_deviceId := cmd_deviceId r;
                     cmd_time := now; cmd_cmd := command; cmd_type := cmd_type r |}
             else r)
        (pendingCommands s)) s).

(** insert into pendingCommands (deviceid, time, cmd, type) values ($1, $2, $3, $4) *)
Definition insert_pending (devId : string) (now : Z) (command cType : string)
    (s : pgStore) : Z * pgStore :=
  (1, with_serial (serial s + 1)
        (with_pendingCommands
           (pendingCommands s ++ [{| cmd_id := serial s; cmd_deviceId := devId;
                                    cmd_time := now; cmd_cmd := command;
                                    cmd_type := cType |}])%list s)).

(** The first row of least time (order by time limit 1). *)
Fixpoint oldest (t : list pendingCommandsRow) : option pendingCommandsRow :=
  match t with
  | [] => None
  | r :: rest =>
      match oldest rest with
      | None => Some r
      | Some r' => if cmd_time r' <? cmd_time r then Some r' else Some r
      end
  end.

(** select id, cmd, type, time from pendingCommands where deviceId = $1
    order by time limit 1 *)
Definition select_pending (devId : string) (s : pgStore) : list pendingCommandsRow :=
  match oldest (filter (for_device devId) (pendingCommands s)) with
  | None => []
  | Some r => [r]
  end.

(** delete from pendingCommands where id = $1 *)
Definition delete_pending (id : Z) (s : pgStore) : Z * pgStore :=
  (count (fun r => cmd_id r =? id) (pendingCommands s),
   with_pendingCommands (filter (fun r => negb (cmd_id r =? id)) (pendingCommands s)) s).

(** update deviceInfo set lastexchange = now() where deviceid = $1 *)
Definition update_lastexchange (devId : string) (s : pgStore) : Z * pgStore :=
  (count (fun r => String.eqb (dev_deviceId r) devId) (deviceInfo s),
   with_deviceInfo
     (map (fun r =>
             if String.eqb (dev_deviceId r) devId
             then {| dev_deviceId := dev_deviceId r; dev_lockable := dev_lockable r;
                     dev_loggedin := dev_loggedin r; dev_lastExchange := clock s;
                     dev_hawkSecret := dev_hawkSecret r; dev_pushUrl := dev_pushUrl r;
                     dev_accepts := dev_accepts r; dev_accesstoken := dev_accesstoken r |}
             else r)
        (deviceInfo s)) s).

Definition at_device (devId : string) (r : positionRow) : bool :=
  String.eqb (pos_deviceId r) devId.

(** delete from position where deviceid = $1 *)
Definition delete_position (devId : string) (s : pgStore) : Z * pgStore :=
  (count (at_device devId) (position s),
   with_position (filter (fun r => negb (at_device devId r)) (position s)) s).

(** insert into position (deviceId, time, latitude, longitude, altitude,
    accuracy) values ($1, $2, $3, $4, $5, $6) *)
Definition insert_position (devId : string) (now : Z) (lat lon alt acc : float)
    (s : pgStore) : Z * pgStore :=
  (1, with_serial (serial s + 1)
        (with_position
           (position s ++ [{| pos_id := serial s; pos_deviceId := devId;
                             pos_time := now; pos_latitude := lat;
                             pos_longitude := lon; pos_altitude := alt;
                             pos_accuracy := acc |}])%list s)).

(** *** The operations *)

(** [dbNow()]. *)
Definition dbNow : M Z := fun s => Ret (clock s) s.

Definition genSig (key val : string) : string :=
  hex.EncodeToString (md5.Sum (bytes_of_string (key ++ "." ++ val))).

(** [GetNonce].  [key] and [val] are the two identifiers [util.GenUUID4]
    returns (its errors are not looked at). *)
Definition GetNonce (key val : string) : M (string * option error) :=
  ' (_, err) <- Exec (insert_nonce key val) ;;
  match err with
  | Some e => ret (EmptyString, Some e)
  | None => ret (key ++ "." ++ genSig key val, None)
  end.

(** [CheckNonce].  The body of the loop over the rows returns in its first
    round, so the loop is a test of [rows.Next()]. *)
Definition CheckNonce (nonce : string) : M (bool * option error) :=
  _ <- Exec delete_expired_nonces ;;
  let keysig := strings.SplitN nonce "." 2 in
  if negb (List.length keysig =? 2)%nat then ret (false, None)
  else
    let key := nth 0 keysig EmptyString in
    let sig := nth 1 keysig EmptyString in
    ' (rows, err) <- Query (select_nonce_val key) ;;
    defer (Close rows)
      match err with
      | None =>
          r <- Next rows ;;
          match r with
          | Some (val, _) =>
              err <- Scan ;;
              match err with
              | None =>
                  _ <- Exec (delete_nonce key) ;;
                  ret (String.eqb (genSig key val) sig, None)
              | Some e => ret (false, Some e)
              end
          | None => ret (false, None)
          end
      | Some e => ret (false, Some e)
      end.

(** [Touch]. *)
Definition Touch (devId : string) : M (option error) :=
  ' (_, err) <- Exec (update_lastexchange devId) ;;
  ret err.

(** [GetPending]: the command, its type and the error.  [err] of the query
    is not examined before [rows.Next()] is called. *)
Definition GetPending (devId : string) : M (string * string * option error) :=
  ' (rows, err) <- Query (select_pending devId) ;;
  defer (Close rows)
    (r <- Next rows ;;
     match r with
     | Some (row, _) =>
         err <- Scan ;;
         match err with
         | Some e => ret (EmptyString, EmptyString, Some e)
         | None =>
             _ <- Exec (delete_pending (cmd_id row)) ;;
             _ <- Touch devId ;;
             ret (cmd_cmd row, cmd_type row, None)
         end
     | None =>
         _ <- Touch devId ;;
         ret (EmptyString, EmptyString, None)
     end).

(** [StoreCommand]. *)
Definition StoreCommand (devId command cType : string) : M (option error) :=
  now <- dbNow ;;
  ' (result, err) <- Exec (update_pending now command devId cType) ;;
  match err with
  | Some e => ret (Some e)
  | None =>
      cnt <- RowsAffected result ;;
      if cnt =? 0 then
        now <- dbNow ;;
        ' (_, err) <- Exec (insert_pending devId now command cType) ;;
        match err with
        | Some e => ret (Some e)
        | None => ret None
        end
      else ret None
  end.

(** [PurgePosition]. *)
Definition PurgePosition (devId : string) : M (option error) :=
  ' (_, err) <- Exec (delete_position devId) ;;
  ret err.

(** [SetDeviceLocation].  The result of [PurgePosition] and the error of
    [Prepare] are not looked at. *)
Definition SetDeviceLocation (devId : string) (position : Position)
    : M (option error) :=
  _ <- PurgePosition devId ;;
  ' (st, _) <- Prepare ;;
  now <- dbNow ;;
  ' (_, err) <- StmtExec st
                  (insert_position devId now
                     (float32 (Latitude position)) (float32 (Longitude position))
                     (float32 (Altitude position)) (float32 (Accuracy position))) ;;
  _ <- StmtClose st ;;
  match err with
  | Some e => ret (Some e)
  | None => ret None
  end.

(** *** Further statements and operations *)

(** delete from pendingcommands where deviceid=$1 *)
Definition delete_pending_for (devId : string) (s : pgStore) : Z * pgStore :=
  (count (for_device devId) (pendingCommands s),
   with_pendingCommands
     (filter (fun r => negb (for_device devId r)) (pendingCommands s)) s).

(** delete from deviceinfo where deviceid=$1 *)
Definition delete_deviceinfo (devId : string) (s : pgStore) : Z * pgStore :=
  (count (fun r => String.eqb (dev_deviceId r) devId) (deviceInfo s),
   with_deviceInfo
     (filter (fun r => negb (String.eqb (dev_deviceId r) devId)) (deviceInfo s)) s).

(** update deviceInfo set accesstoken = $1, lastexchange = now()
    where deviceId = $2 *)
Definition update_accesstoken (token devId : string) (s : pgStore) : Z * pgStore :=
  (count (fun r => String.eqb (dev_deviceId r) devId) (deviceInfo s),
   with_deviceInfo
     (map (fun r =>
             if String.eqb (dev_deviceId r) devId
             then {| dev_deviceId := dev_deviceId r; dev_lockable := dev_lockable r;
                     dev_loggedin := dev_loggedin r; dev_lastExchange := clock s;
                     dev_hawkSecret := dev_hawkSecret r; dev_pushUrl := dev_pushUrl r;
                     dev_accepts := dev_accepts r; dev_accesstoken := token |}
             else r)
        (deviceInfo s)) s).

(** update deviceInfo set lockable = $1, lastexchange = now()
    where deviceId = $2 *)
Definition update_lockable (state : bool) (devId : string) (s : pgStore) : Z * pgStore :=
  (count (fun r => String.eqb (dev_deviceId r) devId) (deviceInfo s),
   with_deviceInfo
     (map (fun r =>
             if String.eqb (dev_deviceId r) devId
             then {| dev_deviceId := dev_deviceId r; dev_lockable := state;
                     dev_loggedin := dev_loggedin r; dev_lastExchange := clock s;
                     dev_hawkSecret := dev_hawkSecret r; dev_pushUrl := dev_pushUrl r;
                     dev_accepts := dev_accepts r; dev_accesstoken := dev_accesstoken r |}
             else r)
        (deviceInfo s)) s).

Definition seconds (n : Z) : Z := n * 1000000.

(** delete from position where time < (now() - interval 'defExpry seconds') *)
Definition position_expired (now defExpry : Z) (r : positionRow) : bool :=
  pos_time r <? now - seconds defExpry.

Definition delete_expired_positions (defExpry : Z) (s : pgStore) : Z * pgStore :=
  (count (position_expired (clock s) defExpry) (position s),
   with_position
     (filter (fun r => negb (position_expired (clock s) defExpry r)) (position s)) s).

(** The first row of least time (order by time limit 1). *)
Fixpoint earliest (t : list positionRow) : option positionRow :=
  match t with
  | [] => None
  | r :: rest =>
      match earliest rest with
      | None => Some r
      | Some r' => if pos_time r' <? pos_time r then Some r' else Some r
      end
  end.

(** select extract(epoch from time)::int, latitude, longitude, altitude,
    accuracy from position where deviceid=$1 order by time limit 1 *)
Definition select_position (devId : string) (s : pgStore) : list positionRow :=
  match earliest (filter (at_device devId) (position s)) with
  | None => []
  | Some r => [r]
  end.

(** extract(epoch from time)::int: the seconds of a timestamp, to the nearest
    integer, a tie to the even one.  The cast is defined for the timestamps
    whose seconds fit an integer of 32 bits. *)
Definition epoch_int (t : Z) : Z :=
  let q := t / 1000000 in
  let r := t mod 1000000 in
  if r <? 500000 then q
  else if 500000 <? r then q + 1
  else if Z.even q then q else q + 1.

(** The Position that [rows.Scan] and the conversions make of a row: the
    coordinates are read into float32 variables, the seconds into an int32
    variable. *)
Definition scanned (r : positionRow) : Position :=
  {| Latitude := float32 (pos_latitude r);
     Longitude := float32 (pos_longitude r);
     Altitude := float32 (pos_altitude r);
     Accuracy := float32 (pos_accuracy r);
     Time := epoch_int (pos_time r) |}.

(** [PurgeCommands]. *)
Definition PurgeCommands (devId : string) : M (option error) :=
  ' (_, err) <- Exec (delete_pending_for devId) ;;
  ret err.

(** [SetAccessToken]. *)
Definition SetAccessToken (devId token : string) : M (option error) :=
  ' (_, err) <- Exec (update_accesstoken token devId) ;;
  match err with
  | Some e => ret (Some e)
  | None => ret None
  end.

(** [SetDeviceLock]. *)
Definition SetDeviceLock (devId : string) (state : bool) : M (option error) :=
  ' (_, err) <- Exec (update_lockable state devId) ;;
  match err with
  | Some e => ret (Some e)
  | None => ret None
  end.

(** The loop of [GetPositions] over the rows that are left: a row that does
    not scan ends it. *)
Fixpoint scan_positions (rows : list positionRow) (positions : list Position)
    : M (list Position) :=
  match rows with
  | [] => ret positions
  | r :: rest =>
      err <- Scan ;;
      match err with
      | Some _ => ret positions
      | None => scan_positions rest (positions ++ [scanned r])%list
      end
  end.

(** [GetPositions].  The error it returns is nil on every path. *)
Definition GetPositions (devId : string) : M (list Position * option error) :=
  ' (rows, err) <- Query (select_position devId) ;;
  defer (Close rows)
    match err with
    | None =>
        match rows with
        | Some l => positions <- scan_positions l [] ;; ret (positions, None)
        | None => panic
        end
    | Some _ => ret ([], None)
    end.

(** [GcDatabase].  [defExpry] is the field of the receiver; the error of
    [Prepare] is not looked at, and the two arguments are not used. *)
Definition GcDatabase (defExpry : Z) (devId userId : string) : M (option error) :=
  ' (st, _) <- Prepare ;;
  ' (_, err) <- StmtExec st (delete_expired_positions defExpry) ;;
  _ <- StmtClose st ;;
  match err with
  | Some e => ret (Some e)
  | None => ret None
  end.

End storage.

(** ** The device registry

    The operations that read or write the table userToDeviceMap, which the
    operations above do not touch. *)

Declare Scope registry_scope.

Module registry.
Import storage.
Local Open Scope Z_scope.

(** The fields of the Device struct that [RegisterDevice] reads. *)
Record Device : Type := {
  ID : string;
  Name : string;
  Secret : string;
  HasPasscode : bool;
  LoggedIn : bool;
  PushUrl : string;
  Accepts : string
}.

Definition set_ID (v : string) (dev : Device) : Device :=
  {| ID := v; Name := Name dev; Secret := Secret dev; HasPasscode := HasPasscode dev;
     LoggedIn := LoggedIn dev; PushUrl := PushUrl dev; Accepts := Accepts dev |}.

Record DeviceList : Type := {
  list_ID : string;
  list_Name : string
}.

(** A row of userToDeviceMap; the name can be NULL. *)
Record userToDeviceMapRow : Type := {
  map_userId : string;
  map_deviceId : string;
  map_name : option string;
  map_date : Z
}.

(** The database with the table of the registry. *)
Record Store : Type := {
  db : pgStore;
  userToDeviceMap : list userToDeviceMapRow
}.

Definition with_db (s : pgStore) (st : Store) : Store :=
  {| db := s; userToDeviceMap := userToDeviceMap st |}.

Definition with_userToDeviceMap (t : list userToDeviceMapRow) (st : Store) : Store :=
  {| db := db st; userToDeviceMap := t |}.

(** *** The monad over the larger state *)

Definition R (A : Type) : Type := Store -> outcome Store A.

Definition ret {A : Type} (a : A) : R A := fun st => Ret a st.

Definition bind {A B : Type} (m : R A) (k : A -> R B) : R B :=
  fun st =>
    match m st with
    | Ret a st' => k a st'
    | Panic st' => Panic st'
    end.

Definition panic {A : Type} : R A := fun st => Panic st.

Notation "x <- m ;; k" := (bind m (fun x => k))
  (at level 61, m at next level, right associativity) : registry_scope.
Notation "' p <- m ;; k" := (bind m (fun x => match x with p => k end))
  (at level 61, p pattern, m at next level, right associativity) : registry_scope.
Local Open Scope registry_scope.

(** An operation of the store above, run on the database of the registry. *)
Definition lift {A : Type} (m : M A) : R A :=
  fun st =>
    match m (db st) with
    | Ret a s => Ret a (with_db s st)
    | Panic s => Panic (with_db s st)
    end.

Definition defer {A : Type} (d : R unit) (body : R A) : R A :=
  fun st =>
    match body st with
    | Ret a st' =>
        match d st' with
        | Ret _ st'' => Ret a st''
        | Panic st'' => Panic st''
        end
    | Panic st' =>
        match d st' with
        | Ret _ st'' => Panic st''
        | Panic st'' => Panic st''
        end
    end.

(** A statement on the tables of the store above. *)
Definition on_db (stmt : pgStore -> Z * pgStore) (st : Store) : Z * Store :=
  (fst (stmt (db st)), with_db (snd (stmt (db st))) st).

(** [dbh.Exec]. *)
Definition Exec (stmt : Store -> Z * Store) : R (option Z * option error) :=
  failed <- lift driver_call ;;
  if (failed : bool) then ret (None, Some ErrDriver)
  else fun st => Ret (Some (fst (stmt st)), None) (snd (stmt st)).

(** [dbh.Query] of a select. *)
Definition Query {A : Type} (q : Store -> list A)
    : R (option (list A) * option error) :=
  failed <- lift driver_call ;;
  if (failed : bool) then ret (None, Some ErrDriver)
  else fun st => Ret (Some (q st), None) st.

(** [dbh.Query] of an update or an insert: the statement runs, and the
    cursor holds no row. *)
Definition QueryExec (stmt : Store -> Z * Store)
    : R (option (list unit) * option error) :=
  failed <- lift driver_call ;;
  if (failed : bool) then ret (None, Some ErrDriver)
  else fun st => Ret (Some [], None) (snd (stmt st)).

(** [dbh.QueryRow(...).Scan(...)]: the first row, [sql.ErrNoRows] when there
    is none, or the error of the query. *)
Inductive scanned_row (A : Type) : Type :=
| Row (a : A)
| ErrNoRows
| RowError (e : error).
Arguments Row {A} a.
Arguments ErrNoRows {A}.
Arguments RowError {A} e.

Definition QueryRowScan {A : Type} (q : Store -> list A) : R (scanned_row A) :=
  failed <- lift driver_call ;;
  if (failed : bool) then ret (RowError ErrDriver)
  else fun st =>
         match q st with
         | [] => Ret ErrNoRows st
         | a :: _ => Ret (Row a) st
         end.

(** [rows.Scan] into string variables: a NULL column does not convert. *)
Definition ScanStrings (null : bool) : R (option error) :=
  err <- lift Scan ;;
  match err with
  | Some e => ret (Some e)
  | None => ret (if null then Some ErrDriver else None)
  end.

(** *** The SQL statements *)

(** select deviceid from userToDeviceMap where userId = $1 and deviceid=$2 *)
Definition maps (userid devId : string) (r : userToDeviceMapRow) : bool :=
  String.eqb (map_userId r) userid && String.eqb (map_deviceId r) devId.

Definition select_mapping (userid devId : string) (st : Store) : list string :=
  map map_deviceId (filter (maps userid devId) (userToDeviceMap st)).

(** update deviceinfo set lockable=$1, loggedin=$2, lastExchange=$3,
    hawkSecret=$4, accepts=$5, pushUrl=$6 where deviceid=$7 *)
Definition update_deviceinfo (dev : Device) (now : Z) (s : pgStore) : Z * pgStore :=
  (count (fun r => String.eqb (dev_deviceId r) (ID dev)) (deviceInfo s),
   with_deviceInfo
     (map (fun r =>
             if String.eqb (dev_deviceId r) (ID dev)
             then {| dev_deviceId := dev_deviceId r; dev_lockable := HasPasscode dev;
                     dev_loggedin := LoggedIn dev; dev_lastExchange := now;
                     dev_hawkSecret := Secret dev; dev_pushUrl := PushUrl dev;
                     dev_accepts := Accepts dev; dev_accesstoken := dev_accesstoken r |}
             else r)
        (deviceInfo s)) s).

(** insert into deviceInfo (deviceId, lockable, loggedin, lastExchange,
    hawkSecret, accepts, pushUrl) values ($1, $2, $3, $4, $5, $6, $7): the
    access token is not among the columns, the new row holds none. *)
Definition insert_deviceinfo (dev : Device) (now : Z) (s : pgStore) : Z * pgStore :=
  (1, with_deviceInfo
        (deviceInfo s ++ [{| dev_deviceId := ID dev; dev_lockable := HasPasscode dev;
                             dev_loggedin := LoggedIn dev; dev_lastExchange := now;
                             dev_hawkSecret := Secret dev; dev_pushUrl := PushUrl dev;
                             dev_accepts := Accepts dev;
                             dev_accesstoken := EmptyString |}])%list s).

(** insert into userToDeviceMap (userId, deviceId, name, date)
    values ($1, $2, $3, now()), with the empty string for the name *)
Definition insert_mapping (userid devId : string) (st : Store) : Z * Store :=
  (1, with_userToDeviceMap
        (userToDeviceMap st ++ [{| map_userId := userid; map_deviceId := devId;
                                   map_name := Some EmptyString;
                                   map_date := clock (db st) |}])%list st).

Definition of_device (devId : string) (r : userToDeviceMapRow) : bool :=
  String.eqb (map_deviceId r) devId.

(** select userId, name from userToDeviceMap where deviceId = $1 limit 1 *)
Definition select_user (deviceId : string) (st : Store) : list userToDeviceMapRow :=
  firstn 1 (filter (of_device deviceId) (userToDeviceMap st)).

Definition of_user (userId : string) (r : userToDeviceMapRow) : bool :=
  String.eqb (map_userId r) userId.

(** update userToDeviceMap set userId = $1 where userId = $2 *)
Definition rekey (userId oldUserId : string) (st : Store) : Z * Store :=
  (count (of_user oldUserId) (userToDeviceMap st),
   with_userToDeviceMap
     (map (fun r =>
             if of_user oldUserId r
             then {| map_userId := userId; map_deviceId := map_deviceId r;
                     map_name := map_name r; map_date := map_date r |}
             else r)
        (userToDeviceMap st)) st).

(** order by date desc: a row goes before the rows that are not newer. *)
Fixpoint insert_by_date (r : userToDeviceMapRow) (t : list userToDeviceMapRow)
    : list userToDeviceMapRow :=
  match t with
  | [] => [r]
  | x :: rest =>
      if map_date x <? map_date r then r :: t else x :: insert_by_date r rest
  end.

Definition newest_first (t : list userToDeviceMapRow) : list userToDeviceMapRow :=
  fold_right insert_by_date [] t.

(** select deviceId, coalesce(name,deviceId) from userToDeviceMap
    where userId = $1 order by date desc limit $2 *)
Definition listed (r : userToDeviceMapRow) : DeviceList :=
  {| list_ID := map_deviceId r;
     list_Name := match map_name r with
                  | Some name => name
                  | None => map_deviceId r
                  end |}.

Definition select_devices (userId : string) (limit : nat) (st : Store)
    : list DeviceList :=
  map listed (firstn limit (newest_first (filter (of_user userId) (userToDeviceMap st)))).

(** delete from usertodevicemap where deviceid=$1 *)
Definition delete_mapping (devId : string) (st : Store) : Z * Store :=
  (count (of_device devId) (userToDeviceMap st),
   with_userToDeviceMap
     (filter (fun r => negb (of_device devId r)) (userToDeviceMap st)) st).

(** *** The operations *)

(** The rows [RegisterDevice] inserts when the device is not the user's. *)
Definition insert_device (userid : string) (dev : Device)
    : R (string * option error) :=
  now <- lift dbNow ;;
  ' (rows, err) <- QueryExec (on_db (insert_deviceinfo dev now)) ;;
  defer (lift (Close rows))
    match err with
    | Some e => ret (EmptyString, Some e)
    | None =>
        ' (rows2, err) <- QueryExec (insert_mapping userid (ID dev)) ;;
        defer (lift (Close rows2))
          match err with
          | Some e => ret (EmptyString, Some e)
          | None => ret (ID dev, None)
          end
    end.

(** [RegisterDevice].  [uuid] is the identifier [util.GenUUID4] returns for a
    device that has none. *)
Definition RegisterDevice (uuid userid : string) (dev : Device)
    : R (string * option error) :=
  let dev := if String.eqb (ID dev) EmptyString then set_ID uuid dev else dev in
  found <- QueryRowScan (select_mapping userid (ID dev)) ;;
  match found with
  | Row deviceId =>
      if String.eqb deviceId (ID dev) then
        now <- lift dbNow ;;
        ' (rows, err) <- QueryExec (on_db (update_deviceinfo dev now)) ;;
        defer (lift (Close rows))
          match err with
          | Some e => ret (EmptyString, Some e)
          | None => ret (ID dev, None)
          end
      else insert_device userid dev
  | _ => insert_device userid dev
  end.

(** [GetUserFromDevice].  The body of the loop returns in its first round. *)
Definition GetUserFromDevice (deviceId : string)
    : R (string * string * option error) :=
  ' (rows, err) <- Query (select_user deviceId) ;;
  defer (lift (Close rows))
    match err with
    | None =>
        r <- lift (Next rows) ;;
        match r with
        | Some (row, _) =>
            err <- ScanStrings (match map_name row with None => true | Some _ => false end) ;;
            match err with
            | Some e => ret (EmptyString, EmptyString, Some e)
            | None =>
                ret (map_userId row,
                     match map_name row with Some name => name | None => EmptyString end,
                     None)
            end
        | None => ret (EmptyString, EmptyString, Some ErrUnknownDevice)
        end
    | Some _ => ret (EmptyString, EmptyString, Some ErrUnknownDevice)
    end.

(** The loop of [GetDevicesForUser] over the rows that are left. *)
Fixpoint scan_devices (rows data : list DeviceList)
    : R (list DeviceList * option error) :=
  match rows with
  | [] => ret (data, None)
  | r :: rest =>
      err <- lift Scan ;;
      match err with
      | Some e => ret ([], Some e)
      | None => scan_devices rest (data ++ [r])%list
      end
  end.

(** [GetDevicesForUser].  [limit] is the number the configuration holds under
    db.max_devices_for_user. *)
Definition GetDevicesForUser (limit : nat) (userId oldUserId : string)
    : R (list DeviceList * option error) :=
  userId <-
    (if (0 <? String.length oldUserId)%nat && negb (String.eqb userId oldUserId)
     then
       ' (updr, err) <- Exec (rekey userId oldUserId) ;;
       match err with
       | Some _ => ret oldUserId
       | None => _ <- lift (RowsAffected updr) ;; ret userId
       end
     else ret userId) ;;
  ' (rows, err) <- Query (select_devices userId limit) ;;
  defer (lift (Close rows))
    match err with
    | None =>
        match rows with
        | Some l => scan_devices l []
        | None => panic
        end
    | Some e => ret ([], Some e)
    end.

(** [DeleteDevice]: the statements for the four tables, in the order of the
    loop, which ends at the first that fails. *)
Definition device_deletes (devId : string) : list (Store -> Z * Store) :=
  [on_db (delete_pending_for devId); on_db (delete_position devId);
   delete_mapping devId; on_db (delete_deviceinfo devId)].

Fixpoint run_deletes (stmts : list (Store -> Z * Store)) : R (option error) :=
  match stmts with
  | [] => ret None
  | stmt :: rest =>
      ' (_, err) <- Exec stmt ;;
      match err with
      | Some e => ret (Some e)
      | None => run_deletes rest
      end
  end.

Definition DeleteDevice (devId : string) : R (option error) :=
  run_deletes (device_deletes devId).

End registry.


(** ** Vocabulary of the properties *)

(** [s'] is [s] with the byte at one position replaced by a different byte. *)
Definition one_byte_changed (s s' : string) : Prop :=
  exists pre c c' post,
    c <> c' /\ s = pre ++ String c post /\ s' = pre ++ String c' post.

(** Two different strings with the same SHA-256 digest. *)
Definition sha256_collision (m m' : string) : Prop :=
  m <> m'
  /\ sha256.Sum256 (bytes_of_string m) = sha256.Sum256 (bytes_of_string m').

(** Two different (key, message) pairs with the same HMAC-SHA256 value. *)
Definition hmac_collision (k m k' m' : string) : Prop :=
  (k <> k' \/ m <> m')
  /\ hmac.SumSHA256 (bytes_of_string k) (bytes_of_string m)
     = hmac.SumSHA256 (bytes_of_string k') (bytes_of_string m').

(** The request with another [URL.Path]. *)
Definition with_url_path (p : string) (req : http.Request) : http.Request :=
  {| http.Method := http.Method req;
     http.URL := {| url.Scheme := url.Scheme (http.URL req); url.Path := p;
                    url.RawQuery := url.RawQuery (http.URL req);
                    url.Fragment := url.Fragment (http.URL req) |};
     http.Host := http.Host req;
     http.Hdr := http.Hdr req |}.

(** The request with the header [key] set to [val], as [Header.Set] does. *)
Definition with_header (key val : string) (req : http.Request) : http.Request :=
  {| http.Method := http.Method req;
     http.URL := http.URL req;
     http.Host := http.Host req;
     http.Hdr := (key, val) :: http.Hdr req |}.

(** The verifier's receiver: the signer's receiver before signing, with the
    timestamp and the nonce the signer used. *)
Definition verifier (h0 hs : wmf.Hawk) : wmf.Hawk :=
  wmf.set_Nonce (wmf.Nonce hs) (wmf.set_Time (wmf.Time hs) h0).

(** The header shape the specification documents: six [key="value"] pairs,
    every two separated by a comma and a blank. *)
Definition documented_header (id ts nonce ext hash mac : string) : string :=
  "Hawk id=" ++ dquote ++ id ++ dquote
    ++ ", ts=" ++ dquote ++ ts ++ dquote
    ++ ", nonce=" ++ dquote ++ nonce ++ dquote
    ++ ", ext=" ++ dquote ++ ext ++ dquote
    ++ ", hash=" ++ dquote ++ hash ++ dquote
    ++ ", mac=" ++ dquote ++ mac ++ dquote.

(** Time passing on the database clock. *)
Definition later (d : Z) (s : storage.pgStore) : storage.pgStore :=
  storage.with_clock (storage.clock s + d)%Z s.

(** Every byte of [s] is one of the 64 digits of the base64 alphabet. *)
Definition in_alphabet (s : string) : bool :=
  forallb (fun c => strings.in_cutset c base64.alphabet) (list_ascii_of_string s).

(** The request with another URL, and with another Host. *)
Definition with_url (u : url.URL) (req : http.Request) : http.Request :=
  {| http.Method := http.Method req; http.URL := u;
     http.Host := http.Host req; http.Hdr := http.Hdr req |}.

Definition with_host (h : string) (req : http.Request) : http.Request :=
  {| http.Method := http.Method req; http.URL := http.URL req;
     http.Host := h; http.Hdr := http.Hdr req |}.

(** The port of the scheme. *)
Definition scheme_port (req : http.Request) : string :=
  if String.eqb (url.Scheme (http.URL req)) "https" then "443" else "80".

(** n padding characters. *)
Fixpoint padding (n : nat) : string :=
  match n with
  | O => EmptyString
  | S k => String base64.pad (padding k)
  end.

(** One [key="value"] pair of the Authorization header. *)
Definition pair_text (key val : string) : string :=
  key ++ "=" ++ dquote ++ val ++ dquote.

(** A header value that holds neither a quote nor a comma. *)
Definition plain (v : string) : bool :=
  negb (strings.Contains v dquote) && negb (strings.Contains v ",").

(** A string without a line break, and a receiver whose signed fields are
    such strings. *)
Definition one_line (s : string) : bool := negb (strings.Contains s newline).

Definition one_line_fields (h : wmf.Hawk) : bool :=
  one_line (wmf.Time h) && one_line (wmf.Nonce h)
  && one_line (strings.ToUpper (wmf.Method h)) && one_line (wmf.Path h)
  && one_line (strings.ToLower (wmf.Host h)) && one_line (wmf.Port h)
  && one_line (wmf.Hash h).

(** A content type as a client sends it: not empty, no parameters, one line. *)
Definition bare_type (ct : string) : bool :=
  negb (String.eqb ct EmptyString) && negb (strings.Contains ct ";") && one_line ct.

(** ** Bytes and sextets *)

Section ByteVocabulary.
Local Open Scope Z_scope.

(** The integers below n, in order. *)
Definition below (n : nat) : list Z := map Z.of_nat (seq 0 n).

Definition is_byte (x : Z) : Prop := 0 <= x < 256.

(** How a byte splits into the parts the encoder takes from it. *)
Definition byte_parts_ok (x : Z) : bool :=
  (Z.shiftr x 2 <? 64) && (0 <=? Z.shiftr x 2)
  && (Z.shiftr x 4 <? 16) && (0 <=? Z.shiftr x 4)
  && (Z.shiftr x 6 <? 4) && (0 <=? Z.shiftr x 6)
  && (Z.land x 3 <? 4) && (0 <=? Z.land x 3)
  && (Z.land x 15 <? 16) && (0 <=? Z.land x 15)
  && (Z.land x 63 <? 64) && (0 <=? Z.land x 63)
  && (Z.shiftr x 2 * 4 + Z.land x 3 =? x)
  && (Z.shiftr x 4 * 16 + Z.land x 15 =? x)
  && (Z.shiftr x 6 * 64 + Z.land x 63 =? x).

(** Joining a high part p and a low part h into a sextet by [p << sh | h] loses
    neither, for all parts below the two bounds. *)
Definition join_ok (hi_n lo_n : nat) (sh : Z) : bool :=
  forallb (fun p =>
    forallb (fun h =>
      let s := Z.lor (Z.shiftl p sh) h in
      (0 <=? s) && (s <? 64) && (s / Z.of_nat lo_n =? p) && (s mod Z.of_nat lo_n =? h))
      (below lo_n)) (below hi_n).

Definition digits_ok : bool :=
  forallb (fun i =>
    negb (Ascii.eqb (base64.digit i) base64.pad)
    && forallb (fun j => implb (Ascii.eqb (base64.digit i) (base64.digit j)) (i =? j))
         (below 64)) (below 64).

(** The second and third sextet of a group, from a byte and the high bits of
    the byte after it. *)
Definition sextet2 (a h : Z) : Z := Z.lor (Z.shiftl (Z.land a 3) 4) h.
Definition sextet3 (b t : Z) : Z := Z.lor (Z.shiftl (Z.land b 15) 2) t.

End ByteVocabulary.

(** ** Sample values and helpers of the request signing properties *)

Section HawkVocabulary.
Import wmf.

(** The body escaping of [genHash], byte by byte. *)
Definition escape_byte (c : ascii) : string :=
  if Ascii.eqb (ascii_of_nat 92) c then backslash ++ backslash
  else if Ascii.eqb (ascii_of_nat 10) c then backslash ++ "n"
  else String c EmptyString.

(** The body as [genHash] hashes it: backslashes doubled, then newlines
    written as a backslash and an n. *)
Definition escape (body : string) : string :=
  strings.Replace (strings.Replace body backslash (backslash ++ backslash))
    newline (backslash ++ "n").

(** A receiver with every field empty, and a request to sign. *)
Definition blank : Hawk :=
  {| config := []; header := EmptyString; Id := EmptyString; Time := EmptyString;
     Nonce := EmptyString; Method := EmptyString; Path := EmptyString;
     Host := EmptyString; Port := EmptyString; Extra := EmptyString;
     Hash := EmptyString; Signature := EmptyString |}.

Definition post_cmd (hdr : http.Header) : http.Request :=
  {| http.Method := "POST";
     http.URL := {| url.Scheme := "https"; url.Path := "/cmd";
                    url.RawQuery := EmptyString; url.Fragment := EmptyString |};
     http.Host := "example.com";
     http.Hdr := hdr |}.

Definition noon : Env := {| entropy := [1; 2; 3; 4; 5; 6]%Z; unix := 1414972800%Z |}.

(** The signer's receiver after it has signed the body "lock". *)
Definition signed : Hawk :=
  GenerateSignature noon blank (post_cmd [("Content-Type", "application/json")])
    EmptyString "lock" "s3cr3t".

(** The signer's request as the verifier receives it: the Authorization
    header holds the signer's values, in the documented shape. *)
Definition claimed : http.Request :=
  post_cmd [("Content-Type", "application/json");
            ("Authorization",
             documented_header "dev-1" (Time signed) (Nonce signed) EmptyString
               (Hash signed) (Signature signed))].

(** The receiver after [ParseAuthHeader] has read that request. *)
Definition parsed : Hawk :=
  match ParseAuthHeader blank claimed with
  | Ret _ h => h
  | Panic h => h
  end.

End HawkVocabulary.

(** ** Sample stores and helpers of the storage properties *)

Section StoreVocabulary.
Import storage.
Local Open Scope Z_scope.

(** The row an update of [pendingCommands] writes. *)
Definition rewritten (now : Z) (command devId cType : string)
    (r : pendingCommandsRow) : pendingCommandsRow :=
  if for_device_type devId cType r
  then {| cmd_id := cmd_id r; cmd_deviceId := cmd_deviceId r;
          cmd_time := now; cmd_cmd := command; cmd_type := cmd_type r |}
  else r.

(** A store with empty tables, at noon, on which no driver call fails. *)
Definition empty_store : pgStore :=
  {| deviceInfo := []; pendingCommands := []; position := []; nonce := [];
     serial := 1; clock := 1414972800000000; faults := [] |}.

(** A store that holds one nonce, issued a minute ago. *)
Definition one_nonce : pgStore :=
  with_nonce [{| nonce_key := "0be1a9e2"; nonce_val := "5f3c7d10";
                 nonce_time := 1414972740000000 |}] empty_store.

(** A device with an erase command that has been waiting for a while. *)
Definition erase_waiting : pgStore :=
  with_serial 2
    (with_pendingCommands
       [{| cmd_id := 1; cmd_deviceId := "dev-1"; cmd_time := 1414972000000000;
           cmd_cmd := "wipe"; cmd_type := "erase" |}] empty_store).

(** A device with two pending rows of one type, as two enqueues that ran at
    the same time leave them: each found no row to update and inserted one. *)
Definition lock_twice : pgStore :=
  with_serial 3
    (with_pendingCommands
       [{| cmd_id := 1; cmd_deviceId := "dev-1"; cmd_time := 1414972000000000;
           cmd_cmd := "a"; cmd_type := "lock" |};
        {| cmd_id := 2; cmd_deviceId := "dev-1"; cmd_time := 1414972000000001;
           cmd_cmd := "b"; cmd_type := "lock" |}] empty_store).

(** A nonce issued six minutes before the check. *)
Definition stale_nonce : pgStore :=
  with_nonce [{| nonce_key := "0be1a9e2"; nonce_val := "5f3c7d10";
                 nonce_time := 1414972440000000 |}] empty_store.

(** Two positions. *)
Definition here : Position :=
  {| Latitude := 37.5; Longitude := -122.25; Altitude := 12; Accuracy := 8; Time := 0 |}.

Definition there : Position :=
  {| Latitude := 48.75; Longitude := 2.5; Altitude := 35; Accuracy := 16; Time := 0 |}.

(** A device whose position was stored a while ago. *)
Definition located : pgStore :=
  with_serial 2
    (with_position
       [{| pos_id := 1; pos_deviceId := "dev-1"; pos_time := 1414972000000000;
           pos_latitude := 37.5; pos_longitude := -122.25;
           pos_altitude := 12; pos_accuracy := 8 |}] empty_store).

(** At most one pending row for every (device, type) key. *)
Definition one_per_key (t : list pendingCommandsRow) : Prop :=
  forall devId cType,
    (List.length (filter (for_device_type devId cType) t) <= 1)%nat.

(** The timestamps whose seconds since the epoch fit the int32 variable
    [GetPositions] scans them into. *)
Definition fits_int32 (t : Z) : Prop :=
  - seconds 2147483648 <= t < seconds 2147483647.

End StoreVocabulary.

(** ** Sample registries *)

Section RegistryVocabulary.
Import storage registry.
Local Open Scope Z_scope.

(** Time passing on the database clock of the registry. *)
Definition after (d : Z) (st : Store) : Store := with_db (later d (db st)) st.

Definition has_device (devId : string) (r : deviceInfoRow) : bool :=
  String.eqb (dev_deviceId r) devId.

(** A registry without devices, and a phone to register. *)
Definition no_devices : Store := {| db := empty_store; userToDeviceMap := [] |}.

Definition phone : Device :=
  {| ID := "dev-1"; Name := "My phone"; Secret := "s3cr3t"; HasPasscode := true;
     LoggedIn := true; PushUrl := "https://push.example.com/dev-1";
     Accepts := "elrt" |}.

(** A registry in which user-1 holds dev-1, which has an erase command
    waiting. *)
Definition one_phone : Store :=
  {| db := with_deviceInfo
             [{| dev_deviceId := "dev-1"; dev_lockable := true; dev_loggedin := true;
                 dev_lastExchange := 1414972000000000; dev_hawkSecret := "s3cr3t";
                 dev_pushUrl := "https://push.example.com/dev-1";
                 dev_accepts := "elrt"; dev_accesstoken := EmptyString |}]
             erase_waiting;
     userToDeviceMap :=
       [{| map_userId := "user-1"; map_deviceId := "dev-1";
           map_name := Some EmptyString; map_date := 1414972000000000 |}] |}.

End RegistryVocabulary.

Arguments wmf.sign : simpl never.
Arguments wmf.genHash : simpl never.
Arguments wmf.getHostPort : simpl never.
Arguments wmf.getFullPath : simpl never.
Arguments wmf.GenNonce : simpl never.
Arguments wmf.headerStr : simpl never.
Arguments strconv.FormatInt : simpl never.
Arguments strings.ToUpper : simpl never.
Arguments strings.ToLower : simpl never.
Arguments storage.genSig : simpl never.
Arguments storage.float32 : simpl never.
Arguments strings.SplitN : simpl never.

(** * Facts about strings *)

Lemma append_length (s t : string) :
  String.length (s ++ t) = (String.length s + String.length t)%nat.
Proof.
  induction s as [|c s IH]; simpl; [reflexivity | now rewrite IH].
Qed.

Lemma append_assoc (s t u : string) : (s ++ t) ++ u = s ++ (t ++ u).
Proof.
  induction s as [|c s IH]; simpl; [reflexivity | now rewrite IH].
Qed.

Lemma append_inv_head (p a b : string) : p ++ a = p ++ b -> a = b.
Proof.
  induction p as [|c p IH]; simpl; intros H; [exact H | inversion H; auto].
Qed.

Lemma append_inv_tail (a b q : string) : a ++ q = b ++ q -> a = b.
Proof.
  revert b; induction a as [|c a IH]; intros [|d b] H; simpl in H.
  - reflexivity.
  - apply (f_equal String.length) in H; simpl in H; rewrite append_length in H; lia.
  - apply (f_equal String.length) in H; simpl in H; rewrite append_length in H; lia.
  - inversion H; subst; f_equal; auto.
Qed.

Lemma one_byte_changed_neq (s s' : string) : one_byte_changed s s' -> s <> s'.
Proof.
  intros (pre & c & c' & post & Hc & -> & ->) H.
  apply append_inv_head in H; inversion H; contradiction.
Qed.

Lemma one_byte_changed_length (s s' : string) :
  one_byte_changed s s' -> String.length s = String.length s'.
Proof.
  intros (pre & c & c' & post & _ & -> & ->); now rewrite !append_length.
Qed.

(** Stripping the padding keeps apart strings of one length: the stripped
    text determines how many padding characters were dropped. *)
Lemma TrimRight_pad_inj (a b : string) :
  String.length a = String.length b ->
  strings.TrimRight a "=" = strings.TrimRight b "=" -> a = b.
Proof.
  revert b; induction a as [|c a IH]; intros [|d b] Hlen; try discriminate.
  - reflexivity.
  - simpl in Hlen; injection Hlen as Hlen.
    simpl strings.TrimRight. unfold strings.in_cutset; simpl existsb.
    rewrite !orb_false_r.
    destruct (strings.TrimRight a "=") as [|x ra] eqn:Ea;
      destruct (strings.TrimRight b "=") as [|y rb] eqn:Eb.
    + specialize (IH b Hlen (eq_sym Eb)); subst b.
      destruct (Ascii.eqb c "=") eqn:Ec; destruct (Ascii.eqb d "=") eqn:Ed;
        intros H; try discriminate.
      * apply Ascii.eqb_eq in Ec, Ed; congruence.
      * congruence.
    + destruct (Ascii.eqb c "="); discriminate.
    + destruct (Ascii.eqb d "="); discriminate.
    + intros H; injection H as -> -> ->. f_equal; apply IH; [exact Hlen | now rewrite Eb].
Qed.

(** Splitting at a one-byte separator. *)
Lemma SplitN_2 (s : string) (c : ascii) :
  strings.SplitN s (String c EmptyString) 2
  = match strings.cut (String c EmptyString) s with
    | None => [s]
    | Some (a, b) => [a; b]
    end.
Proof.
  unfold strings.SplitN. simpl Z.eqb. simpl Z.ltb. cbv iota.
  change (Z.to_nat 2 - 1)%nat with 1%nat.
  destruct s as [|x s]; [reflexivity|].
  simpl Nat.min. reflexivity.
Qed.

Lemma cut_append (key rest : string) (c : ascii) :
  strings.Contains key (String c EmptyString) = false ->
  strings.cut (String c EmptyString) (key ++ String c rest) = Some (key, rest).
Proof.
  unfold strings.Contains. induction key as [|x key IH]; intros H.
  - simpl. destruct (ascii_dec c c) as [_|n]; [|contradiction].
    destruct rest; reflexivity.
  - simpl in H |- *. destruct (ascii_dec c x) as [e|n].
    + destruct key; discriminate.
    + destruct (strings.cut (String c EmptyString) key) as [[a b]|] eqn:E;
        [discriminate|].
      rewrite IH by reflexivity. reflexivity.
Qed.

Lemma Split_head (a b : string) (c : ascii) :
  strings.Contains a (String c EmptyString) = false ->
  nth 0 (strings.Split (a ++ String c b) (String c EmptyString)) EmptyString = a.
Proof.
  intros H. unfold strings.Split.
  rewrite append_length. simpl String.length. rewrite Nat.add_succ_r.
  simpl strings.split_upto. now rewrite (cut_append a b c H).
Qed.

Lemma Split_whole (a : string) (c : ascii) :
  strings.Contains a (String c EmptyString) = false ->
  nth 0 (strings.Split a (String c EmptyString)) EmptyString = a.
Proof.
  unfold strings.Contains, strings.Split. intros H.
  destruct (String.length a); simpl; [reflexivity|].
  now destruct (strings.cut (String c EmptyString) a).
Qed.

(** ** Splitting and trimming *)

Section SplitFacts.

Lemma prefix_drop (p s : string) :
  String.prefix p s = true -> s = p ++ strings.drop (String.length p) s.
Proof.
  revert s; induction p as [|c p IH]; intros s H; simpl.
  - now destruct s.
  - destruct s as [|d s]; simpl in H; [discriminate|].
    destruct (ascii_dec c d) as [->|]; [|discriminate].
    f_equal; auto.
Qed.

Lemma cut_parts (sep s a b : string) :
  strings.cut sep s = Some (a, b) -> s = a ++ sep ++ b.
Proof.
  revert a b; induction s as [|c s IH]; intros a b.
  - cbn [strings.cut]. destruct (String.prefix sep "") eqn:P; [|discriminate].
    intros H; injection H as <- <-. simpl. now apply prefix_drop in P.
  - cbn [strings.cut]. destruct (String.prefix sep (String c s)) eqn:P.
    + intros H; injection H as <- <-. simpl. now apply prefix_drop in P.
    + destruct (strings.cut sep s) as [[a' b']|]; [|discriminate].
      intros H; injection H as <- <-. simpl. f_equal. now apply IH.
Qed.

Lemma cut_shorter (sep s a b : string) :
  sep <> EmptyString ->
  strings.cut sep s = Some (a, b) -> (String.length b < String.length s)%nat.
Proof.
  intros Hs H. apply cut_parts in H. subst s.
  rewrite !append_length. destruct sep; [contradiction|]. simpl. lia.
Qed.

Lemma split_upto_enough (sep : string) (n m : nat) (s : string) :
  sep <> EmptyString ->
  (String.length s <= n)%nat -> (String.length s <= m)%nat ->
  strings.split_upto n s sep = strings.split_upto m s sep.
Proof.
  intros Hs. revert m s; induction n as [|n IH]; intros [|m] s Hn Hm; simpl.
  - reflexivity.
  - destruct s; [|simpl in Hn; lia].
    destruct sep; [contradiction|]. reflexivity.
  - destruct s; [|simpl in Hm; lia].
    destruct sep; [contradiction|]. reflexivity.
  - destruct (strings.cut sep s) as [[a b]|] eqn:E; [|reflexivity].
    pose proof (cut_shorter sep s a b Hs E). f_equal. apply IH; lia.
Qed.

(** Splitting where the first separator is known. *)
Lemma Split_cut (sep s a b : string) :
  sep <> EmptyString ->
  strings.cut sep s = Some (a, b) ->
  strings.Split s sep = a :: strings.Split b sep.
Proof.
  intros Hs E. unfold strings.Split.
  pose proof (cut_shorter sep s a b Hs E) as L.
  destruct (String.length s) as [|n] eqn:Ln; [lia|].
  simpl. rewrite E. f_equal. apply split_upto_enough; [assumption|lia|lia].
Qed.

Lemma Split_none (sep s : string) :
  strings.cut sep s = None -> strings.Split s sep = [s].
Proof.
  intros E. unfold strings.Split. destruct (String.length s); simpl; [reflexivity|].
  now rewrite E.
Qed.

(** A string without the byte c: splitting and cutting at c. *)
Lemma Contains_cons (c x : ascii) (t : string) :
  strings.Contains (String x t) (String c EmptyString)
  = Ascii.eqb c x || strings.Contains t (String c EmptyString).
Proof.
  unfold strings.Contains. simpl strings.cut.
  destruct (ascii_dec c x) as [->|n].
  - rewrite Ascii.eqb_refl. now destruct t.
  - apply Ascii.eqb_neq in n. rewrite n. simpl.
    now destruct (strings.cut (String c EmptyString) t) as [[a b]|].
Qed.

Lemma Contains_append (c : ascii) (s t : string) :
  strings.Contains (s ++ t) (String c EmptyString)
  = strings.Contains s (String c EmptyString)
    || strings.Contains t (String c EmptyString).
Proof.
  induction s as [|x s IH].
  - simpl. unfold strings.Contains at 2. simpl. reflexivity.
  - simpl append. rewrite !Contains_cons, IH. now rewrite orb_assoc.
Qed.

Lemma cut_absent (c : ascii) (s : string) :
  strings.Contains s (String c EmptyString) = false ->
  strings.cut (String c EmptyString) s = None.
Proof.
  unfold strings.Contains. now destruct (strings.cut _ s).
Qed.

(** Cutting at a two-byte separator whose first byte the head does not hold. *)
Lemma cut2_append (c d : ascii) (head rest : string) :
  strings.Contains head (String c EmptyString) = false ->
  strings.cut (String c (String d EmptyString))
    (head ++ String c (String d rest))
  = Some (head, rest).
Proof.
  induction head as [|x head IH]; intros H.
  - simpl. destruct (ascii_dec c c) as [_|n]; [|contradiction].
    destruct (ascii_dec d d) as [_|n]; [|contradiction].
    destruct rest; reflexivity.
  - rewrite Contains_cons in H. apply orb_false_elim in H as [Hx Ht].
    simpl append. simpl strings.cut.
    destruct (ascii_dec c x) as [e|n].
    + subst. now rewrite Ascii.eqb_refl in Hx.
    + rewrite (IH Ht). reflexivity.
Qed.

Lemma cut2_absent (c d : ascii) (s : string) :
  strings.Contains s (String c EmptyString) = false ->
  strings.cut (String c (String d EmptyString)) s = None.
Proof.
  induction s as [|x s IH]; intros H.
  - reflexivity.
  - rewrite Contains_cons in H. apply orb_false_elim in H as [Hx Ht].
    simpl strings.cut.
    destruct (ascii_dec c x) as [e|n].
    + subst. now rewrite Ascii.eqb_refl in Hx.
    + now rewrite (IH Ht).
Qed.

(** Trimming. *)
Lemma TrimRight_append_cut (c : ascii) (s : string) :
  strings.TrimRight (s ++ String c EmptyString) (String c EmptyString)
  = strings.TrimRight s (String c EmptyString).
Proof.
  induction s as [|x s IH].
  - simpl. unfold strings.in_cutset. simpl. now rewrite Ascii.eqb_refl.
  - simpl append. simpl strings.TrimRight. now rewrite IH.
Qed.

Lemma TrimRight_free (c : ascii) (s : string) :
  strings.Contains s (String c EmptyString) = false ->
  strings.TrimRight s (String c EmptyString) = s.
Proof.
  induction s as [|x s IH]; intros H; [reflexivity|].
  rewrite Contains_cons in H. apply orb_false_elim in H as [Hx Ht].
  simpl. rewrite (IH Ht). unfold strings.in_cutset. simpl.
  rewrite Ascii.eqb_sym, Hx. simpl. now destruct s.
Qed.

Lemma TrimLeft_free (c : ascii) (s : string) :
  strings.Contains s (String c EmptyString) = false ->
  strings.TrimLeft s (String c EmptyString) = s.
Proof.
  destruct s as [|x s]; intros H; [reflexivity|].
  rewrite Contains_cons in H. apply orb_false_elim in H as [Hx Ht].
  simpl. unfold strings.in_cutset. simpl. now rewrite Ascii.eqb_sym, Hx.
Qed.

Lemma Trim_wrapped (c : ascii) (s : string) :
  strings.Contains s (String c EmptyString) = false ->
  strings.Trim (String c (s ++ String c EmptyString)) (String c EmptyString) = s.
Proof.
  intros H. unfold strings.Trim. simpl strings.TrimRight.
  rewrite TrimRight_append_cut, (TrimRight_free c s H).
  unfold strings.in_cutset. simpl existsb. rewrite Ascii.eqb_refl. simpl.
  destruct s as [|x s]; [reflexivity|].
  simpl. unfold strings.in_cutset. simpl existsb. rewrite Ascii.eqb_refl. simpl.
  fold (strings.in_cutset x (String c EmptyString)).
  exact (TrimLeft_free c (String x s) H).
Qed.

End SplitFacts.

(** * Facts about base64 and the digests *)

Section EncodingFacts.
Local Open Scope Z_scope.

(** The digest functions on known inputs. *)
Example sha256_abc :
  hex.EncodeToString (sha256.Sum256 (bytes_of_string "abc"))
  = "ba7816bf8f01cfea414140de5dae2223b00361a396177a9cb410ff61f20015ad".
Proof. vm_compute. reflexivity. Qed.

Example sha256_two_blocks :
  hex.EncodeToString
    (sha256.Sum256
       (bytes_of_string "abcdbcdecdefdefgefghfghighijhijkijkljklmklmnlmnomnopnopq"))
  = "248d6a61d20638b8e5c026930c3e6039a33ce45964ff2167f6ecedd419db06c1".
Proof. vm_compute. reflexivity. Qed.

Example hmac_sha256_fox :
  hex.EncodeToString
    (hmac.SumSHA256 (bytes_of_string "key")
       (bytes_of_string "The quick brown fox jumps over the lazy dog"))
  = "f7bc83f430538424b13298e6aa6fb143ef4d59a14946175997479dbc2d1a3cd8".
Proof. vm_compute. reflexivity. Qed.

Example md5_abc :
  hex.EncodeToString (md5.Sum (bytes_of_string "abc"))
  = "900150983cd24fb0d6963f7d28e17f72".
Proof. vm_compute. reflexivity. Qed.

Example md5_fox :
  hex.EncodeToString
    (md5.Sum (bytes_of_string "The quick brown fox jumps over the lazy dog"))
  = "9e107d9d372bb6826bd81d3542a419d6".
Proof. vm_compute. reflexivity. Qed.

Example base64_foobar :
  base64.EncodeToString (bytes_of_string "foobar") = "Zm9vYmFy"
  /\ base64.EncodeToString (bytes_of_string "fooba") = "Zm9vYmE="
  /\ base64.EncodeToString (bytes_of_string "foob") = "Zm9vYg==".
Proof. vm_compute. repeat split. Qed.

Lemma below_In (n : nat) (x : Z) : 0 <= x < Z.of_nat n -> In x (below n).
Proof.
  intros H. unfold below. apply in_map_iff. exists (Z.to_nat x).
  split; [lia | apply in_seq; lia].
Qed.

Lemma forallb_below (n : nat) (p : Z -> bool) (x : Z) :
  forallb p (below n) = true -> 0 <= x < Z.of_nat n -> p x = true.
Proof.
  intros H Hx. rewrite forallb_forall in H. apply H. now apply below_In.
Qed.

Lemma byte_parts (x : Z) :
  is_byte x ->
  (0 <= Z.shiftr x 2 < 64) /\ (0 <= Z.shiftr x 4 < 16) /\ (0 <= Z.shiftr x 6 < 4)
  /\ (0 <= Z.land x 3 < 4) /\ (0 <= Z.land x 15 < 16) /\ (0 <= Z.land x 63 < 64)
  /\ Z.shiftr x 2 * 4 + Z.land x 3 = x
  /\ Z.shiftr x 4 * 16 + Z.land x 15 = x
  /\ Z.shiftr x 6 * 64 + Z.land x 63 = x.
Proof.
  intros Hx.
  assert (H : forallb byte_parts_ok (below 256) = true) by (vm_compute; reflexivity).
  pose proof (forallb_below 256 byte_parts_ok x H Hx) as P.
  unfold byte_parts_ok in P.
  repeat (apply andb_true_iff in P; destruct P as [P ?]).
  repeat match goal with
         | E : (_ <? _) = true |- _ => apply Z.ltb_lt in E
         | E : (_ <=? _) = true |- _ => apply Z.leb_le in E
         | E : (_ =? _) = true |- _ => apply Z.eqb_eq in E
         end.
  repeat split; lia.
Qed.

Lemma join_parts (hi_n lo_n : nat) (sh p h : Z) :
  join_ok hi_n lo_n sh = true ->
  0 <= p < Z.of_nat hi_n -> 0 <= h < Z.of_nat lo_n ->
  let s := Z.lor (Z.shiftl p sh) h in
  0 <= s < 64 /\ s / Z.of_nat lo_n = p /\ s mod Z.of_nat lo_n = h.
Proof.
  intros H Hp Hh s. unfold join_ok in H.
  pose proof (forallb_below _ _ p H Hp) as H1. cbv beta in H1.
  pose proof (forallb_below _ _ h H1 Hh) as H2. cbv beta zeta in H2.
  fold s in H2.
  repeat (apply andb_true_iff in H2; destruct H2 as [H2 ?]).
  apply Z.leb_le in H2.
  repeat match goal with
         | E : (_ <? _) = true |- _ => apply Z.ltb_lt in E
         | E : (_ =? _) = true |- _ => apply Z.eqb_eq in E
         end.
  repeat split; assumption.
Qed.

Lemma join_4_16 : join_ok 4 16 4 = true.
Proof. vm_compute. reflexivity. Qed.

Lemma join_16_4 : join_ok 16 4 2 = true.
Proof. vm_compute. reflexivity. Qed.

Lemma digit_facts (i j : Z) :
  0 <= i < 64 -> 0 <= j < 64 ->
  base64.digit i <> base64.pad
  /\ (base64.digit i = base64.digit j -> i = j).
Proof.
  intros Hi Hj.
  assert (H : digits_ok = true) by (vm_compute; reflexivity).
  unfold digits_ok in H.
  pose proof (forallb_below 64 _ i H Hi) as H1. cbv beta in H1.
  apply andb_true_iff in H1. destruct H1 as [Hp Hq].
  split.
  - intros E. rewrite E, Ascii.eqb_refl in Hp. discriminate.
  - intros E. pose proof (forallb_below 64 _ j Hq Hj) as H2. cbv beta in H2.
    rewrite E, Ascii.eqb_refl in H2. now apply Z.eqb_eq.
Qed.

Lemma sextet1_range (a : Z) : is_byte a -> 0 <= Z.shiftr a 2 < 64.
Proof. intros H; apply (byte_parts a H). Qed.

Lemma sextet4_range (c : Z) : is_byte c -> 0 <= Z.land c 63 < 64.
Proof. intros H; pose proof (byte_parts c H); tauto. Qed.

Lemma sextet2_range (a h : Z) : is_byte a -> 0 <= h < 16 -> 0 <= sextet2 a h < 64.
Proof.
  intros Ha Hh. pose proof (byte_parts a Ha) as P.
  apply (join_parts 4 16 4 (Z.land a 3) h join_4_16); [tauto | exact Hh].
Qed.

Lemma sextet3_range (b t : Z) : is_byte b -> 0 <= t < 4 -> 0 <= sextet3 b t < 64.
Proof.
  intros Hb Ht. pose proof (byte_parts b Hb) as P.
  apply (join_parts 16 4 2 (Z.land b 15) t join_16_4); [tauto | exact Ht].
Qed.

(** The first two sextets give back the first byte and the high bits of the
    second. *)
Lemma sextet12_inj (a a' h h' : Z) :
  is_byte a -> is_byte a' -> 0 <= h < 16 -> 0 <= h' < 16 ->
  Z.shiftr a 2 = Z.shiftr a' 2 -> sextet2 a h = sextet2 a' h' ->
  a = a' /\ h = h'.
Proof.
  intros Ha Ha' Hh Hh' E1 E2.
  pose proof (byte_parts a Ha) as P. pose proof (byte_parts a' Ha') as P'.
  destruct (join_parts 4 16 4 (Z.land a 3) h join_4_16) as (_ & Q1 & Q2);
    [tauto | exact Hh |].
  destruct (join_parts 4 16 4 (Z.land a' 3) h' join_4_16) as (_ & Q1' & Q2');
    [tauto | exact Hh' |].
  fold (sextet2 a h) in Q1, Q2. fold (sextet2 a' h') in Q1', Q2'.
  rewrite E2 in Q1, Q2.
  assert (Z.land a 3 = Z.land a' 3) by congruence.
  split; [|congruence].
  destruct P as (_ & _ & _ & _ & _ & _ & Pa & _).
  destruct P' as (_ & _ & _ & _ & _ & _ & Pa' & _).
  rewrite <- Pa, <- Pa'. congruence.
Qed.

Lemma sextet23_inj (b b' t t' : Z) :
  is_byte b -> is_byte b' -> 0 <= t < 4 -> 0 <= t' < 4 ->
  Z.shiftr b 4 = Z.shiftr b' 4 -> sextet3 b t = sextet3 b' t' ->
  b = b' /\ t = t'.
Proof.
  intros Hb Hb' Ht Ht' E1 E2.
  pose proof (byte_parts b Hb) as P. pose proof (byte_parts b' Hb') as P'.
  destruct (join_parts 16 4 2 (Z.land b 15) t join_16_4) as (_ & Q1 & Q2);
    [tauto | exact Ht |].
  destruct (join_parts 16 4 2 (Z.land b' 15) t' join_16_4) as (_ & Q1' & Q2');
    [tauto | exact Ht' |].
  fold (sextet3 b t) in Q1, Q2. fold (sextet3 b' t') in Q1', Q2'.
  rewrite E2 in Q1, Q2.
  assert (Z.land b 15 = Z.land b' 15) by congruence.
  split; [|congruence].
  destruct P as (_ & _ & _ & _ & _ & _ & _ & Pb & _).
  destruct P' as (_ & _ & _ & _ & _ & _ & _ & Pb' & _).
  rewrite <- Pb, <- Pb'. congruence.
Qed.

Lemma sextet34_inj (c c' : Z) :
  is_byte c -> is_byte c' ->
  Z.shiftr c 6 = Z.shiftr c' 6 -> Z.land c 63 = Z.land c' 63 -> c = c'.
Proof.
  intros Hc Hc' E1 E2.
  pose proof (byte_parts c Hc) as P. pose proof (byte_parts c' Hc') as P'.
  destruct P as (_ & _ & _ & _ & _ & _ & _ & _ & Pc).
  destruct P' as (_ & _ & _ & _ & _ & _ & _ & _ & Pc').
  rewrite <- Pc, <- Pc'. congruence.
Qed.

Lemma list_ind3 {A : Type} (P : list A -> Prop) :
  P [] -> (forall a, P [a]) -> (forall a b, P [a; b]) ->
  (forall a b c l, P l -> P (a :: b :: c :: l)) ->
  forall l, P l.
Proof.
  intros H0 H1 H2 H3. fix F 1.
  intros [|a [|b [|c l]]]; [exact H0 | apply H1 | apply H2 | apply H3, F].
Qed.

(** The cases of the encoder, with the sextets named. *)
Lemma Encode_1 (a : Z) :
  base64.EncodeToString [a]
  = String (base64.digit (Z.shiftr a 2))
      (String (base64.digit (sextet2 a 0))
         (String base64.pad (String base64.pad EmptyString))).
Proof. unfold sextet2. now rewrite Z.lor_0_r. Qed.

Lemma Encode_2 (a b : Z) :
  base64.EncodeToString [a; b]
  = String (base64.digit (Z.shiftr a 2))
      (String (base64.digit (sextet2 a (Z.shiftr b 4)))
         (String (base64.digit (sextet3 b 0))
            (String base64.pad EmptyString))).
Proof. unfold sextet3. now rewrite Z.lor_0_r. Qed.

Lemma Encode_3 (a b c : Z) (l : bytes) :
  base64.EncodeToString (a :: b :: c :: l)
  = String (base64.digit (Z.shiftr a 2))
      (String (base64.digit (sextet2 a (Z.shiftr b 4)))
         (String (base64.digit (sextet3 b (Z.shiftr c 6)))
            (String (base64.digit (Z.land c 63)) (base64.EncodeToString l)))).
Proof. reflexivity. Qed.

Lemma digit_inj (i j : Z) :
  0 <= i < 64 -> 0 <= j < 64 -> base64.digit i = base64.digit j -> i = j.
Proof. intros Hi Hj; apply (digit_facts i j Hi Hj). Qed.

Lemma digit_not_pad (i : Z) : 0 <= i < 64 -> base64.digit i <> base64.pad.
Proof. intros Hi; apply (digit_facts i i Hi Hi). Qed.

Lemma high4_range (b : Z) : is_byte b -> 0 <= Z.shiftr b 4 < 16.
Proof. intros H; pose proof (byte_parts b H); tauto. Qed.

Lemma high2_range (c : Z) : is_byte c -> 0 <= Z.shiftr c 6 < 4.
Proof. intros H; pose proof (byte_parts c H); tauto. Qed.

Ltac sextet_range :=
  first [ now apply sextet1_range
        | now apply sextet4_range
        | apply sextet2_range; [assumption | first [lia | now apply high4_range]]
        | apply sextet3_range; [assumption | first [lia | now apply high2_range]] ].

Ltac peel_chars :=
  repeat match goal with
         | H : String _ _ = String _ _ |- _ =>
             let E := fresh "E" in injection H as E H
         end.

Ltac pad_clash :=
  match goal with
  | E : base64.digit _ = base64.pad |- _ =>
      exfalso; eapply digit_not_pad; [|exact E]; sextet_range
  | E : base64.pad = base64.digit _ |- _ =>
      exfalso; eapply digit_not_pad; [|symmetry; exact E]; sextet_range
  end.

Ltac same_sextets :=
  repeat match goal with
         | E : base64.digit _ = base64.digit _ |- _ =>
             apply digit_inj in E; [|sextet_range|sextet_range]
         end.

(** base64 keeps different byte strings apart. *)
Lemma EncodeToString_inj (a b : bytes) :
  Forall is_byte a -> Forall is_byte b ->
  base64.EncodeToString a = base64.EncodeToString b -> a = b.
Proof.
  revert b.
  induction a as [|x|x y|x y z l IH] using list_ind3;
    intros [|x' [|y' [|z' l']]] Ha Hb;
    rewrite ?Encode_1, ?Encode_2, ?Encode_3; intros H;
    try reflexivity; try discriminate;
    repeat match goal with
           | F : Forall is_byte (_ :: _) |- _ => inversion F; subst; clear F
           end;
    peel_chars; try pad_clash; same_sextets.
  - (* one byte each *)
    destruct (sextet12_inj x x' 0 0) as [-> _]; auto; lia.
  - (* two bytes each *)
    destruct (sextet12_inj x x' (Z.shiftr y 4) (Z.shiftr y' 4)) as [-> Eh];
      auto using high4_range.
    destruct (sextet23_inj y y' 0 0) as [-> _]; auto; lia.
  - (* a full group each *)
    destruct (sextet12_inj x x' (Z.shiftr y 4) (Z.shiftr y' 4)) as [-> Eh];
      auto using high4_range.
    destruct (sextet23_inj y y' (Z.shiftr z 6) (Z.shiftr z' 6)) as [-> Et];
      auto using high2_range.
    rewrite (sextet34_inj z z') by auto.
    f_equal. f_equal. f_equal. now apply IH.
Qed.

Lemma EncodeToString_length (a b : bytes) :
  List.length a = List.length b ->
  String.length (base64.EncodeToString a) = String.length (base64.EncodeToString b).
Proof.
  revert b.
  induction a as [|x|x y|x y z l IH] using list_ind3;
    intros [|x' [|y' [|z' l']]] H; try discriminate; try reflexivity.
  rewrite !Encode_3. simpl. do 4 f_equal. apply IH. simpl in H. lia.
Qed.

(** *** The digest is 32 bytes *)

Lemma be_bytes_length (n : nat) (x : Z) : List.length (sha256.be_bytes n x) = n.
Proof.
  revert x; induction n as [|n IH]; intros x; simpl; [reflexivity|].
  rewrite length_app, IH. simpl. lia.
Qed.

Lemma be_bytes_bytes (n : nat) (x : Z) : Forall is_byte (sha256.be_bytes n x).
Proof.
  revert x; induction n as [|n IH]; intros x; simpl; [constructor|].
  apply Forall_app. split; [apply IH|].
  constructor; [|constructor]. unfold is_byte. apply Z.mod_pos_bound. lia.
Qed.

Lemma round_length (st : list Z) (kw : Z * Z) :
  List.length (sha256.round st kw) = List.length st.
Proof.
  destruct st as [|a [|b [|c [|d [|e [|f [|g [|h [|i l]]]]]]]]]; reflexivity.
Qed.

Lemma rounds_length (kws : list (Z * Z)) (st : list Z) :
  List.length (fold_left sha256.round kws st) = List.length st.
Proof.
  revert st; induction kws as [|kw kws IH]; intros st; simpl; [reflexivity|].
  now rewrite IH, round_length.
Qed.

Lemma compress_length (hs : list Z) (block : bytes) :
  List.length (sha256.compress hs block) = List.length hs.
Proof.
  unfold sha256.compress.
  rewrite !length_map, length_combine, rounds_length. apply Nat.min_id.
Qed.

Lemma blocks_length (n : nat) (hs : list Z) (msg : bytes) :
  List.length (sha256.blocks n hs msg) = List.length hs.
Proof.
  revert hs msg; induction n as [|n IH]; intros hs msg; simpl; [reflexivity|].
  now rewrite IH, compress_length.
Qed.

Lemma words_bytes_length (ws : list Z) :
  List.length (flat_map (sha256.be_bytes 4) ws) = (4 * List.length ws)%nat.
Proof.
  induction ws as [|w ws IH]; [reflexivity|].
  change (flat_map (sha256.be_bytes 4) (w :: ws))
    with (sha256.be_bytes 4 w ++ flat_map (sha256.be_bytes 4) ws)%list.
  rewrite length_app, be_bytes_length, IH. simpl List.length. lia.
Qed.

Lemma words_bytes_bytes (ws : list Z) : Forall is_byte (flat_map (sha256.be_bytes 4) ws).
Proof.
  induction ws as [|w ws IH]; [constructor|].
  change (flat_map (sha256.be_bytes 4) (w :: ws))
    with (sha256.be_bytes 4 w ++ flat_map (sha256.be_bytes 4) ws)%list.
  apply Forall_app. split; [apply be_bytes_bytes | exact IH].
Qed.

Lemma Sum256_length (data : bytes) : List.length (sha256.Sum256 data) = 32%nat.
Proof.
  unfold sha256.Sum256. cbv zeta. now rewrite words_bytes_length, blocks_length.
Qed.

Lemma Sum256_bytes (data : bytes) : Forall is_byte (sha256.Sum256 data).
Proof. unfold sha256.Sum256. apply words_bytes_bytes. Qed.

(** Two digests whose encodings agree up to padding are the same digest. *)
Lemma digest_encoding_inj (d d' : bytes) :
  strings.TrimRight (base64.EncodeToString (sha256.Sum256 d)) "="
  = strings.TrimRight (base64.EncodeToString (sha256.Sum256 d')) "=" ->
  sha256.Sum256 d = sha256.Sum256 d'.
Proof.
  intros H. apply EncodeToString_inj; try apply Sum256_bytes.
  apply TrimRight_pad_inj; [|exact H].
  apply EncodeToString_length. now rewrite !Sum256_length.
Qed.

Lemma sign_inj (k m k' m' : string) :
  strings.TrimRight (wmf.sign k m) "=" = strings.TrimRight (wmf.sign k' m') "=" ->
  hmac.SumSHA256 (bytes_of_string k) (bytes_of_string m)
  = hmac.SumSHA256 (bytes_of_string k') (bytes_of_string m').
Proof. unfold wmf.sign, hmac.SumSHA256. apply digest_encoding_inj. Qed.

Example digest_is_44_characters :
  String.length (wmf.sign "s3cr3t" "hawk.1.header") = 44%nat.
Proof. vm_compute. reflexivity. Qed.

End EncodingFacts.

(** * Request signing *)

Section HawkFacts.
Import wmf.

(** ** The escaped body

    The two replacements of [genHash] together map every byte of the body to
    a code word, and no code word is the start of another. *)

Lemma prefix_byte (o c : ascii) (t : string) :
  String.prefix (String o EmptyString) (String c t) = Ascii.eqb o c.
Proof.
  simpl. destruct (ascii_dec o c) as [->|Hn].
  - rewrite Ascii.eqb_refl. now destruct t.
  - symmetry; now apply Ascii.eqb_neq.
Qed.

Lemma Replace_byte_cons (o c : ascii) (t new : string) :
  strings.Replace (String c t) (String o EmptyString) new
  = if Ascii.eqb o c then new ++ strings.Replace t (String o EmptyString) new
    else String c (strings.Replace t (String o EmptyString) new).
Proof.
  unfold strings.Replace.
  change (strings.replace_from 0 (String c t) (String o EmptyString) new)
    with (if String.prefix (String o EmptyString) (String c t)
          then new ++ strings.replace_from 0 t (String o EmptyString) new
          else String c (strings.replace_from 0 t (String o EmptyString) new)).
  now rewrite prefix_byte.
Qed.

Lemma Replace_byte_append (o : ascii) (s t new : string) :
  strings.Replace (s ++ t) (String o EmptyString) new
  = strings.Replace s (String o EmptyString) new
      ++ strings.Replace t (String o EmptyString) new.
Proof.
  induction s as [|c s IH]; [reflexivity|].
  simpl append. rewrite !Replace_byte_cons, IH.
  destruct (Ascii.eqb o c); [now rewrite append_assoc | reflexivity].
Qed.

Lemma escape_cons (c : ascii) (t : string) :
  escape (String c t) = escape_byte c ++ escape t.
Proof.
  unfold escape, backslash, newline, escape_byte.
  rewrite Replace_byte_cons.
  destruct (Ascii.eqb (ascii_of_nat 92) c) eqn:E1.
  - rewrite Replace_byte_append. reflexivity.
  - rewrite Replace_byte_cons.
    destruct (Ascii.eqb (ascii_of_nat 10) c) eqn:E2; reflexivity.
Qed.

Lemma escape_inj (a b : string) : escape a = escape b -> a = b.
Proof.
  revert b; induction a as [|c a IH]; intros [|d b].
  - reflexivity.
  - rewrite escape_cons. unfold escape_byte.
    destruct (Ascii.eqb _ d); [|destruct (Ascii.eqb _ d)]; discriminate.
  - rewrite escape_cons. unfold escape_byte.
    destruct (Ascii.eqb _ c); [|destruct (Ascii.eqb _ c)]; discriminate.
  - rewrite !escape_cons. unfold escape_byte.
    destruct (Ascii.eqb (ascii_of_nat 92) c) eqn:C1;
      [|destruct (Ascii.eqb (ascii_of_nat 10) c) eqn:C2];
      (destruct (Ascii.eqb (ascii_of_nat 92) d) eqn:D1;
       [|destruct (Ascii.eqb (ascii_of_nat 10) d) eqn:D2]);
      simpl; intros H; inversion H; subst;
      repeat match goal with
        | E : Ascii.eqb _ _ = true |- _ => apply Ascii.eqb_eq in E; subst
        end;
      try discriminate; try (f_equal; auto; fail).
Qed.

(** ** GenerateSignature *)

(** A generated nonce and a generated timestamp are not empty, so a receiver
    that holds them does not generate its own. *)
Lemma GenNonce_nonempty (rnd : bytes) : String.eqb (GenNonce rnd 6) EmptyString = false.
Proof.
  unfold GenNonce. simpl Nat.eqb. cbv iota.
  destruct (map (fun x : Z => (x mod 256)%Z) rnd) as [|a [|b [|c l]]]; reflexivity.
Qed.

Lemma FormatInt_nonempty (i : Z) : String.eqb (strconv.FormatInt i) EmptyString = false.
Proof.
  unfold strconv.FormatInt.
  destruct (Z.to_int i) as [d|d]; simpl; [destruct d; reflexivity | reflexivity].
Qed.

(** The fields [GenerateSignature] leaves in the receiver. *)
Lemma GenerateSignature_fields env h req extra body secret :
  let h' := GenerateSignature env h req extra body secret in
  config h' = config h /\ header h' = header h /\ Id h' = Id h /\ Extra h' = Extra h
  /\ Time h' = (if String.eqb (Time h) EmptyString then strconv.FormatInt (unix env) else Time h)
  /\ Nonce h' = (if String.eqb (Nonce h) EmptyString then GenNonce (entropy env) 6 else Nonce h)
  /\ Method h' = (if String.eqb (Method h) EmptyString then strings.ToUpper (http.Method req) else Method h)
  /\ Path h' = (if String.eqb (Path h) EmptyString then getFullPath req else Path h)
  /\ Host h' = (if String.eqb (Host h) EmptyString then fst (getHostPort h req) else Host h)
  /\ Port h' = (if String.eqb (Host h) EmptyString then snd (getHostPort h req) else Port h)
  /\ Hash h' = (if String.eqb (Hash h) EmptyString then genHash h req body else Hash h)
  /\ Signature h' = sign secret (headerStr h' extra).
Proof.
  destruct h as [cfg hd id tm nc me pa ho po ex ha sg].
  unfold GenerateSignature; simpl.
  destruct (String.eqb pa EmptyString); simpl;
    destruct (String.eqb ho EmptyString); simpl;
    destruct (String.eqb nc EmptyString); simpl;
    destruct (String.eqb tm EmptyString); simpl;
    destruct (String.eqb me EmptyString); simpl;
    destruct (String.eqb ha EmptyString); simpl;
    repeat split; reflexivity.
Qed.

(** Receivers are equal when their fields are. *)
Lemma Hawk_ext (h h' : Hawk) :
  config h = config h' -> header h = header h' -> Id h = Id h' ->
  Time h = Time h' -> Nonce h = Nonce h' -> Method h = Method h' ->
  Path h = Path h' -> Host h = Host h' -> Port h = Port h' ->
  Extra h = Extra h' -> Hash h = Hash h' -> Signature h = Signature h' ->
  h = h'.
Proof.
  destruct h, h'; simpl; intros; subst; reflexivity.
Qed.

Lemma getHostPort_config (h h' : Hawk) (req : http.Request) :
  config h = config h' -> getHostPort h req = getHostPort h' req.
Proof. unfold getHostPort; now intros ->. Qed.

Lemma headerStr_ext (h h' : Hawk) (extra : string) :
  Time h = Time h' -> Nonce h = Nonce h' -> Method h = Method h' ->
  Path h = Path h' -> Host h = Host h' -> Port h = Port h' -> Hash h = Hash h' ->
  headerStr h extra = headerStr h' extra.
Proof. unfold headerStr; now intros -> -> -> -> -> -> ->. Qed.

Lemma GenerateSignature_Time_nonempty env h req extra body secret :
  String.eqb (Time (GenerateSignature env h req extra body secret)) EmptyString = false.
Proof.
  destruct (GenerateSignature_fields env h req extra body secret)
    as (_ & _ & _ & _ & -> & _).
  destruct (String.eqb (Time h) EmptyString) eqn:E; [apply FormatInt_nonempty | exact E].
Qed.

Lemma GenerateSignature_Nonce_nonempty env h req extra body secret :
  String.eqb (Nonce (GenerateSignature env h req extra body secret)) EmptyString = false.
Proof.
  destruct (GenerateSignature_fields env h req extra body secret)
    as (_ & _ & _ & _ & _ & -> & _).
  destruct (String.eqb (Nonce h) EmptyString) eqn:E; [apply GenNonce_nonempty | exact E].
Qed.

(** The fields of a recomputation by the verifier, over a request, body and
    secret that need not be the signer's. *)
Lemma recompute_fields env env' h0 req extra body secret req' body' secret' :
  let hs := GenerateSignature env h0 req extra body secret in
  let hv := GenerateSignature env' (verifier h0 hs) req' extra body' secret' in
  config hv = config h0 /\ header hv = header h0 /\ Id hv = Id h0 /\ Extra hv = Extra h0
  /\ Time hv = Time hs
  /\ Nonce hv = Nonce hs
  /\ Method hv = (if String.eqb (Method h0) EmptyString then strings.ToUpper (http.Method req') else Method h0)
  /\ Path hv = (if String.eqb (Path h0) EmptyString then getFullPath req' else Path h0)
  /\ Host hv = (if String.eqb (Host h0) EmptyString then fst (getHostPort h0 req') else Host h0)
  /\ Port hv = (if String.eqb (Host h0) EmptyString then snd (getHostPort h0 req') else Port h0)
  /\ Hash hv = (if String.eqb (Hash h0) EmptyString then genHash h0 req' body' else Hash h0)
  /\ Signature hv = sign secret' (headerStr hv extra).
Proof.
  intros hs hv.
  pose proof (GenerateSignature_Time_nonempty env h0 req extra body secret) as Ht.
  pose proof (GenerateSignature_Nonce_nonempty env h0 req extra body secret) as Hn.
  fold hs in Ht, Hn.
  pose proof (GenerateSignature_fields env' (verifier h0 hs) req' extra body' secret') as F.
  cbv zeta in F. fold hv in F.
  clearbody hs. clearbody hv.
  unfold verifier in F; simpl in F.
  rewrite Ht, Hn in F.
  exact F.
Qed.

(** ** Compare *)

Lemma Compare_refl (h : Hawk) : Compare h (Signature h) = true.
Proof. unfold Compare; apply String.eqb_refl. Qed.

Lemma Compare_changed_mac (h : Hawk) (mac' : string) :
  one_byte_changed (Signature h) mac' -> Compare h mac' = false.
Proof.
  intros Hc. unfold Compare. apply String.eqb_neq. intros Heq.
  apply (one_byte_changed_neq _ _ Hc). symmetry.
  apply TrimRight_pad_inj; [symmetry; now apply one_byte_changed_length | exact Heq].
Qed.

(** The comparison fails, or both MACs are the same up to padding. *)
Lemma Compare_false_or_equal (h : Hawk) (sig : string) :
  Compare h sig = false
  \/ strings.TrimRight sig "=" = strings.TrimRight (Signature h) "=".
Proof.
  unfold Compare.
  destruct (String.eqb_spec (strings.TrimRight sig "=") (strings.TrimRight (Signature h) "="));
    [now right | now left].
Qed.

(** ** The hashed and the signed strings

    Each field enters its string between fixed neighbours, so a change of
    one field changes the string. *)

Lemma payloadStr_escape (req : http.Request) (body : string) :
  payloadStr req body
  = "hawk.1.payload" ++ newline
      ++ nth 0 (strings.Split
                  (if String.eqb (http.Get (http.Hdr req) "Content-Type") EmptyString
                   then "text/plain" else http.Get (http.Hdr req) "Content-Type") ";")
           EmptyString
      ++ newline ++ escape body ++ newline.
Proof. reflexivity. Qed.

Lemma payloadStr_inj (req : http.Request) (body body' : string) :
  payloadStr req body = payloadStr req body' -> body = body'.
Proof.
  rewrite !payloadStr_escape. intros H.
  do 4 apply append_inv_head in H.
  apply append_inv_tail in H. now apply escape_inj.
Qed.

Lemma getFullPath_inj (req : http.Request) (p' : string) :
  getFullPath (with_url_path p' req) = getFullPath req -> p' = url.Path (http.URL req).
Proof.
  unfold getFullPath, with_url_path; simpl.
  destruct (0 <? String.length (url.RawQuery (http.URL req)))%nat;
    destruct (0 <? String.length (url.Fragment (http.URL req)))%nat;
    rewrite ?append_assoc; intros H;
    first [ exact H | now apply append_inv_tail in H ].
Qed.

(** Receivers that differ in no signed field but the path sign different strings. *)
Lemma headerStr_Path_inj (h h' : Hawk) (extra : string) :
  Time h = Time h' -> Nonce h = Nonce h' -> Method h = Method h' ->
  Host h = Host h' -> Port h = Port h' -> Hash h = Hash h' ->
  headerStr h extra = headerStr h' extra -> Path h = Path h'.
Proof.
  unfold headerStr. intros -> -> -> -> -> -> H.
  do 8 apply append_inv_head in H.
  now apply append_inv_tail in H.
Qed.

Lemma headerStr_Hash_inj (h h' : Hawk) (extra : string) :
  Time h = Time h' -> Nonce h = Nonce h' -> Method h = Method h' ->
  Path h = Path h' -> Host h = Host h' -> Port h = Port h' ->
  headerStr h extra = headerStr h' extra -> Hash h = Hash h'.
Proof.
  unfold headerStr. intros -> -> -> -> -> -> H.
  do 14 apply append_inv_head in H.
  now apply append_inv_tail in H.
Qed.

(** ** Sign, then compare *)

(** The verifier's recomputation over the signer's inputs ends in the
    signer's receiver. *)
Lemma recompute_same env env' h0 req extra body secret :
  GenerateSignature env' (verifier h0 (GenerateSignature env h0 req extra body secret))
    req extra body secret
  = GenerateSignature env h0 req extra body secret.
Proof.
  pose proof (recompute_fields env env' h0 req extra body secret req body secret) as V.
  pose proof (GenerateSignature_fields env h0 req extra body secret) as F.
  cbv zeta in V, F.
  set (hs := GenerateSignature env h0 req extra body secret) in *.
  set (hv := GenerateSignature env' (verifier h0 hs) req extra body secret) in *.
  clearbody hv; clearbody hs.
  destruct V as (V1 & V2 & V3 & V4 & V5 & V6 & V7 & V8 & V9 & V10 & V11 & V12).
  destruct F as (F1 & F2 & F3 & F4 & F5 & F6 & F7 & F8 & F9 & F10 & F11 & F12).
  assert (E : headerStr hv extra = headerStr hs extra)
    by (apply headerStr_ext; congruence).
  apply Hawk_ext; congruence.
Qed.

(** C1 (amended).  A signature made by [GenerateSignature] compares equal,
    by [Compare], to a recomputation over the same request, extra data, body
    and secret by a receiver that holds the signer's timestamp and nonce; a
    MAC with one byte changed does not compare equal.  With one byte changed
    in the body (the receiver's Hash being empty, so that the body is hashed),
    in the URL path (the receiver's Path being empty, so that the path is
    read from the request) or in the secret, the comparison fails, or else
    SHA-256 or HMAC-SHA256 takes one value on the two different inputs that
    the theorem names.  [Compare] is equality after the trailing '=' are
    stripped from both sides. *)
Theorem sign_then_compare env env' h0 req extra body secret :
  let hs := GenerateSignature env h0 req extra body secret in
  let redo := fun req' body' secret' =>
    GenerateSignature env' (verifier h0 hs) req' extra body' secret' in
  Compare (redo req body secret) (Signature hs) = true
  /\ (forall mac', one_byte_changed (Signature hs) mac' ->
      Compare (redo req body secret) mac' = false)
  /\ (Hash h0 = EmptyString ->
      forall body', one_byte_changed body body' ->
        Compare (redo req body' secret) (Signature hs) = false
        \/ sha256_collision (payloadStr req body) (payloadStr req body')
        \/ hmac_collision secret (headerStr hs extra)
             secret (headerStr (redo req body' secret) extra))
  /\ (Path h0 = EmptyString ->
      forall p', one_byte_changed (url.Path (http.URL req)) p' ->
        Compare (redo (with_url_path p' req) body secret) (Signature hs) = false
        \/ hmac_collision secret (headerStr hs extra)
             secret (headerStr (redo (with_url_path p' req) body secret) extra))
  /\ (forall secret', one_byte_changed secret secret' ->
        Compare (redo req body secret') (Signature hs) = false
        \/ hmac_collision secret (headerStr hs extra) secret' (headerStr hs extra))
  /\ (forall h sig,
        Compare h sig
        = String.eqb (strings.TrimRight sig "=") (strings.TrimRight (Signature h) "=")).
Proof.
  intros hs redo.
  assert (Hsame : redo req body secret = hs) by apply recompute_same.
  pose proof (GenerateSignature_fields env h0 req extra body secret) as F.
  cbv zeta in F. fold hs in F.
  destruct F as (F1 & F2 & F3 & F4 & F5 & F6 & F7 & F8 & F9 & F10 & F11 & F12).
  split; [rewrite Hsame; apply Compare_refl|].
  split; [intros mac' Hc; rewrite Hsame; now apply Compare_changed_mac|].
  split; [|split; [|split; [|reflexivity]]].
  - (* body *)
    intros Hh body' Hc.
    pose proof (recompute_fields env env' h0 req extra body secret req body' secret) as V.
    cbv zeta in V. fold hs in V. fold (redo req body' secret) in V.
    set (hv := redo req body' secret) in *. clearbody hv.
    destruct V as (V1 & V2 & V3 & V4 & V5 & V6 & V7 & V8 & V9 & V10 & V11 & V12).
    destruct (Compare_false_or_equal hv (Signature hs)) as [Hf|He]; [now left|right].
    rewrite F12, V12 in He.
    destruct (string_dec (headerStr hs extra) (headerStr hv extra)) as [Hm|Hm].
    + left. split.
      * intros Hp. apply payloadStr_inj in Hp.
        now apply (one_byte_changed_neq _ _ Hc).
      * apply headerStr_Hash_inj in Hm; try congruence.
        rewrite F11, V11, Hh in Hm. simpl in Hm.
        apply EncodeToString_inj; try apply Sum256_bytes. exact Hm.
    + right. split; [now right | now apply sign_inj].
  - (* path *)
    intros Hp p' Hc.
    pose proof (recompute_fields env env' h0 req extra body secret
                  (with_url_path p' req) body secret) as V.
    cbv zeta in V. fold hs in V. fold (redo (with_url_path p' req) body secret) in V.
    set (hv := redo (with_url_path p' req) body secret) in *. clearbody hv.
    change (getHostPort h0 (with_url_path p' req)) with (getHostPort h0 req) in V.
    change (genHash h0 (with_url_path p' req) body) with (genHash h0 req body) in V.
    change (http.Method (with_url_path p' req)) with (http.Method req) in V.
    destruct V as (V1 & V2 & V3 & V4 & V5 & V6 & V7 & V8 & V9 & V10 & V11 & V12).
    destruct (Compare_false_or_equal hv (Signature hs)) as [Hf|He]; [now left|right].
    rewrite F12, V12 in He.
    split; [right | now apply sign_inj].
    intros Hm. apply headerStr_Path_inj in Hm; try congruence.
    rewrite F8, V8, Hp in Hm; simpl in Hm.
    symmetry in Hm. apply getFullPath_inj in Hm.
    apply (one_byte_changed_neq _ _ Hc). now symmetry.
  - (* secret *)
    intros secret' Hc.
    pose proof (recompute_fields env env' h0 req extra body secret req body secret') as V.
    pose proof (recompute_fields env env' h0 req extra body secret req body secret) as W.
    cbv zeta in V, W. fold hs in V, W.
    fold (redo req body secret') in V. fold (redo req body secret) in W.
    rewrite Hsame in W.
    set (hv := redo req body secret') in *. clearbody hv.
    destruct V as (V1 & V2 & V3 & V4 & V5 & V6 & V7 & V8 & V9 & V10 & V11 & V12).
    destruct W as (W1 & W2 & W3 & W4 & W5 & W6 & W7 & W8 & W9 & W10 & W11 & W12).
    destruct (Compare_false_or_equal hv (Signature hs)) as [Hf|He]; [now left|right].
    rewrite F12, V12 in He.
    assert (E : headerStr hv extra = headerStr hs extra)
      by (apply headerStr_ext; congruence).
    rewrite E in He.
    split; [left; now apply one_byte_changed_neq | now apply sign_inj].
Qed.

(** The sample signer. *)
Example signed_fields :
  Time signed = "1414972800" /\ Nonce signed = "AQIDBAUG"
  /\ Path signed = "/cmd" /\ Host signed = "example.com" /\ Port signed = "443"
  /\ Method signed = "POST".
Proof. vm_compute. repeat split. Qed.

(** C1, counterexample.  The signer signs the body "lock".  The verifier
    reads the signer's header with [ParseAuthHeader], which puts the hash of
    the header into the receiver, and recomputes over the body "lick", one
    byte changed: [GenerateSignature] keeps the hash it finds, and the
    comparison with the signer's MAC succeeds. *)
Lemma parsed_hash_hides_changed_body :
  ParseAuthHeader blank claimed = Ret None parsed
  /\ Hash parsed = Hash signed
  /\ one_byte_changed "lock" "lick"
  /\ Compare (GenerateSignature noon parsed claimed EmptyString "lick" "s3cr3t")
       (Signature signed) = true.
Proof.
  split; [vm_compute; reflexivity|]. split; [vm_compute; reflexivity|]. split.
  - exists "l", "o"%char, "i"%char, "ck". repeat split. discriminate.
  - vm_compute. reflexivity.
Qed.

(** With the hash left for the verifier to compute, the same change is caught. *)
Example changed_body_fails :
  Compare (GenerateSignature noon (verifier blank signed)
             (post_cmd [("Content-Type", "application/json")])
             EmptyString "lick" "s3cr3t")
    (Signature signed) = false.
Proof. vm_compute. reflexivity. Qed.

Example changed_path_fails :
  Compare (GenerateSignature noon (verifier blank signed)
             (with_url_path "/cmc" (post_cmd [("Content-Type", "application/json")]))
             EmptyString "lock" "s3cr3t")
    (Signature signed) = false.
Proof. vm_compute. reflexivity. Qed.

Example changed_secret_fails :
  Compare (GenerateSignature noon (verifier blank signed)
             (post_cmd [("Content-Type", "application/json")])
             EmptyString "lock" "s3cr3T")
    (Signature signed) = false.
Proof. vm_compute. reflexivity. Qed.

Example unpadded_mac_compares :
  Compare signed "G8/JRbhoI/xIvxBUOU1nAV1yr7INmySxH8/1HWuSX7I" = true.
Proof. vm_compute. reflexivity. Qed.

(** ** AsHeader *)

(** The rendered header is two characters short of the documented one, for
    every receiver and input: the commas after the nonce and the hash, with
    nothing in their place. *)
Lemma AsHeader_length env self req id body extra secret :
  let r := AsHeader env self req id body extra secret in
  (String.length (fst r) + 2)%nat
  = String.length
      (documented_header id (Time (snd r)) (Nonce (snd r)) (Extra (snd r))
         (Hash (snd r)) (Signature (snd r))).
Proof.
  unfold AsHeader, documented_header. cbv zeta.
  set (h := if String.eqb (Signature self) EmptyString
            then GenerateSignature env self req extra body secret else self).
  clearbody h. cbn [fst snd].
  rewrite !append_length. simpl String.length. lia.
Qed.

(** C4 (the code departs from the specification).  [AsHeader] puts a blank and no
    comma between the nonce and ext pairs and between the hash and mac pairs:
    on the sample receiver it renders the text below, which is not the
    documented header of the same six values. *)
Theorem AsHeader_omits_two_commas :
  fst (AsHeader noon signed (post_cmd []) "dev-1" "lock" EmptyString "s3cr3t")
  = "Hawk id=" ++ dquote ++ "dev-1" ++ dquote
      ++ ", ts=" ++ dquote ++ "1414972800" ++ dquote
      ++ ", nonce=" ++ dquote ++ "AQIDBAUG" ++ dquote
      ++ " ext=" ++ dquote ++ dquote
      ++ ", hash=" ++ dquote ++ "i5ujrQjNX2/Z9Nut92ZjqOHsYEZKnNlHZNpwuCoV4KY=" ++ dquote
      ++ " mac=" ++ dquote ++ "G8/JRbhoI/xIvxBUOU1nAV1yr7INmySxH8/1HWuSX7I=" ++ dquote
  /\ String.eqb
       (fst (AsHeader noon signed (post_cmd []) "dev-1" "lock" EmptyString "s3cr3t"))
       (documented_header "dev-1" (Time signed) (Nonce signed) (Extra signed)
          (Hash signed) (Signature signed))
     = false.
Proof. vm_compute. split; reflexivity. Qed.

(** [ParseAuthHeader] splits on a comma and a blank: of the header [AsHeader]
    renders it reads neither the extra data nor the MAC, and takes the text up
    to the next comma for the nonce and the hash. *)
Example AsHeader_not_read_back :
  match ParseAuthHeader blank
          (post_cmd [("Authorization",
                      fst (AsHeader noon signed (post_cmd []) "dev-1" "lock"
                             EmptyString "s3cr3t"))]) with
  | Ret None h =>
      Signature h = EmptyString
      /\ Nonce h = "AQIDBAUG" ++ dquote ++ " ext="
      /\ String.eqb (Hash h) (Hash signed) = false
  | _ => False
  end.
Proof. vm_compute. repeat split. Qed.

(** ** genHash *)

(** The content type enters the payload hash up to its first ';' only. *)
Lemma genHash_content_type (self : Hawk) (req : http.Request)
    (ct params body : string) :
  ct <> EmptyString ->
  strings.Contains ct ";" = false ->
  genHash self (with_header "Content-Type" (ct ++ ";" ++ params) req) body
  = genHash self (with_header "Content-Type" ct req) body.
Proof.
  intros Hne Hc.
  assert (E1 : String.eqb (ct ++ ";" ++ params) EmptyString = false)
    by (destruct ct; [contradiction | reflexivity]).
  assert (E2 : String.eqb ct EmptyString = false)
    by (destruct ct; [contradiction | reflexivity]).
  unfold genHash, payloadStr, with_header.
  cbn [http.Hdr http.Get]. rewrite String.eqb_refl, E1, E2.
  change (";" ++ params) with (String ";" params).
  now rewrite (Split_head _ _ _ Hc), (Split_whole _ _ Hc).
Qed.

(** C9.  For every receiver, request and body, the content types
    "application/json;charset=UTF-8" and "application/json" give the same
    payload hash: the base64 text of the SHA-256 digest of "hawk.1.payload",
    a newline, "application/json", a newline, the escaped body, a newline. *)
Theorem genHash_ignores_charset (self : Hawk) (req : http.Request) (body : string) :
  genHash self (with_header "Content-Type" "application/json;charset=UTF-8" req) body
  = genHash self (with_header "Content-Type" "application/json" req) body
  /\ genHash self (with_header "Content-Type" "application/json;charset=UTF-8" req) body
     = base64.EncodeToString
         (sha256.Sum256
            (bytes_of_string
               ("hawk.1.payload" ++ newline ++ "application/json" ++ newline
                  ++ strings.Replace
                       (strings.Replace body backslash (backslash ++ backslash))
                       newline (backslash ++ "n")
                  ++ newline))).
Proof. split; reflexivity. Qed.

Example genHash_charset_sample :
  genHash blank (post_cmd [("Content-Type", "application/json;charset=UTF-8")]) "lock"
  = "i5ujrQjNX2/Z9Nut92ZjqOHsYEZKnNlHZNpwuCoV4KY=".
Proof. vm_compute. reflexivity. Qed.

(** ** ParseAuthHeader *)

Lemma ParseAuthHeader_no_header (self : Hawk) (req : http.Request) :
  http.Get (http.Hdr req) "Authorization" = EmptyString ->
  ParseAuthHeader self req = Ret (Some ErrNoAuth) self.
Proof. unfold ParseAuthHeader; now intros ->. Qed.

(** A header of one to three bytes: [auth[:4]] is out of range. *)
Lemma ParseAuthHeader_short (self : Hawk) (req : http.Request) :
  http.Get (http.Hdr req) "Authorization" <> EmptyString ->
  (String.length (http.Get (http.Hdr req) "Authorization") < 4)%nat ->
  ParseAuthHeader self req = Panic self.
Proof.
  unfold ParseAuthHeader, strings.slice_to. intros Hne Hlen.
  destruct (String.eqb_spec (http.Get (http.Hdr req) "Authorization") EmptyString)
    as [E|_]; [contradiction|].
  destruct (Nat.leb_spec 4 (String.length (http.Get (http.Hdr req) "Authorization")));
    [lia | reflexivity].
Qed.

Lemma take_all (s : string) : strings.take (String.length s) s = s.
Proof. induction s as [|c s IH]; simpl; [reflexivity | now rewrite IH]. Qed.

(** A header of four bytes: [auth[5:]] is out of range when the scheme is
    read as Hawk. *)
Lemma ParseAuthHeader_four (self : Hawk) (req : http.Request) :
  String.length (http.Get (http.Hdr req) "Authorization") = 4%nat ->
  ParseAuthHeader self req
  = if String.eqb (strings.ToLower (http.Get (http.Hdr req) "Authorization")) "hawk"
    then Panic self else Ret (Some ErrNotHawkAuth) self.
Proof.
  unfold ParseAuthHeader, strings.slice_to, strings.slice_from. intros Hlen.
  set (auth := http.Get (http.Hdr req) "Authorization") in *.
  replace (String.eqb auth EmptyString) with false
    by (destruct auth; [discriminate | reflexivity]).
  rewrite Hlen. cbn [Nat.leb]. rewrite <- Hlen, take_all.
  now destruct (String.eqb (strings.ToLower auth) "hawk").
Qed.

(** A header of five bytes or more never panics. *)
Lemma ParseAuthHeader_long (self : Hawk) (req : http.Request) :
  (5 <= String.length (http.Get (http.Hdr req) "Authorization"))%nat ->
  exists err self', ParseAuthHeader self req = Ret err self'.
Proof.
  unfold ParseAuthHeader, strings.slice_to, strings.slice_from. intros Hlen.
  destruct (String.eqb (http.Get (http.Hdr req) "Authorization") EmptyString);
    [eauto|].
  destruct (Nat.leb_spec 4 (String.length (http.Get (http.Hdr req) "Authorization")));
    [|lia].
  destruct (negb _); [eauto|].
  destruct (Nat.leb_spec 5 (String.length (http.Get (http.Hdr req) "Authorization")));
    [eauto | lia].
Qed.

(** C10 (the code departs from the specification).  [ParseAuthHeader] panics on the
    three-byte header "abc", where [auth[:4]] is out of range, and on the
    header "Hawk", where [auth[5:]] is; an absent header gives ErrNoAuth and
    a header of another scheme gives ErrNotHawkAuth. *)
Theorem ParseAuthHeader_panics_on_short_header :
  ParseAuthHeader blank (post_cmd [("Authorization", "abc")]) = Panic blank
  /\ ParseAuthHeader blank (post_cmd [("Authorization", "Hawk")]) = Panic blank
  /\ ParseAuthHeader blank (post_cmd []) = Ret (Some ErrNoAuth) blank
  /\ ParseAuthHeader blank (post_cmd [("Authorization", "Basic Zm9v")])
     = Ret (Some ErrNotHawkAuth) blank.
Proof. vm_compute. repeat split. Qed.

End HawkFacts.

(** * Request signing: further properties *)

Section HawkFurther.
Import wmf.

Lemma digit_in_alphabet (i : Z) :
  (0 <= i < 64)%Z -> strings.in_cutset (base64.digit i) base64.alphabet = true.
Proof.
  intros Hi.
  apply (forallb_below 64
           (fun i => strings.in_cutset (base64.digit i) base64.alphabet));
    [vm_compute; reflexivity | exact Hi].
Qed.

Lemma Forall_firstn_keeps {A : Type} (P : A -> Prop) (n : nat) (l : list A) :
  Forall P l -> Forall P (firstn n l).
Proof.
  revert l; induction n as [|n IH]; intros [|x l] H; simpl; auto.
  inversion H; subst. constructor; auto.
Qed.

Lemma nonce_buffer (rnd : bytes) :
  exists a b c d e f,
    firstn 6 (map (fun x => (x mod 256)%Z) rnd ++ repeat 0%Z 6)%list = [a; b; c; d; e; f]
    /\ Forall is_byte [a; b; c; d; e; f].
Proof.
  set (L := firstn 6 (map (fun x => (x mod 256)%Z) rnd ++ repeat 0%Z 6)%list).
  assert (Hlen : List.length L = 6%nat).
  { unfold L. rewrite length_firstn, length_app, repeat_length. lia. }
  assert (Hb : Forall is_byte L).
  { unfold L. apply Forall_firstn_keeps, Forall_app. split.
    - apply Forall_forall. intros x Hx. apply in_map_iff in Hx as (y & <- & _).
      unfold is_byte. apply Z.mod_pos_bound. lia.
    - repeat constructor; unfold is_byte; lia. }
  destruct L as [|a [|b [|c [|d [|e [|f [|g L]]]]]]]; try discriminate.
  now exists a, b, c, d, e, f.
Qed.

(** X1.  [GenNonce] with length 0 is [GenNonce] with length 6, and the nonce
    [GenerateSignature] generates has eight characters, all of them digits of
    the base64 alphabet: it holds no padding, no quote and no comma, whatever
    bytes the random source delivers. *)
Theorem GenNonce_default_shape (rnd : bytes) :
  GenNonce rnd 0 = GenNonce rnd 6
  /\ String.length (GenNonce rnd 6) = 8%nat
  /\ in_alphabet (GenNonce rnd 6) = true.
Proof.
  split; [reflexivity|].
  unfold GenNonce. simpl Nat.eqb. cbv iota.
  destruct (nonce_buffer rnd) as (a & b & c & d & e & f & -> & Hb).
  rewrite !Encode_3. split; [reflexivity|].
  inversion Hb as [|? ? Ha Hb1]; subst. inversion Hb1 as [|? ? Hb' Hb2]; subst.
  inversion Hb2 as [|? ? Hc Hb3]; subst. inversion Hb3 as [|? ? Hd Hb4]; subst.
  inversion Hb4 as [|? ? He Hb5]; subst. inversion Hb5 as [|? ? Hf _]; subst.
  unfold in_alphabet. simpl list_ascii_of_string. cbn [forallb base64.EncodeToString list_ascii_of_string].
  rewrite !digit_in_alphabet; try reflexivity;
    auto using sextet1_range, sextet2_range, sextet3_range, sextet4_range,
      high4_range, high2_range.
Qed.


(** ** getFullPath and getHostPort *)

Lemma GenerateSignature_request env h req req' extra body body' secret :
  getFullPath req = getFullPath req' ->
  getHostPort h req = getHostPort h req' ->
  strings.ToUpper (http.Method req) = strings.ToUpper (http.Method req') ->
  genHash h req body = genHash h req' body' ->
  GenerateSignature env h req extra body secret
  = GenerateSignature env h req' extra body' secret.
Proof.
  intros E1 E2 E3 E4.
  pose proof (GenerateSignature_fields env h req extra body secret) as F.
  pose proof (GenerateSignature_fields env h req' extra body' secret) as F'.
  cbv zeta in F, F'.
  destruct F as (F1 & F2 & F3 & F4 & F5 & F6 & F7 & F8 & F9 & F10 & F11 & F12).
  destruct F' as (G1 & G2 & G3 & G4 & G5 & G6 & G7 & G8 & G9 & G10 & G11 & G12).
  assert (T : Time (GenerateSignature env h req extra body secret)
              = Time (GenerateSignature env h req' extra body' secret)) by congruence.
  assert (N : Nonce (GenerateSignature env h req extra body secret)
              = Nonce (GenerateSignature env h req' extra body' secret)) by congruence.
  assert (M : Method (GenerateSignature env h req extra body secret)
              = Method (GenerateSignature env h req' extra body' secret))
    by (rewrite F7, G7, E3; reflexivity).
  assert (P : Path (GenerateSignature env h req extra body secret)
              = Path (GenerateSignature env h req' extra body' secret))
    by (rewrite F8, G8, E1; reflexivity).
  assert (Ho : Host (GenerateSignature env h req extra body secret)
              = Host (GenerateSignature env h req' extra body' secret))
    by (rewrite F9, G9, E2; reflexivity).
  assert (Po : Port (GenerateSignature env h req extra body secret)
              = Port (GenerateSignature env h req' extra body' secret))
    by (rewrite F10, G10, E2; reflexivity).
  assert (Ha : Hash (GenerateSignature env h req extra body secret)
              = Hash (GenerateSignature env h req' extra body' secret))
    by (rewrite F11, G11, E4; reflexivity).
  apply Hawk_ext; try congruence.
  rewrite F12, G12. f_equal. now apply headerStr_ext.
Qed.

(** X2.  [getFullPath] joins path and query with a question mark and does not
    escape the path: a request with path p and a non-empty query q has the
    same full path as a request whose path is p, a question mark and q, with
    no query, and [GenerateSignature] signs the two alike. *)
Theorem question_mark_in_path_signs_alike env (h : Hawk) (req : http.Request)
    (p q extra body secret : string) :
  q <> EmptyString ->
  let u := http.URL req in
  let req1 := with_url {| url.Scheme := url.Scheme u; url.Path := p;
                          url.RawQuery := q; url.Fragment := url.Fragment u |} req in
  let req2 := with_url {| url.Scheme := url.Scheme u; url.Path := p ++ "?" ++ q;
                          url.RawQuery := EmptyString;
                          url.Fragment := url.Fragment u |} req in
  getFullPath req1 = getFullPath req2
  /\ GenerateSignature env h req1 extra body secret
     = GenerateSignature env h req2 extra body secret.
Proof.
  intros Hq u req1 req2.
  assert (E : getFullPath req1 = getFullPath req2).
  { unfold getFullPath, req1, req2, with_url. cbn [http.URL url.Path url.RawQuery url.Fragment].
    destruct q as [|c q]; [contradiction|]. reflexivity. }
  split; [exact E|].
  apply GenerateSignature_request; [exact E | reflexivity | reflexivity | reflexivity].
Qed.

(** X2, an instance: the query a=1 of the path /cmd. *)
Lemma question_mark_in_path_signs_alike_witness :
  GenerateSignature noon blank
    (with_url {| url.Scheme := "https"; url.Path := "/cmd"; url.RawQuery := "a=1";
                 url.Fragment := EmptyString |} (post_cmd [])) EmptyString "lock" "s3cr3t"
  = GenerateSignature noon blank
      (with_url {| url.Scheme := "https"; url.Path := "/cmd?a=1";
                   url.RawQuery := EmptyString; url.Fragment := EmptyString |}
         (post_cmd [])) EmptyString "lock" "s3cr3t".
Proof.
  apply (question_mark_in_path_signs_alike noon blank (post_cmd []) "/cmd" "a=1").
  discriminate.
Defined.

Lemma getHostPort_Split (self : Hawk) (req : http.Request) :
  getHostPort self req
  = let elements := strings.Split (http.Host req) ":" in
    (nth 0 elements EmptyString,
     let port := if (List.length elements =? 2)%nat then nth 1 elements EmptyString
                 else EmptyString in
     if String.eqb port EmptyString || util.MzGetFlag (config self) "override_port"
     then scheme_port req else port).
Proof. reflexivity. Qed.

Lemma colon_nonempty : ":" <> EmptyString.
Proof. discriminate. Qed.

(** X3.  [getHostPort] on a Host without colon gives the Host and the port of
    the scheme (443 for https, 80 otherwise); on a Host of the form
    host:port, neither part holding a colon, it gives host and port, except
    that the port of the scheme replaces an empty port and, when the flag
    override_port is set, every port. *)
Theorem getHostPort_host_and_port (self : Hawk) (req : http.Request)
    (host port : string) :
  strings.Contains host ":" = false ->
  strings.Contains port ":" = false ->
  getHostPort self (with_host host req) = (host, scheme_port req)
  /\ getHostPort self (with_host (host ++ ":" ++ port) req)
     = (host,
        if String.eqb port EmptyString || util.MzGetFlag (config self) "override_port"
        then scheme_port req else port).
Proof.
  intros Hh Hp. split; rewrite getHostPort_Split; cbn [http.Host with_host].
  { rewrite (Split_none ":" host (cut_absent ":" host Hh)). reflexivity. }
  rewrite (Split_cut ":" (host ++ ":" ++ port) host port colon_nonempty
             (cut_append host port ":" Hh)).
  rewrite (Split_none ":" port (cut_absent ":" port Hp)).
  reflexivity.
Qed.

(** X3, an instance: example.com with and without the port 8443. *)
Lemma getHostPort_host_and_port_witness :
  getHostPort blank (with_host "example.com" (post_cmd [])) = ("example.com", "443")
  /\ getHostPort blank (with_host "example.com:8443" (post_cmd []))
     = ("example.com", "8443").
Proof.
  apply (getHostPort_host_and_port blank (post_cmd []) "example.com" "8443");
    reflexivity.
Defined.

Lemma Split_nonempty (s sep : string) : strings.Split s sep <> [].
Proof.
  unfold strings.Split. destruct (String.length s); simpl; [discriminate|].
  destruct (strings.cut sep s) as [[a b]|]; discriminate.
Qed.

(** X4.  A Host with two colons or more, such as an IPv6 literal with a port,
    does not split into two elements: [getHostPort] returns the text before
    the first colon as the host and the port of the scheme, and the port of
    the Host is not read. *)
Theorem getHostPort_many_colons (self : Hawk) (req : http.Request) (a b c : string) :
  strings.Contains a ":" = false ->
  strings.Contains b ":" = false ->
  getHostPort self (with_host (a ++ ":" ++ b ++ ":" ++ c) req) = (a, scheme_port req).
Proof.
  intros Ha Hb. rewrite getHostPort_Split; cbn [http.Host with_host].
  - rewrite (Split_cut ":" (a ++ ":" ++ b ++ ":" ++ c) a (b ++ ":" ++ c) colon_nonempty
               (cut_append a (b ++ ":" ++ c) ":" Ha)).
    rewrite (Split_cut ":" (b ++ ":" ++ c) b c colon_nonempty (cut_append b c ":" Hb)).
    destruct (strings.Split c ":") as [|x l] eqn:E;
      [now apply Split_nonempty in E|].
    reflexivity.
Qed.

(** X4, an instance: the loopback address of IPv6 with the port 8443. *)
Lemma getHostPort_many_colons_witness :
  getHostPort blank (with_host "[::1]:8443" (post_cmd [])) = ("[", "443").
Proof.
  apply (getHostPort_many_colons blank (post_cmd []) "[" "" "1]:8443"); reflexivity.
Defined.


(** ** A receiver that is used again *)

Lemma Encode_nonempty (a : Z) (l : bytes) :
  String.eqb (base64.EncodeToString (a :: l)) EmptyString = false.
Proof. destruct l as [|b [|c l]]; reflexivity. Qed.

Lemma genHash_nonempty (h : Hawk) (req : http.Request) (body : string) :
  String.eqb (genHash h req body) EmptyString = false.
Proof.
  unfold genHash.
  pose proof (Sum256_length (bytes_of_string (payloadStr req body))) as L.
  destruct (sha256.Sum256 (bytes_of_string (payloadStr req body))) as [|a l];
    [discriminate|].
  apply Encode_nonempty.
Qed.

(** A field that was filled from a value stays when it is filled from the
    same value again. *)
Lemma refill (old v : string) :
  let new := if String.eqb old EmptyString then v else old in
  (if String.eqb new EmptyString then v else new) = new.
Proof.
  cbv zeta. destruct (String.eqb old EmptyString) eqn:E.
  - now destruct (String.eqb v EmptyString).
  - now rewrite E.
Qed.

(** X5.  A receiver that has signed a request keeps what it signed:
    [GenerateSignature] called again on it for the same request and secret,
    with any other body and at any other time, changes nothing.  The hash of
    the first body, the first timestamp and the first nonce stay, and so does
    the signature. *)
Theorem GenerateSignature_signs_first_body env env' (h : Hawk) (req : http.Request)
    (extra body body' secret : string) :
  GenerateSignature env' (GenerateSignature env h req extra body secret)
    req extra body' secret
  = GenerateSignature env h req extra body secret.
Proof.
  set (hs := GenerateSignature env h req extra body secret).
  pose proof (GenerateSignature_fields env h req extra body secret) as F.
  pose proof (GenerateSignature_fields env' hs req extra body' secret) as G.
  cbv zeta in F, G. fold hs in F.
  destruct F as (F1 & F2 & F3 & F4 & F5 & F6 & F7 & F8 & F9 & F10 & F11 & F12).
  destruct G as (G1 & G2 & G3 & G4 & G5 & G6 & G7 & G8 & G9 & G10 & G11 & G12).
  set (hv := GenerateSignature env' hs req extra body' secret) in *.
  assert (T : Time hv = Time hs).
  { rewrite G5. unfold hs. now rewrite GenerateSignature_Time_nonempty. }
  assert (N : Nonce hv = Nonce hs).
  { rewrite G6. unfold hs. now rewrite GenerateSignature_Nonce_nonempty. }
  assert (M : Method hv = Method hs).
  { rewrite G7, F7. apply refill. }
  assert (P : Path hv = Path hs).
  { rewrite G8, F8. apply refill. }
  assert (E : getHostPort hs req = getHostPort h req)
    by now apply getHostPort_config.
  assert (Ho : Host hv = Host hs).
  { rewrite G9, E, F9. apply refill. }
  assert (Po : Port hv = Port hs).
  { rewrite G10, E, F9, F10.
    destruct (String.eqb (Host h) EmptyString) eqn:Eh.
    - now destruct (String.eqb (fst (getHostPort h req)) EmptyString).
    - now rewrite Eh. }
  assert (Ha : Hash hv = Hash hs).
  { rewrite G11, F11.
    destruct (String.eqb (Hash h) EmptyString) eqn:Eh.
    - now rewrite genHash_nonempty.
    - now rewrite Eh. }
  apply Hawk_ext; try congruence.
  rewrite G12, F12. f_equal. now apply headerStr_ext.
Qed.

Lemma sign_nonempty (secret marshalStr : string) :
  String.eqb (sign secret marshalStr) EmptyString = false.
Proof.
  unfold sign, hmac.SumSHA256.
  match goal with
  | |- context [sha256.Sum256 ?d] =>
      pose proof (Sum256_length d) as L; destruct (sha256.Sum256 d) as [|a l]
  end; [discriminate|].
  apply Encode_nonempty.
Qed.

(** X6.  [AsHeader] signs once: called again on the receiver it left, for any
    request, body, extra data and secret, it returns the header of the first
    call and leaves the receiver as it is. *)
Theorem AsHeader_renders_one_signature env env' (h : Hawk) (req req' : http.Request)
    (id body body' extra extra' secret secret' : string) :
  let first := AsHeader env h req id body extra secret in
  AsHeader env' (snd first) req' id body' extra' secret' = first.
Proof.
  cbv zeta. unfold AsHeader. cbn [snd].
  set (h1 := if String.eqb (Signature h) EmptyString
             then GenerateSignature env h req extra body secret else h).
  assert (E : String.eqb (Signature h1) EmptyString = false).
  { unfold h1. destruct (String.eqb (Signature h) EmptyString) eqn:Es; [|exact Es].
    pose proof (GenerateSignature_fields env h req extra body secret) as F.
    cbv zeta in F. destruct F as (_ & _ & _ & _ & _ & _ & _ & _ & _ & _ & _ & ->).
    apply sign_nonempty. }
  now rewrite E.
Qed.

(** ** Compare *)

Lemma append_empty_r (s : string) : s ++ EmptyString = s.
Proof. induction s as [|c s IH]; simpl; [reflexivity | now rewrite IH]. Qed.

Lemma TrimRight_padding (s : string) (n : nat) :
  strings.TrimRight (s ++ padding n) "=" = strings.TrimRight s "=".
Proof.
  revert s; induction n as [|n IH]; intros s; simpl padding.
  - now rewrite append_empty_r.
  - change (String base64.pad (padding n)) with ("=" ++ padding n).
    rewrite <- append_assoc, IH.
    apply (TrimRight_append_cut "="%char).
Qed.

(** X9.  [Compare] does not see padding: appending any number of '=' to the
    signature that is compared, or to the Signature of the receiver, does not
    change the result. *)
Theorem Compare_ignores_padding (h : Hawk) (sig : string) (n : nat) :
  Compare h (sig ++ padding n) = Compare h sig
  /\ Compare (set_Signature (Signature h ++ padding n) h) sig = Compare h sig.
Proof.
  unfold Compare. cbn [Signature set_Signature].
  now rewrite !TrimRight_padding.
Qed.


(** ** ParseAuthHeader *)

Lemma parseElement_pair (h : Hawk) (key val : string) :
  strings.Contains key "=" = false ->
  strings.Contains val dquote = false ->
  parseElement h (pair_text key val)
  = let key := strings.ToLower key in
    if String.eqb key "id" then set_Id val h
    else if String.eqb key "ts" then set_Time val h
    else if String.eqb key "nonce" then set_Nonce val h
    else if String.eqb key "ext" then set_Extra val h
    else if String.eqb key "hash" then set_Hash val h
    else if String.eqb key "mac" then set_Signature val h
    else h.
Proof.
  intros Hk Hv. unfold parseElement, pair_text.
  rewrite SplitN_2.
  change (key ++ "=" ++ dquote ++ val ++ dquote)
    with (key ++ String "="%char (String (ascii_of_nat 34) (val ++ dquote))).
  rewrite (cut_append key _ "="%char Hk).
  cbv beta iota zeta delta [List.length Nat.ltb Nat.leb nth].
  change dquote with (String (ascii_of_nat 34) EmptyString) in *.
  now rewrite (Trim_wrapped (ascii_of_nat 34) val Hv).
Qed.

Lemma pair_text_no_comma (key val : string) :
  strings.Contains key "," = false ->
  strings.Contains val "," = false ->
  strings.Contains (pair_text key val) "," = false.
Proof.
  intros Hk Hv. unfold pair_text.
  rewrite !(Contains_append ","%char), Hk, Hv. reflexivity.
Qed.

Lemma comma_blank_nonempty : ", " <> EmptyString.
Proof. discriminate. Qed.

Lemma Split_comma_blank (p rest : string) :
  strings.Contains p "," = false ->
  strings.Split (p ++ ", " ++ rest) ", " = p :: strings.Split rest ", ".
Proof.
  intros H.
  exact (Split_cut ", " (p ++ ", " ++ rest) p rest comma_blank_nonempty
           (cut2_append ","%char " "%char p rest H)).
Qed.

Lemma Split_comma_last (p : string) :
  strings.Contains p "," = false -> strings.Split p ", " = [p].
Proof.
  intros H. apply Split_none. exact (cut2_absent ","%char " "%char p H).
Qed.

Lemma documented_header_pairs (id ts nonce ext hash mac : string) :
  documented_header id ts nonce ext hash mac
  = "Hawk " ++ pair_text "id" id ++ ", " ++ pair_text "ts" ts
      ++ ", " ++ pair_text "nonce" nonce ++ ", " ++ pair_text "ext" ext
      ++ ", " ++ pair_text "hash" hash ++ ", " ++ pair_text "mac" mac.
Proof.
  unfold documented_header, pair_text. rewrite !append_assoc. reflexivity.
Qed.

Lemma plain_parts (v : string) :
  plain v = true ->
  strings.Contains v dquote = false /\ strings.Contains v "," = false.
Proof.
  unfold plain. intros H. apply andb_prop in H as [H1 H2].
  split; now apply negb_true_iff.
Qed.

(** X7.  [ParseAuthHeader] reads a header of the documented shape: when the
    six values hold neither a quote nor a comma, the call returns nil and the
    receiver holds the six values in Id, Time, Nonce, Extra, Hash and
    Signature, the path, host and port of the request, and its former
    Method. *)
Theorem ParseAuthHeader_reads_documented_header (self : Hawk) (req : http.Request)
    (id ts nonce ext hash mac : string) :
  http.Get (http.Hdr req) "Authorization"
  = documented_header id ts nonce ext hash mac ->
  plain id = true -> plain ts = true -> plain nonce = true ->
  plain ext = true -> plain hash = true -> plain mac = true ->
  ParseAuthHeader self req
  = Ret None
      {| config := config self; header := header self; Id := id; Time := ts;
         Nonce := nonce; Method := Method self; Path := getFullPath req;
         Host := fst (getHostPort self req); Port := snd (getHostPort self req);
         Extra := ext; Hash := hash; Signature := mac |}.
Proof.
  intros Hauth Hid Hts Hnonce Hext Hhash Hmac.
  apply plain_parts in Hid as [Qid Cid], Hts as [Qts Cts], Hnonce as [Qn Cn],
    Hext as [Qe Ce], Hhash as [Qh Ch], Hmac as [Qm Cm].
  unfold ParseAuthHeader. rewrite Hauth, documented_header_pairs.
  set (rest := pair_text "id" id ++ ", " ++ pair_text "ts" ts
      ++ ", " ++ pair_text "nonce" nonce ++ ", " ++ pair_text "ext" ext
      ++ ", " ++ pair_text "hash" hash ++ ", " ++ pair_text "mac" mac).
  change (String.eqb ("Hawk " ++ rest) EmptyString) with false.
  change (strings.slice_to ("Hawk " ++ rest) 4) with (Some "Hawk").
  change (strings.slice_from ("Hawk " ++ rest) 5) with (Some rest).
  cbv beta iota.
  change (negb (String.eqb (strings.ToLower "Hawk") "hawk")) with false.
  cbv beta iota zeta. unfold rest.
  rewrite !Split_comma_blank, Split_comma_last
    by (apply pair_text_no_comma; [reflexivity | assumption]).
  cbn [fold_left].
  rewrite !parseElement_pair by (reflexivity || assumption).
  cbv zeta.
  change (strings.ToLower "id") with "id".
  change (strings.ToLower "ts") with "ts".
  change (strings.ToLower "nonce") with "nonce".
  change (strings.ToLower "ext") with "ext".
  change (strings.ToLower "hash") with "hash".
  change (strings.ToLower "mac") with "mac".
  cbn [String.eqb Ascii.eqb Bool.eqb].
  f_equal.
Qed.

(** X7, an instance: a header for dev-1. *)
Lemma ParseAuthHeader_reads_documented_header_witness :
  ParseAuthHeader blank
    (post_cmd [("Authorization",
                documented_header "dev-1" "1414972800" "AQIDBAUG" EmptyString
                  "aGFzaA==" "bWFj")])
  = Ret None
      {| config := []; header := EmptyString; Id := "dev-1"; Time := "1414972800";
         Nonce := "AQIDBAUG"; Method := EmptyString; Path := "/cmd";
         Host := "example.com"; Port := "443";
         Extra := EmptyString; Hash := "aGFzaA=="; Signature := "bWFj" |}.
Proof.
  apply (ParseAuthHeader_reads_documented_header blank
           (post_cmd [("Authorization",
                       documented_header "dev-1" "1414972800" "AQIDBAUG" EmptyString
                         "aGFzaA==" "bWFj")])
           "dev-1" "1414972800" "AQIDBAUG" EmptyString "aGFzaA==" "bWFj");
    reflexivity.
Defined.

Lemma parseElement_keeps (h : Hawk) (element : string) :
  config (parseElement h element) = config h
  /\ header (parseElement h element) = header h
  /\ Method (parseElement h element) = Method h.
Proof.
  unfold parseElement.
  repeat match goal with
         | |- context [if ?b then _ else _] => destruct b
         end; repeat split.
Qed.

Lemma parse_elements_keep (elements : list string) (h : Hawk) :
  config (fold_left parseElement elements h) = config h
  /\ header (fold_left parseElement elements h) = header h
  /\ Method (fold_left parseElement elements h) = Method h.
Proof.
  revert h; induction elements as [|e l IH]; intros h; simpl; [repeat split|].
  destruct (IH (parseElement h e)) as (A & B & C).
  destruct (parseElement_keeps h e) as (A' & B' & C').
  repeat split; congruence.
Qed.

(** X8.  [ParseAuthHeader] never takes the target of the request from the
    header: when it returns nil, Path, Host and Port of the receiver are those
    [getFullPath] and [getHostPort] compute from the request, and Method and
    the configuration are those the receiver had; when it returns an error
    or panics the receiver is unchanged. *)
Theorem ParseAuthHeader_takes_target_from_request (self : Hawk) (req : http.Request) :
  match ParseAuthHeader self req with
  | Ret None h =>
      Path h = getFullPath req
      /\ (Host h, Port h) = getHostPort self req
      /\ Method h = Method self
      /\ config h = config self
  | Ret (Some _) h => h = self
  | Panic h => h = self
  end.
Proof.
  unfold ParseAuthHeader.
  destruct (String.eqb (http.Get (http.Hdr req) "Authorization") EmptyString);
    [reflexivity|].
  destruct (strings.slice_to _ 4) as [scheme|]; [|reflexivity].
  destruct (negb _); [reflexivity|].
  destruct (strings.slice_from _ 5) as [rest|]; [|reflexivity].
  cbv zeta.
  destruct (parse_elements_keep (strings.Split rest ", ") self) as (A & B & C).
  cbn [Path Host Port Method config set_Host_Port set_Path].
  rewrite (getHostPort_config _ self req) by (cbn [config set_Path]; exact A).
  repeat split; assumption.
Qed.

(** ** The signed strings are unambiguous *)

Lemma line_cut (a a' r r' : string) :
  one_line a = true -> one_line a' = true ->
  a ++ newline ++ r = a' ++ newline ++ r' -> a = a' /\ r = r'.
Proof.
  unfold one_line. intros Ha Ha' E.
  apply negb_true_iff in Ha, Ha'.
  apply (f_equal (strings.cut newline)) in E.
  change (a ++ newline ++ r) with (a ++ String (ascii_of_nat 10) r) in E.
  change (a' ++ newline ++ r') with (a' ++ String (ascii_of_nat 10) r') in E.
  unfold newline in *.
  rewrite !cut_append in E by assumption.
  now injection E.
Qed.

Lemma payloadStr_bare_type (req : http.Request) (ct body : string) :
  bare_type ct = true ->
  payloadStr (with_header "Content-Type" ct req) body
  = "hawk.1.payload" ++ newline ++ ct ++ newline ++ escape body ++ newline.
Proof.
  unfold bare_type. intros H.
  apply andb_prop in H as [H H3]. apply andb_prop in H as [H1 H2].
  apply negb_true_iff in H1, H2.
  rewrite payloadStr_escape. cbn [http.Hdr with_header http.Get].
  change (String.eqb "Content-Type" "Content-Type") with true. cbv iota.
  rewrite H1. now rewrite (Split_whole ct ";"%char H2).
Qed.

(** X10.  [genHash] tells content types and bodies apart: for content types
    that are not empty and hold neither a semicolon nor a line break, equal
    hashes mean equal content types and equal bodies, unless SHA-256 takes one
    value on the two different payload strings. *)
Theorem genHash_tells_type_and_body_apart (h h' : Hawk) (req req' : http.Request)
    (ct ct' body body' : string) :
  bare_type ct = true -> bare_type ct' = true ->
  genHash h (with_header "Content-Type" ct req) body
  = genHash h' (with_header "Content-Type" ct' req') body' ->
  (ct = ct' /\ body = body')
  \/ sha256_collision (payloadStr (with_header "Content-Type" ct req) body)
       (payloadStr (with_header "Content-Type" ct' req') body').
Proof.
  intros Hc Hc' E. unfold genHash in E.
  apply EncodeToString_inj in E; try apply Sum256_bytes.
  destruct (string_dec (payloadStr (with_header "Content-Type" ct req) body)
              (payloadStr (with_header "Content-Type" ct' req') body')) as [Es|Hn];
    [left | right; split; assumption].
  rewrite !payloadStr_bare_type in Es by assumption.
  apply append_inv_head in Es. apply append_inv_head in Es.
  unfold bare_type in Hc, Hc'.
  apply andb_prop in Hc as [_ L], Hc' as [_ L'].
  apply (line_cut ct ct' _ _ L L') in Es as [-> Es].
  split; [reflexivity|].
  apply append_inv_tail in Es. now apply escape_inj.
Qed.

(** X10, an instance: one content type and one body. *)
Lemma genHash_tells_type_and_body_apart_witness :
  ("application/json" = "application/json" /\ "lock" = "lock")
  \/ sha256_collision
       (payloadStr (with_header "Content-Type" "application/json" (post_cmd [])) "lock")
       (payloadStr (with_header "Content-Type" "application/json" (post_cmd [])) "lock").
Proof.
  apply (genHash_tells_type_and_body_apart blank blank (post_cmd []) (post_cmd []));
    reflexivity.
Defined.

(** X11.  The string [GenerateSignature] signs determines the signed fields:
    for two receivers whose timestamp, nonce, upper-case method, path,
    lower-case host, port and hash hold no line break, equal strings mean
    that these seven values and the extra data are equal; and equal
    signatures mean equal secrets and equal signed strings, unless
    HMAC-SHA256 takes one value on two different inputs. *)
Theorem headerStr_tells_fields_apart (h h' : Hawk)
    (extra extra' secret secret' : string) :
  one_line_fields h = true -> one_line_fields h' = true ->
  (headerStr h extra = headerStr h' extra' ->
   Time h = Time h' /\ Nonce h = Nonce h'
   /\ strings.ToUpper (Method h) = strings.ToUpper (Method h')
   /\ Path h = Path h'
   /\ strings.ToLower (Host h) = strings.ToLower (Host h')
   /\ Port h = Port h' /\ Hash h = Hash h' /\ extra = extra')
  /\ (sign secret (headerStr h extra) = sign secret' (headerStr h' extra') ->
      (secret = secret' /\ headerStr h extra = headerStr h' extra')
      \/ hmac_collision secret (headerStr h extra) secret' (headerStr h' extra')).
Proof.
  unfold one_line_fields. intros L L'.
  repeat match goal with
         | H : _ && _ = true |- _ => apply andb_prop in H as [H ?]
         end.
  split.
  - intros E. unfold headerStr in E.
    apply append_inv_head in E. apply append_inv_head in E.
    repeat match goal with
           | H : ?a ++ newline ++ _ = ?b ++ newline ++ _ |- _ =>
               apply (line_cut a b) in H; [destruct H as [? H] | assumption | assumption]
           end.
    apply append_inv_tail in E. repeat split; assumption.
  - intros E. apply (f_equal (fun s => strings.TrimRight s "=")) in E.
    apply sign_inj in E.
    destruct (string_dec secret secret') as [Es|Hn];
      [|right; split; [now left | exact E]].
    destruct (string_dec (headerStr h extra) (headerStr h' extra')) as [Em|Hn];
      [now left | right; split; [now right | exact E]].
Qed.

(** X11, an instance: the signed receiver of the sample request. *)
Lemma headerStr_tells_fields_apart_witness :
  (headerStr signed EmptyString = headerStr signed EmptyString ->
   Time signed = Time signed /\ Nonce signed = Nonce signed
   /\ strings.ToUpper (Method signed) = strings.ToUpper (Method signed)
   /\ Path signed = Path signed
   /\ strings.ToLower (Host signed) = strings.ToLower (Host signed)
   /\ Port signed = Port signed /\ Hash signed = Hash signed
   /\ EmptyString = EmptyString)
  /\ (sign "s3cr3t" (headerStr signed EmptyString)
      = sign "s3cr3t" (headerStr signed EmptyString) ->
      ("s3cr3t" = "s3cr3t"
       /\ headerStr signed EmptyString = headerStr signed EmptyString)
      \/ hmac_collision "s3cr3t" (headerStr signed EmptyString)
           "s3cr3t" (headerStr signed EmptyString)).
Proof.
  apply (headerStr_tells_fields_apart signed signed EmptyString EmptyString
           "s3cr3t" "s3cr3t");
    vm_compute; reflexivity.
Defined.

End HawkFurther.

(** * The store *)

Section Filters.
Context {A : Type} (p q : A -> bool).

Lemma filter_filter_nil (l : list A) :
  filter p l = [] -> filter p (filter q l) = [].
Proof.
  induction l as [|x l IH]; simpl; [reflexivity|].
  destruct (p x) eqn:Hp; [discriminate|]. intros H.
  destruct (q x); simpl; rewrite ?Hp; auto.
Qed.

Lemma filter_negb_nil (l : list A) :
  filter p (filter (fun x => negb (p x)) l) = [].
Proof.
  induction l as [|x l IH]; simpl; [reflexivity|].
  destruct (p x) eqn:Hp; simpl; rewrite ?Hp; auto.
Qed.

Lemma filter_excluded (l : list A) :
  (forall x, In x l -> p x = true -> q x = false) -> filter p (filter q l) = [].
Proof.
  induction l as [|x l IH]; simpl; intros H; [reflexivity|].
  destruct (q x) eqn:Hq; simpl.
  - destruct (p x) eqn:Hp.
    + rewrite (H x (or_introl eq_refl) Hp) in Hq; discriminate.
    + apply IH; intros y Hy; apply H; now right.
  - apply IH; intros y Hy; apply H; now right.
Qed.

Lemma filter_skip (l : list A) :
  (forall x, In x l -> p x = false -> q x = false) ->
  filter q (filter p l) = filter q l.
Proof.
  induction l as [|x l IH]; simpl; intros H; [reflexivity|].
  destruct (p x) eqn:Hp; simpl.
  - rewrite IH; [reflexivity | intros y Hy; apply H; now right].
  - rewrite (H x (or_introl eq_refl) Hp).
    apply IH; intros y Hy; apply H; now right.
Qed.

Lemma filter_map_stable (f : A -> A) (l : list A) :
  (forall x, p (f x) = p x) -> filter p (map f l) = map f (filter p l).
Proof.
  intros H. induction l as [|x l IH]; simpl; [reflexivity|].
  rewrite H. destruct (p x); simpl; now rewrite IH.
Qed.

Lemma filter_comm (l : list A) :
  filter p (filter q l) = filter q (filter p l).
Proof.
  induction l as [|x l IH]; simpl; [reflexivity|].
  destruct (q x) eqn:Hq; destruct (p x) eqn:Hp; simpl; rewrite ?Hq, ?Hp, IH; reflexivity.
Qed.

Lemma filter_same (l : list A) :
  (forall x, In x l -> p x = q x) -> filter p l = filter q l.
Proof.
  induction l as [|x l IH]; simpl; intros H; [reflexivity|].
  rewrite (H x (or_introl eq_refl)), IH; [reflexivity | intros y Hy; apply H; now right].
Qed.

End Filters.

Section StoreFacts.
Import storage.
Local Open Scope Z_scope.

(** ** Runs in which no driver call fails *)

Lemma Exec_ok (stmt : pgStore -> Z * pgStore) (s : pgStore) :
  faults s = [] -> Exec stmt s = Ret (Some (fst (stmt s)), None) (snd (stmt s)).
Proof. unfold Exec, bind, driver_call; now intros ->. Qed.

Lemma Query_ok {R : Type} (q : pgStore -> list R) (s : pgStore) :
  faults s = [] -> Query q s = Ret (Some (q s), None) s.
Proof. unfold Query, bind, driver_call; now intros ->. Qed.

Lemma Scan_ok (s : pgStore) : faults s = [] -> Scan s = Ret None s.
Proof. unfold Scan, bind, driver_call; now intros ->. Qed.

Lemma Prepare_ok (s : pgStore) : faults s = [] -> Prepare s = Ret (Some tt, None) s.
Proof. unfold Prepare, bind, driver_call; now intros ->. Qed.

Lemma GetNonce_ok (key val : string) (s : pgStore) :
  faults s = [] ->
  GetNonce key val s
  = Ret (key ++ "." ++ genSig key val, None) (snd (insert_nonce key val s)).
Proof.
  intros Hf. unfold GetNonce, bind. now rewrite (Exec_ok _ _ Hf).
Qed.

(** What [CheckNonce] does when no driver call fails. *)
Lemma CheckNonce_ok (n : string) (s : pgStore) :
  faults s = [] ->
  CheckNonce n s
  = let s1 := snd (delete_expired_nonces s) in
    match strings.cut "." n with
    | None => Ret (false, None) s1
    | Some (key, sig) =>
        match filter (has_key key) (nonce s1) with
        | [] => Ret (false, None) s1
        | r :: _ =>
            Ret (String.eqb (genSig key (nonce_val r)) sig, None)
              (snd (delete_nonce key s1))
        end
    end.
Proof.
  intros Hf. unfold CheckNonce.
  unfold bind at 1. rewrite (Exec_ok _ _ Hf).
  assert (Hf1 : faults (snd (delete_expired_nonces s)) = []) by exact Hf.
  set (s1 := snd (delete_expired_nonces s)) in *. clearbody s1. cbv zeta.
  rewrite SplitN_2.
  destruct (strings.cut "." n) as [[key sig]|]; [|reflexivity].
  cbn [List.length Nat.eqb negb nth].
  unfold bind at 1. rewrite (Query_ok _ _ Hf1).
  unfold defer, select_nonce_val.
  destruct (filter (has_key key) (nonce s1)) as [|r rest] eqn:E.
  - reflexivity.
  - cbn [firstn map Next bind ret].
    unfold bind. cbn [Next ret]. rewrite (Scan_ok _ Hf1).
    rewrite (Exec_ok _ _ Hf1). reflexivity.
Qed.

(** What [StoreCommand] does when no driver call fails. *)
Lemma StoreCommand_ok (devId command cType : string) (s : pgStore) :
  faults s = [] ->
  StoreCommand devId command cType s
  = let s1 := snd (update_pending (clock s) command devId cType s) in
    if count (for_device_type devId cType) (pendingCommands s) =? 0
    then Ret None (snd (insert_pending devId (clock s) command cType s1))
    else Ret None s1.
Proof.
  intros Hf. unfold StoreCommand, bind, dbNow.
  rewrite (Exec_ok _ _ Hf). cbn [fst snd RowsAffected ret]. cbv zeta.
  change (fst (update_pending (clock s) command devId cType s))
    with (count (for_device_type devId cType) (pendingCommands s)).
  destruct (count (for_device_type devId cType) (pendingCommands s) =? 0); [|reflexivity].
  rewrite Exec_ok by exact Hf. reflexivity.
Qed.

(** What [GetPending] does when no driver call fails. *)
Lemma GetPending_ok (devId : string) (s : pgStore) :
  faults s = [] ->
  GetPending devId s
  = match oldest (filter (for_device devId) (pendingCommands s)) with
    | None => Ret (EmptyString, EmptyString, None) (snd (update_lastexchange devId s))
    | Some row =>
        Ret (cmd_cmd row, cmd_type row, None)
          (snd (update_lastexchange devId (snd (delete_pending (cmd_id row) s))))
    end.
Proof.
  intros Hf. unfold GetPending. unfold bind at 1. rewrite (Query_ok _ _ Hf).
  unfold select_pending, defer.
  destruct (oldest (filter (for_device devId) (pendingCommands s))) as [row|].
  - unfold bind, Touch. cbn [Next ret]. rewrite (Scan_ok _ Hf).
    rewrite (Exec_ok _ _ Hf).
    unfold bind. rewrite Exec_ok by exact Hf. reflexivity.
  - unfold bind, Touch. cbn [Next ret]. unfold bind. rewrite (Exec_ok _ _ Hf). reflexivity.
Qed.

(** What [SetDeviceLocation] does when no driver call fails. *)
Lemma SetDeviceLocation_ok (devId : string) (p : Position) (s : pgStore) :
  faults s = [] ->
  SetDeviceLocation devId p s
  = Ret None
      (snd (insert_position devId (clock s)
              (float32 (Latitude p)) (float32 (Longitude p))
              (float32 (Altitude p)) (float32 (Accuracy p))
              (snd (delete_position devId s)))).
Proof.
  intros Hf. unfold SetDeviceLocation, PurgePosition, bind.
  rewrite (Exec_ok _ _ Hf). cbv beta iota. unfold ret at 1. cbv beta iota.
  assert (Hf1 : faults (snd (delete_position devId s)) = []) by exact Hf.
  rewrite (Prepare_ok _ Hf1). unfold dbNow, StmtExec.
  rewrite (Exec_ok _ _ Hf1). reflexivity.
Qed.

(** ** The nonce store *)

Lemma has_key_refl (key val : string) (t : Z) :
  has_key key {| nonce_key := key; nonce_val := val; nonce_time := t |} = true.
Proof. unfold has_key; simpl; apply String.eqb_refl. Qed.

(** C2.  A nonce string returned by [GetNonce] is accepted by [CheckNonce]
    exactly once: a first check, at most five minutes after issuance,
    returns true and leaves no row of the key, and a second check of the
    same string, at any time, returns false with no error.  Stated for runs
    in which no driver call fails, and for a key that holds no '.' (the
    separator [CheckNonce] splits at) and is new to the nonce table. *)
Theorem nonce_accepted_once (s : pgStore) (key val : string) (d1 d2 : Z) :
  faults s = [] ->
  strings.Contains key "." = false ->
  filter (has_key key) (nonce s) = [] ->
  d1 <= minutes 5 ->
  exists n s1 s2 s3,
    GetNonce key val s = Ret (n, None) s1
    /\ CheckNonce n (later d1 s1) = Ret (true, None) s2
    /\ filter (has_key key) (nonce s2) = []
    /\ CheckNonce n (later d2 s2) = Ret (false, None) s3.
Proof.
  intros Hf Hdot Hnew Hd.
  exists (key ++ "." ++ genSig key val), (snd (insert_nonce key val s)).
  rewrite (GetNonce_ok key val s Hf).
  rewrite CheckNonce_ok by exact Hf. cbv zeta.
  change ("." ++ genSig key val) with (String "." (genSig key val)).
  rewrite (cut_append key (genSig key val) "." Hdot).
  assert (Hrow : nonce_expired (clock s + d1)
                   {| nonce_key := key; nonce_val := val; nonce_time := clock s |}
                 = false).
  { unfold nonce_expired; simpl. apply Z.ltb_ge. lia. }
  assert (Hn1 : nonce (snd (delete_expired_nonces (later d1 (snd (insert_nonce key val s)))))
                = (filter (fun r => negb (nonce_expired (clock s + d1) r)) (nonce s)
                     ++ [{| nonce_key := key; nonce_val := val;
                            nonce_time := clock s |}])%list).
  { simpl. rewrite filter_app. simpl. now rewrite Hrow. }
  rewrite Hn1, filter_app, (filter_filter_nil _ _ _ Hnew).
  simpl filter. rewrite has_key_refl, app_nil_l. cbn [nonce_val].
  rewrite String.eqb_refl.
  set (s2 := snd (delete_nonce key _)).
  assert (Hn2 : filter (has_key key) (nonce s2) = []).
  { unfold s2. simpl. apply filter_negb_nil. }
  exists s2, (snd (delete_expired_nonces (later d2 s2))).
  split; [reflexivity|]. split; [reflexivity|]. split; [exact Hn2|].
  rewrite CheckNonce_ok by exact Hf. cbv zeta.
  rewrite (cut_append key (genSig key val) "." Hdot).
  assert (Hn3 : filter (has_key key) (nonce (snd (delete_expired_nonces (later d2 s2)))) = []).
  { simpl. apply filter_filter_nil. exact Hn2. }
  now rewrite Hn3.
Qed.

(** C2, an instance: a nonce issued at noon and checked a minute later. *)
Lemma nonce_accepted_once_witness :
  faults empty_store = []
  /\ strings.Contains "0be1a9e2" "." = false
  /\ filter (has_key "0be1a9e2") (nonce empty_store) = []
  /\ 60000000 <= minutes 5
  /\ exists n s1 s2 s3,
       GetNonce "0be1a9e2" "5f3c7d10" empty_store = Ret (n, None) s1
       /\ CheckNonce n (later 60000000 s1) = Ret (true, None) s2
       /\ filter (has_key "0be1a9e2") (nonce s2) = []
       /\ CheckNonce n (later 0 s2) = Ret (false, None) s3.
Proof.
  assert (H1 : faults empty_store = []) by reflexivity.
  assert (H2 : strings.Contains "0be1a9e2" "." = false) by reflexivity.
  assert (H3 : filter (has_key "0be1a9e2") (nonce empty_store) = []) by reflexivity.
  assert (H4 : 60000000 <= minutes 5) by (vm_compute; discriminate).
  repeat (split; [assumption|]).
  exact (nonce_accepted_once empty_store "0be1a9e2" "5f3c7d10" 60000000 0 H1 H2 H3 H4).
Defined.

(** After the purge no row of a key is left when all its rows were expired. *)
Ltac no_live_row key Hold :=
  replace (filter (has_key key) (nonce (snd (delete_expired_nonces _))))
    with (@nil nonceRow);
  [ reflexivity
  | symmetry; simpl; apply filter_excluded; intros r Hr Hk;
    unfold nonce_expired; apply negb_false_iff, Z.ltb_lt; now apply Hold ].

(** C3.  A nonce whose rows were all issued more than five minutes before
    the current time is rejected by [CheckNonce] although it was never
    consumed: the result is false with no error, the nonce table afterwards
    holds the rows that are not older than five minutes and no others, and
    the call is the same, result and store, as on the store in which the
    nonce never existed.  Stated for runs in which no driver call fails. *)
Theorem expired_nonce_rejected (s : pgStore) (n : string) :
  faults s = [] ->
  (forall r, In r (nonce s) ->
     has_key (nth 0 (strings.SplitN n "." 2) EmptyString) r = true ->
     nonce_time r < clock s - minutes 5) ->
  let never :=
    with_nonce
      (filter (fun r => negb (has_key (nth 0 (strings.SplitN n "." 2) EmptyString) r))
         (nonce s)) s in
  CheckNonce n s = Ret (false, None) (snd (delete_expired_nonces s))
  /\ nonce (snd (delete_expired_nonces s))
     = filter (fun r => negb (nonce_time r <? clock s - minutes 5)) (nonce s)
  /\ CheckNonce n never = CheckNonce n s.
Proof.
  intros Hf Hold never.
  assert (Hs : CheckNonce n s = Ret (false, None) (snd (delete_expired_nonces s))).
  { rewrite CheckNonce_ok by exact Hf. cbv zeta.
    rewrite SplitN_2 in Hold.
    destruct (strings.cut "." n) as [[key sig]|]; [|reflexivity].
    cbn [nth] in Hold.
    no_live_row key Hold. }
  split; [exact Hs|]. split; [reflexivity|].
  rewrite Hs.
  assert (Hfn : faults never = []) by exact Hf.
  assert (Hsame : snd (delete_expired_nonces never) = snd (delete_expired_nonces s)).
  { unfold delete_expired_nonces, never, with_nonce; simpl. f_equal.
    apply filter_skip. intros r Hr Hk.
    apply negb_false_iff in Hk.
    unfold nonce_expired. apply negb_false_iff, Z.ltb_lt. now apply Hold. }
  rewrite CheckNonce_ok by exact Hfn. cbv zeta. rewrite Hsame.
  rewrite SplitN_2 in Hold.
  destruct (strings.cut "." n) as [[key sig]|]; [|reflexivity].
  cbn [nth] in Hold.
  no_live_row key Hold.
Qed.

(** C3, an instance: a nonce issued six minutes before the check. *)
Lemma expired_nonce_rejected_witness :
  faults stale_nonce = []
  /\ (forall r, In r (nonce stale_nonce) ->
        has_key (nth 0 (strings.SplitN "0be1a9e2.00" "." 2) EmptyString) r = true ->
        nonce_time r < clock stale_nonce - minutes 5)
  /\ CheckNonce "0be1a9e2.00" stale_nonce
     = Ret (false, None) (snd (delete_expired_nonces stale_nonce)).
Proof.
  assert (H1 : faults stale_nonce = []) by reflexivity.
  assert (H2 : forall r, In r (nonce stale_nonce) ->
                 has_key (nth 0 (strings.SplitN "0be1a9e2.00" "." 2) EmptyString) r = true ->
                 nonce_time r < clock stale_nonce - minutes 5).
  { intros r [<-|[]] _. vm_compute. reflexivity. }
  split; [exact H1|]. split; [exact H2|].
  exact (proj1 (expired_nonce_rejected stale_nonce "0be1a9e2.00" H1 H2)).
Defined.

(** *** Malformed input and failing lookups *)

(** An input without a separator: not valid, no error, whatever the driver does. *)
Lemma CheckNonce_no_separator (n : string) (s : pgStore) :
  strings.Contains n "." = false ->
  exists s', CheckNonce n s = Ret (false, None) s'.
Proof.
  unfold strings.Contains. intros H. unfold CheckNonce.
  rewrite SplitN_2. destruct (strings.cut "." n) as [[a b]|]; [discriminate|].
  cbn [List.length Nat.eqb negb].
  unfold bind, Exec, bind, driver_call.
  destruct (faults s) as [|[|] rest]; eexists; reflexivity.
Qed.

(** The lookup fails: the deferred [rows.Close()] runs on the nil handle. *)
Lemma CheckNonce_query_fails (n : string) (s : pgStore) (f : bool) (rest : list bool) :
  strings.Contains n "." = true ->
  faults s = f :: true :: rest ->
  exists s', CheckNonce n s = Panic s'.
Proof.
  unfold strings.Contains. intros H Hf. unfold CheckNonce.
  rewrite SplitN_2. destruct (strings.cut "." n) as [[a b]|]; [|discriminate].
  cbn [List.length Nat.eqb negb nth].
  unfold bind at 1. unfold Exec, bind, driver_call. rewrite Hf.
  destruct f; cbn [ret]; unfold Query, bind, driver_call; cbn [faults with_faults snd];
    eexists; reflexivity.
Qed.

(** C7 (the code departs from the specification).  When the lookup query fails,
    [CheckNonce] panics: it has deferred [rows.Close()] on the nil handle.
    An input with no '.' does return false with no error, also when a later
    driver call would fail, and a failure of [rows.Scan] is returned as an
    error. *)
Theorem CheckNonce_panics_when_lookup_fails :
  CheckNonce "0be1a9e2.00" (with_faults [false; true] one_nonce) = Panic one_nonce
  /\ CheckNonce "0be1a9e2" (with_faults [false; true] one_nonce)
     = Ret (false, None) (with_faults [true] one_nonce)
  /\ CheckNonce "0be1a9e2.00" (with_faults [false; false; true] one_nonce)
     = Ret (false, Some ErrDriver) one_nonce.
Proof. vm_compute. repeat split. Qed.

(** ** The command queue *)

Lemma rewritten_device_type now command devId cType r :
  for_device_type devId cType (rewritten now command devId cType r)
  = for_device_type devId cType r.
Proof.
  unfold rewritten. destruct (for_device_type devId cType r) eqn:E; [|exact E].
  exact E.
Qed.

Lemma rewritten_device now command devId cType r :
  for_device devId (rewritten now command devId cType r) = for_device devId r.
Proof.
  unfold rewritten. now destruct (for_device_type devId cType r).
Qed.

Lemma rewritten_type now command devId cType r :
  cmd_type (rewritten now command devId cType r) = cmd_type r.
Proof.
  unfold rewritten. now destruct (for_device_type devId cType r).
Qed.

(** The rows of the key after [StoreCommand]. *)
Lemma StoreCommand_rows (devId command cType : string) (s : pgStore) :
  faults s = [] ->
  exists s1,
    StoreCommand devId command cType s = Ret None s1
    /\ faults s1 = []
    /\ filter (for_device_type devId cType) (pendingCommands s1)
       = match filter (for_device_type devId cType) (pendingCommands s) with
         | [] => [{| cmd_id := serial s; cmd_deviceId := devId; cmd_time := clock s;
                     cmd_cmd := command; cmd_type := cType |}]
         | l => map (rewritten (clock s) command devId cType) l
         end
    /\ (forall t,
          (forall r, In r (pendingCommands s) -> for_device devId r = true -> cmd_type r = t) ->
          cType = t ->
          forall r, In r (pendingCommands s1) -> for_device devId r = true -> cmd_type r = t).
Proof.
  intros Hf. rewrite (StoreCommand_ok _ _ _ _ Hf). cbv zeta.
  unfold count.
  assert (Hkeep : forall t,
            (forall r, In r (pendingCommands s) -> for_device devId r = true -> cmd_type r = t) ->
            forall r, In r (map (rewritten (clock s) command devId cType) (pendingCommands s)) ->
                      for_device devId r = true -> cmd_type r = t).
  { intros t H r Hr Hd. apply in_map_iff in Hr. destruct Hr as (r0 & <- & Hr0).
    rewrite rewritten_type. rewrite rewritten_device in Hd. now apply H. }
  destruct (filter (for_device_type devId cType) (pendingCommands s)) as [|r0 l] eqn:E.
  - simpl Z.eqb. cbv iota.
    eexists; split; [reflexivity|]. split; [exact Hf|]. split.
    + simpl. rewrite filter_app.
      change (fun r => if for_device_type devId cType r then _ else r)
        with (rewritten (clock s) command devId cType).
      rewrite filter_map_stable by apply rewritten_device_type.
      rewrite E. simpl. unfold for_device_type; simpl. now rewrite !String.eqb_refl.
    + intros t H Ht r Hr Hd. simpl in Hr. apply in_app_iff in Hr.
      destruct Hr as [Hr|[<-|[]]]; [|exact Ht].
      now apply (Hkeep t H).
  - replace (Z.of_nat (List.length (r0 :: l)) =? 0) with false
      by (symmetry; apply Z.eqb_neq; simpl List.length; lia).
    eexists; split; [reflexivity|]. split; [exact Hf|]. split.
    + simpl.
      change (fun r => if for_device_type devId cType r then _ else r)
        with (rewritten (clock s) command devId cType).
      rewrite filter_map_stable by apply rewritten_device_type.
      now rewrite E.
    + intros t H _ r Hr Hd. now apply (Hkeep t H).
Qed.

(** C5 (amended).  On a store that holds at most one pending row for the
    key (device, type), two calls of [StoreCommand] with that key leave
    exactly one pending row for it, holding the second payload; when the
    device has no pending command of another type, a following [GetPending]
    returns that payload and the type, and no row of the key remains.
    Stated for runs in which no driver call fails. *)
Theorem StoreCommand_twice_then_GetPending
    (s : pgStore) (devId cType p1 p2 : string) (d1 d2 : Z) :
  faults s = [] ->
  (List.length (filter (for_device_type devId cType) (pendingCommands s)) <= 1)%nat ->
  exists s1 s2 row,
    StoreCommand devId p1 cType s = Ret None s1
    /\ StoreCommand devId p2 cType (later d1 s1) = Ret None s2
    /\ filter (for_device_type devId cType) (pendingCommands s2) = [row]
    /\ cmd_cmd row = p2
    /\ ((forall r, In r (pendingCommands s) -> for_device devId r = true ->
                   cmd_type r = cType) ->
        exists s3,
          GetPending devId (later d2 s2) = Ret (p2, cType, None) s3
          /\ filter (for_device_type devId cType) (pendingCommands s3) = []).
Proof.
  intros Hf Hone.
  destruct (StoreCommand_rows devId p1 cType s Hf) as (s1 & R1 & Hf1 & K1 & T1).
  assert (Hf1' : faults (later d1 s1) = []) by exact Hf1.
  destruct (StoreCommand_rows devId p2 cType (later d1 s1) Hf1')
    as (s2 & R2 & Hf2 & K2 & T2).
  change (pendingCommands (later d1 s1)) with (pendingCommands s1) in K2, T2.
  assert (H1 : exists r1, filter (for_device_type devId cType) (pendingCommands s1) = [r1]
                          /\ for_device_type devId cType r1 = true).
  { rewrite K1.
    destruct (filter (for_device_type devId cType) (pendingCommands s)) as [|r0 [|r0' l]] eqn:E.
    - eexists; split; [reflexivity|].
      unfold for_device_type; simpl. now rewrite !String.eqb_refl.
    - eexists; split; [reflexivity|].
      rewrite rewritten_device_type.
      assert (Hin : In r0 (filter (for_device_type devId cType) (pendingCommands s)))
        by (rewrite E; now left).
      now apply filter_In in Hin.
    - simpl in Hone; lia. }
  destruct H1 as (r1 & E1 & Hr1).
  rewrite E1 in K2. cbn [map] in K2.
  exists s1, s2, (rewritten (clock (later d1 s1)) p2 devId cType r1).
  split; [exact R1|]. split; [exact R2|]. split; [exact K2|].
  assert (Hrow : rewritten (clock (later d1 s1)) p2 devId cType r1
                 = {| cmd_id := cmd_id r1; cmd_deviceId := cmd_deviceId r1;
                      cmd_time := clock (later d1 s1); cmd_cmd := p2;
                      cmd_type := cmd_type r1 |})
    by (unfold rewritten; now rewrite Hr1).
  split; [now rewrite Hrow|].
  intros Hty.
  assert (Hf2' : faults (later d2 s2) = []) by exact Hf2.
  rewrite (GetPending_ok devId _ Hf2').
  change (pendingCommands (later d2 s2)) with (pendingCommands s2).
  assert (Hall : forall r, In r (pendingCommands s2) ->
                   for_device devId r = for_device_type devId cType r).
  { intros r Hr. unfold for_device_type. fold (for_device devId r).
    destruct (for_device devId r) eqn:Hd; [|reflexivity].
    simpl. symmetry. apply String.eqb_eq.
    exact (T2 cType (T1 cType Hty eq_refl) eq_refl r Hr Hd). }
  rewrite (filter_same _ _ _ Hall), K2. cbn [oldest].
  eexists; split.
  - rewrite Hrow. cbn [cmd_cmd cmd_type cmd_id].
    unfold for_device_type in Hr1. apply andb_true_iff in Hr1.
    destruct Hr1 as [_ Ht]. apply String.eqb_eq in Ht. rewrite Ht. reflexivity.
  - simpl. rewrite filter_comm.
    change (pendingCommands (later d2 s2)) with (pendingCommands s2).
    rewrite K2, Hrow. simpl. now rewrite Z.eqb_refl.
Qed.

(** C5, an instance: two commands for a device with nothing pending. *)
Lemma StoreCommand_twice_then_GetPending_witness :
  faults empty_store = []
  /\ (List.length (filter (for_device_type "dev-1" "lock") (pendingCommands empty_store)) <= 1)%nat
  /\ exists s1 s2 row,
       StoreCommand "dev-1" "first" "lock" empty_store = Ret None s1
       /\ StoreCommand "dev-1" "second" "lock" (later 1000000 s1) = Ret None s2
       /\ filter (for_device_type "dev-1" "lock") (pendingCommands s2) = [row]
       /\ cmd_cmd row = "second".
Proof.
  assert (H1 : faults empty_store = []) by reflexivity.
  assert (H2 : (List.length (filter (for_device_type "dev-1" "lock")
                               (pendingCommands empty_store)) <= 1)%nat)
    by (simpl; apply Nat.le_0_l).
  split; [exact H1|]. split; [exact H2|].
  destruct (StoreCommand_twice_then_GetPending empty_store "dev-1" "lock" "first" "second"
              1000000 1000000 H1 H2) as (s1 & s2 & row & R1 & R2 & K & C & _).
  exists s1, s2, row. repeat split; assumption.
Defined.

(** C5, counterexample.  A device has an older pending command of type
    "erase": after two calls of [StoreCommand] with the key (device, "lock"),
    [GetPending] returns the erase command, and the row of the key, with the
    second payload, is still there.  And on a store with two rows of the
    key, the two calls rewrite both rows and leave both. *)
Lemma StoreCommand_GetPending_with_other_rows :
  (exists s,
     (_ <- StoreCommand "dev-1" "first" "lock" ;;
      _ <- StoreCommand "dev-1" "second" "lock" ;;
      GetPending "dev-1") erase_waiting
     = Ret ("wipe", "erase", None) s
     /\ map cmd_cmd (filter (for_device_type "dev-1" "lock") (pendingCommands s))
        = ["second"])
  /\ (exists s,
        (_ <- StoreCommand "dev-1" "first" "lock" ;;
         StoreCommand "dev-1" "second" "lock") lock_twice
        = Ret None s
        /\ map cmd_cmd (filter (for_device_type "dev-1" "lock") (pendingCommands s))
           = ["second"; "second"]).
Proof. split; eexists; vm_compute; split; reflexivity. Qed.

(** The same calls on a store with nothing pending. *)
Example StoreCommand_twice_sample :
  exists s,
    (_ <- StoreCommand "dev-1" "first" "lock" ;;
     _ <- StoreCommand "dev-1" "second" "lock" ;;
     GetPending "dev-1") empty_store
    = Ret ("second", "lock", None) s
    /\ pendingCommands s = [].
Proof. eexists. vm_compute. split; reflexivity. Qed.

(** *** Absent commands and failing queries *)

Lemma GetPending_query_fails (devId : string) (s : pgStore) (rest : list bool) :
  faults s = true :: rest -> GetPending devId s = Panic (with_faults rest s).
Proof.
  intros Hf. unfold GetPending, bind, Query, bind, driver_call, defer. now rewrite Hf.
Qed.

(** No path of [GetPending] returns the error of the query. *)
Lemma GetPending_never_reports_query_error (devId : string) (s : pgStore) (rest : list bool) :
  faults s = true :: rest ->
  forall cmd ctype err s', GetPending devId s <> Ret (cmd, ctype, Some err) s'.
Proof.
  intros Hf cmd ctype err s'. rewrite (GetPending_query_fails devId s rest Hf). discriminate.
Qed.

Lemma GetPending_none (devId : string) (s : pgStore) :
  faults s = [] ->
  filter (for_device devId) (pendingCommands s) = [] ->
  GetPending devId s
  = Ret (EmptyString, EmptyString, None) (snd (update_lastexchange devId s)).
Proof.
  intros Hf He. rewrite (GetPending_ok devId s Hf), He. reflexivity.
Qed.

(** C8 (the code departs from the specification).  When the query fails,
    [GetPending] panics in [rows.Next()] on the nil handle and returns no
    error; with nothing pending it returns the empty command and type and no
    error. *)
Theorem GetPending_panics_when_query_fails :
  GetPending "dev-1" (with_faults [true] erase_waiting) = Panic erase_waiting
  /\ GetPending "dev-1" empty_store = Ret (EmptyString, EmptyString, None) empty_store.
Proof. vm_compute. split; reflexivity. Qed.

(** ** The position tracker *)

(** C6.  Two calls of [SetDeviceLocation] for one device leave exactly one
    position row for it: the row of the second call, with its coordinates as
    float32, the precision they are stored in; the rows of other devices are
    as before.  Stated for runs in which no driver call fails. *)
Theorem SetDeviceLocation_keeps_latest
    (s : pgStore) (devId : string) (p1 p2 : Position) (d : Z) :
  faults s = [] ->
  exists s1 s2,
    SetDeviceLocation devId p1 s = Ret None s1
    /\ SetDeviceLocation devId p2 (later d s1) = Ret None s2
    /\ filter (at_device devId) (position s2)
       = [{| pos_id := serial s + 1; pos_deviceId := devId; pos_time := clock s + d;
             pos_latitude := float32 (Latitude p2);
             pos_longitude := float32 (Longitude p2);
             pos_altitude := float32 (Altitude p2);
             pos_accuracy := float32 (Accuracy p2) |}]
    /\ filter (fun r => negb (at_device devId r)) (position s2)
       = filter (fun r => negb (at_device devId r)) (position s).
Proof.
  intros Hf.
  rewrite (SetDeviceLocation_ok devId p1 s Hf).
  eexists; eexists; split; [reflexivity|].
  rewrite SetDeviceLocation_ok by exact Hf.
  split; [reflexivity|].
  assert (Hd : at_device devId
                 {| pos_id := serial s + 1; pos_deviceId := devId; pos_time := clock s + d;
                    pos_latitude := float32 (Latitude p2);
                    pos_longitude := float32 (Longitude p2);
                    pos_altitude := float32 (Altitude p2);
                    pos_accuracy := float32 (Accuracy p2) |} = true)
    by (unfold at_device; simpl; apply String.eqb_refl).
  assert (Hd1 : forall t la lo al ac,
             at_device devId
                 {| pos_id := serial s; pos_deviceId := devId; pos_time := t;
                    pos_latitude := la; pos_longitude := lo;
                    pos_altitude := al; pos_accuracy := ac |} = true)
    by (intros; unfold at_device; simpl; apply String.eqb_refl).
  split.
  - simpl. rewrite !filter_app. simpl. rewrite Hd, Hd1. simpl.
    rewrite app_nil_r.
    rewrite (filter_filter_nil (at_device devId));
      [reflexivity | apply filter_negb_nil].
  - simpl. rewrite !filter_app. simpl. rewrite Hd, Hd1. simpl.
    rewrite !app_nil_r.
    rewrite (filter_skip _ _ (filter _ (position s))) by (intros; assumption).
    apply filter_skip. intros; assumption.
Qed.

(** C6, an instance: two positions reported by one device. *)
Lemma SetDeviceLocation_keeps_latest_witness :
  faults empty_store = []
  /\ exists s1 s2,
       SetDeviceLocation "dev-1" here empty_store = Ret None s1
       /\ SetDeviceLocation "dev-1" there (later 1000000 s1) = Ret None s2
       /\ List.length (filter (at_device "dev-1") (position s2)) = 1%nat.
Proof.
  assert (H1 : faults empty_store = []) by reflexivity.
  split; [exact H1|].
  destruct (SetDeviceLocation_keeps_latest empty_store "dev-1" here there 1000000 H1)
    as (s1 & s2 & R1 & R2 & K & _).
  exists s1, s2. split; [exact R1|]. split; [exact R2|]. now rewrite K.
Defined.

Example SetDeviceLocation_sample :
  exists s,
    (_ <- SetDeviceLocation "dev-1" here ;; SetDeviceLocation "dev-1" there) empty_store
    = Ret None s
    /\ map (fun r => (pos_latitude r, pos_longitude r)) (position s)
       = [(48.75%float, 2.5%float)].
Proof. eexists. vm_compute. split; reflexivity. Qed.

End StoreFacts.

(** * The store: further properties *)

Section StoreFurther.
Import storage.
Local Open Scope Z_scope.

Lemma Exec_fails (stmt : pgStore -> Z * pgStore) (s : pgStore) (rest : list bool) :
  faults s = true :: rest ->
  Exec stmt s = Ret (None, Some ErrDriver) (with_faults rest s).
Proof. unfold Exec, bind, driver_call; now intros ->. Qed.

Lemma Exec_passes (stmt : pgStore -> Z * pgStore) (s : pgStore) (rest : list bool) :
  faults s = false :: rest ->
  Exec stmt s
  = Ret (Some (fst (stmt (with_faults rest s))), None) (snd (stmt (with_faults rest s))).
Proof. unfold Exec, bind, driver_call; now intros ->. Qed.

Lemma with_deviceInfo_same (s : pgStore) : with_deviceInfo (deviceInfo s) s = s.
Proof. now destruct s. Qed.

(** ** Pending commands *)

Lemma PurgeCommands_ok (devId : string) (s : pgStore) :
  faults s = [] ->
  PurgeCommands devId s = Ret None (snd (delete_pending_for devId s)).
Proof. intros Hf. unfold PurgeCommands, bind. now rewrite (Exec_ok _ _ Hf). Qed.

(** X12.  [PurgeCommands] removes the pending commands of the device and no
    others: it returns nil, no row of the device is left, the rows of other
    devices are as before, and a following [GetPending] for the device
    returns the empty command with no error and leaves the table as it is.
    Stated for runs in which no driver call fails. *)
Theorem PurgeCommands_empties_queue (s : pgStore) (devId : string) (d : Z) :
  faults s = [] ->
  exists s1 s2,
    PurgeCommands devId s = Ret None s1
    /\ filter (for_device devId) (pendingCommands s1) = []
    /\ filter (fun r => negb (for_device devId r)) (pendingCommands s1)
       = filter (fun r => negb (for_device devId r)) (pendingCommands s)
    /\ GetPending devId (later d s1) = Ret (EmptyString, EmptyString, None) s2
    /\ pendingCommands s2 = pendingCommands s1.
Proof.
  intros Hf.
  exists (snd (delete_pending_for devId s)),
    (snd (update_lastexchange devId (later d (snd (delete_pending_for devId s))))).
  split; [now apply PurgeCommands_ok|].
  assert (E : filter (for_device devId)
                (pendingCommands (snd (delete_pending_for devId s))) = []).
  { simpl. apply filter_negb_nil. }
  split; [exact E|]. split.
  { simpl. apply filter_skip. intros x _ H; exact H. }
  split; [|reflexivity].
  apply GetPending_none; [exact Hf | exact E].
Qed.

(** X12, an instance: a device with two pending rows. *)
Lemma PurgeCommands_empties_queue_witness :
  exists s1 s2,
    PurgeCommands "dev-1" lock_twice = Ret None s1
    /\ filter (for_device "dev-1") (pendingCommands s1) = []
    /\ filter (fun r => negb (for_device "dev-1" r)) (pendingCommands s1)
       = filter (fun r => negb (for_device "dev-1" r)) (pendingCommands lock_twice)
    /\ GetPending "dev-1" (later 1000000 s1) = Ret (EmptyString, EmptyString, None) s2
    /\ pendingCommands s2 = pendingCommands s1.
Proof.
  apply (PurgeCommands_empties_queue lock_twice "dev-1" 1000000). reflexivity.
Defined.

Lemma rewritten_key now command devId cType d c r :
  for_device_type d c (rewritten now command devId cType r) = for_device_type d c r.
Proof.
  unfold rewritten. now destruct (for_device_type devId cType r).
Qed.

Lemma count_filter_rewritten now command devId cType d c l :
  List.length (filter (for_device_type d c) (map (rewritten now command devId cType) l))
  = List.length (filter (for_device_type d c) l).
Proof.
  rewrite filter_map_stable by (intros x; apply rewritten_key).
  apply length_map.
Qed.

(** X13.  [StoreCommand] keeps the table of pending commands at one row per
    key at most: if every (device, type) key has at most one row before the
    call, every key has at most one row after it, and the key of the call
    has exactly one.  Stated for runs in which no driver call fails. *)
Theorem StoreCommand_keeps_one_per_key (s : pgStore) (devId command cType : string) :
  faults s = [] ->
  one_per_key (pendingCommands s) ->
  exists s1,
    StoreCommand devId command cType s = Ret None s1
    /\ one_per_key (pendingCommands s1)
    /\ List.length (filter (for_device_type devId cType) (pendingCommands s1)) = 1%nat.
Proof.
  intros Hf Hone. rewrite (StoreCommand_ok _ _ _ _ Hf). cbv zeta.
  unfold count.
  destruct (Z.of_nat (List.length (filter (for_device_type devId cType) (pendingCommands s)))
            =? 0) eqn:E.
  - apply Z.eqb_eq in E.
    assert (E0 : List.length (filter (for_device_type devId cType) (pendingCommands s)) = 0%nat)
      by lia.
    eexists; split; [reflexivity|].
    cbn [insert_pending update_pending snd pendingCommands with_serial with_pendingCommands].
    fold (rewritten (clock s) command devId cType).
    split.
    + intros d c. rewrite filter_app, length_app, count_filter_rewritten.
      cbn [filter]. unfold for_device_type at 2. cbn [cmd_deviceId cmd_type].
      destruct (String.eqb devId d) eqn:Ed; destruct (String.eqb cType c) eqn:Ec;
        cbn [andb List.length]; try (specialize (Hone d c); lia).
      apply String.eqb_eq in Ed, Ec. subst. lia.
    + rewrite filter_app, length_app, count_filter_rewritten, E0.
      cbn [filter]. unfold for_device_type. cbn [cmd_deviceId cmd_type].
      now rewrite !String.eqb_refl.
  - apply Z.eqb_neq in E.
    eexists; split; [reflexivity|].
    cbn [update_pending snd pendingCommands with_pendingCommands].
    fold (rewritten (clock s) command devId cType).
    split.
    + intros d c. rewrite count_filter_rewritten. apply Hone.
    + rewrite count_filter_rewritten. specialize (Hone devId cType). lia.
Qed.

(** X13, an instance: a ring command for a device with an erase command waiting. *)
Lemma StoreCommand_keeps_one_per_key_witness :
  exists s1,
    StoreCommand "dev-1" "ring" "ring" erase_waiting = Ret None s1
    /\ one_per_key (pendingCommands s1)
    /\ List.length (filter (for_device_type "dev-1" "ring") (pendingCommands s1)) = 1%nat.
Proof.
  apply (StoreCommand_keeps_one_per_key erase_waiting "dev-1" "ring" "ring").
  - reflexivity.
  - intros d c. simpl. destruct (for_device_type d c _); simpl; lia.
Defined.

Lemma oldest_least (l : list pendingCommandsRow) :
  match oldest l with
  | None => l = []
  | Some row => In row l /\ forall r, In r l -> cmd_time row <= cmd_time r
  end.
Proof.
  induction l as [|x l IH]; [reflexivity|].
  simpl. destruct (oldest l) as [row|].
  - destruct IH as [Hin Hmin].
    destruct (cmd_time row <? cmd_time x) eqn:E.
    + apply Z.ltb_lt in E. split; [now right|].
      intros r [<-|Hr]; [lia | now apply Hmin].
    + apply Z.ltb_ge in E. split; [now left|].
      intros r [<-|Hr]; [lia | specialize (Hmin r Hr); lia].
  - subst l. split; [now left|]. intros r [<-|[]]. lia.
Qed.

(** X14.  [GetPending] for a device that has pending commands returns one of
    least time among them, with its type and no error, and the table
    afterwards is the table without the rows of that id.  Stated for runs in
    which no driver call fails. *)
Theorem GetPending_takes_the_oldest (s : pgStore) (devId : string) :
  faults s = [] ->
  filter (for_device devId) (pendingCommands s) <> [] ->
  exists row s1,
    GetPending devId s = Ret (cmd_cmd row, cmd_type row, None) s1
    /\ In row (pendingCommands s)
    /\ for_device devId row = true
    /\ (forall r, In r (pendingCommands s) -> for_device devId r = true ->
          cmd_time row <= cmd_time r)
    /\ pendingCommands s1
       = filter (fun r => negb (cmd_id r =? cmd_id row)) (pendingCommands s).
Proof.
  intros Hf Hne. rewrite (GetPending_ok _ _ Hf).
  pose proof (oldest_least (filter (for_device devId) (pendingCommands s))) as L.
  destruct (oldest (filter (for_device devId) (pendingCommands s))) as [row|];
    [|contradiction].
  destruct L as [Hin Hmin]. apply filter_In in Hin as [Hin Hdev].
  eexists row, _. split; [reflexivity|].
  repeat split; try assumption.
  intros r Hr Hd. apply Hmin. apply filter_In. now split.
Qed.

(** X14, an instance: a device with two pending rows. *)
Lemma GetPending_takes_the_oldest_witness :
  exists row s1,
    GetPending "dev-1" lock_twice = Ret (cmd_cmd row, cmd_type row, None) s1
    /\ In row (pendingCommands lock_twice)
    /\ for_device "dev-1" row = true
    /\ (forall r, In r (pendingCommands lock_twice) -> for_device "dev-1" r = true ->
          cmd_time row <= cmd_time r)
    /\ pendingCommands s1
       = filter (fun r => negb (cmd_id r =? cmd_id row)) (pendingCommands lock_twice).
Proof.
  apply (GetPending_takes_the_oldest lock_twice "dev-1"); [reflexivity | discriminate].
Defined.

Lemma rewrite_none (now : Z) (command devId cType : string)
    (l : list pendingCommandsRow) :
  filter (for_device_type devId cType) l = [] ->
  map (rewritten now command devId cType) l = l.
Proof.
  induction l as [|x l IH]; [reflexivity|].
  simpl. unfold rewritten at 1.
  destruct (for_device_type devId cType x); [discriminate|].
  intros H. now rewrite IH.
Qed.

(** X15.  When [StoreCommand] returns an error, whichever of its two
    statements failed, the table of pending commands is as it was before the
    call. *)
Theorem StoreCommand_error_changes_nothing (s s' : pgStore)
    (devId command cType : string) (e : error) :
  StoreCommand devId command cType s = Ret (Some e) s' ->
  pendingCommands s' = pendingCommands s.
Proof.
  unfold StoreCommand, bind, dbNow.
  destruct (faults s) as [|[|] rest] eqn:Hf.
  - rewrite (Exec_ok _ _ Hf). cbn [fst snd RowsAffected ret]. cbv zeta.
    destruct (_ =? 0); [|discriminate].
    rewrite Exec_ok by exact Hf. discriminate.
  - rewrite (Exec_fails _ _ _ Hf). cbn [ret]. intros H; injection H as _ <-.
    reflexivity.
  - rewrite (Exec_passes _ _ _ Hf). cbn [RowsAffected ret]. cbv zeta.
    change (fst (update_pending (clock s) command devId cType (with_faults rest s)))
      with (count (for_device_type devId cType) (pendingCommands s)).
    destruct (count (for_device_type devId cType) (pendingCommands s) =? 0) eqn:E;
      [|discriminate].
    apply Z.eqb_eq in E. unfold count in E.
    assert (E0 : filter (for_device_type devId cType) (pendingCommands s) = []).
    { destruct (filter _ _); [reflexivity | simpl in E; lia]. }
    set (s1 := snd (update_pending (clock s) command devId cType (with_faults rest s))).
    assert (P1 : pendingCommands s1 = pendingCommands s).
    { unfold s1. cbn [update_pending snd pendingCommands with_pendingCommands with_faults].
      fold (rewritten (clock s) command devId cType). now apply rewrite_none. }
    assert (F1 : faults s1 = rest) by reflexivity.
    destruct rest as [|[|] rest'].
    + rewrite Exec_ok by exact F1. discriminate.
    + rewrite (Exec_fails _ _ _ F1). intros H; injection H as _ <-. exact P1.
    + rewrite (Exec_passes _ _ _ F1). discriminate.
Qed.

(** X15, an instance: the update finds no row and the insert fails. *)
Lemma StoreCommand_error_changes_nothing_witness :
  pendingCommands (with_faults [] erase_waiting)
  = pendingCommands (with_faults [false; true] erase_waiting).
Proof.
  apply (StoreCommand_error_changes_nothing (with_faults [false; true] erase_waiting)
           (with_faults [] erase_waiting) "dev-1" "ring" "ring" ErrDriver).
  reflexivity.
Defined.

Lemma Query_fails {R : Type} (q : pgStore -> list R) (s : pgStore) (rest : list bool) :
  faults s = true :: rest ->
  Query q s = Ret (None, Some ErrDriver) (with_faults rest s).
Proof. unfold Query, bind, driver_call; now intros ->. Qed.

Lemma Query_passes {R : Type} (q : pgStore -> list R) (s : pgStore) (rest : list bool) :
  faults s = false :: rest ->
  Query q s = Ret (Some (q (with_faults rest s)), None) (with_faults rest s).
Proof. unfold Query, bind, driver_call; now intros ->. Qed.

Lemma Prepare_fails (s : pgStore) (rest : list bool) :
  faults s = true :: rest ->
  Prepare s = Ret (None, Some ErrDriver) (with_faults rest s).
Proof. unfold Prepare, bind, driver_call; now intros ->. Qed.

(** ** Positions *)

Lemma scan_positions_ok (rows : list positionRow) (acc : list Position) (s : pgStore) :
  faults s = [] ->
  scan_positions rows acc s = Ret (acc ++ map scanned rows)%list s.
Proof.
  intros Hf. revert acc; induction rows as [|r rows IH]; intros acc; simpl.
  - now rewrite app_nil_r.
  - unfold bind. rewrite (Scan_ok _ Hf). rewrite IH. now rewrite <- app_assoc.
Qed.

Lemma GetPositions_ok (devId : string) (s : pgStore) :
  faults s = [] ->
  GetPositions devId s = Ret (map scanned (select_position devId s), None) s.
Proof.
  intros Hf. unfold GetPositions. unfold bind at 1. rewrite (Query_ok _ _ Hf).
  unfold defer, bind. rewrite (scan_positions_ok _ _ _ Hf). reflexivity.
Qed.

Lemma select_position_short (devId : string) (s : pgStore) :
  (List.length (select_position devId s) <= 1)%nat.
Proof.
  unfold select_position. destruct (earliest _); simpl; lia.
Qed.

Lemma scan_positions_short (rows : list positionRow) (s : pgStore) :
  (List.length rows <= 1)%nat ->
  exists ps s', scan_positions rows [] s = Ret ps s' /\ (List.length ps <= 1)%nat.
Proof.
  destruct rows as [|r [|r' rows]]; simpl; intros H; try lia.
  - eexists _, _. split; [reflexivity | simpl; lia].
  - unfold bind, Scan, bind, driver_call.
    destruct (faults s) as [|[|] rest]; eexists _, _; (split; [reflexivity | simpl; lia]).
Qed.

(** X16.  [GetPositions] never returns an error: when the query fails the
    call panics (the deferred rows.Close() runs on a nil handle), and on
    every other run, also when rows.Scan fails, it returns nil for the error
    and at most one position. *)
Theorem GetPositions_reports_no_error (devId : string) (s : pgStore) :
  (forall rest, faults s = true :: rest ->
     GetPositions devId s = Panic (with_faults rest s))
  /\ match GetPositions devId s with
     | Ret (positions, err) _ => err = None /\ (List.length positions <= 1)%nat
     | Panic _ => exists rest, faults s = true :: rest
     end.
Proof.
  split.
  - intros rest Hf. unfold GetPositions. unfold bind at 1.
    now rewrite (Query_fails _ _ _ Hf).
  - unfold GetPositions. unfold bind at 1.
    destruct (faults s) as [|[|] rest] eqn:Hf.
    + rewrite (Query_ok _ _ Hf). unfold defer, bind.
      destruct (scan_positions_short _ s (select_position_short devId s))
        as (ps & s' & -> & L).
      now split.
    + rewrite (Query_fails _ _ _ Hf). now exists rest.
    + rewrite (Query_passes _ _ _ Hf). unfold defer, bind.
      destruct (scan_positions_short _ (with_faults rest s)
                  (select_position_short devId (with_faults rest s)))
        as (ps & s' & -> & L).
      now split.
Qed.

(** X17.  What [SetDeviceLocation] stores, [GetPositions] returns: after a
    call of [SetDeviceLocation], [GetPositions] for the device returns, at
    any later time, exactly one position, with the coordinates of the call
    converted to float32 (when they are stored and when they are scanned) and
    the seconds of the time of the call.  Stated for runs in which no driver
    call fails and a clock whose seconds fit an int32. *)
Theorem SetDeviceLocation_then_GetPositions
    (s : pgStore) (devId : string) (p : Position) (d : Z) :
  faults s = [] ->
  fits_int32 (clock s) ->
  exists s1,
    SetDeviceLocation devId p s = Ret None s1
    /\ GetPositions devId (later d s1)
       = Ret ([{| Latitude := float32 (float32 (Latitude p));
                  Longitude := float32 (float32 (Longitude p));
                  Altitude := float32 (float32 (Altitude p));
                  Accuracy := float32 (float32 (Accuracy p));
                  Time := epoch_int (clock s) |}], None) (later d s1).
Proof.
  intros Hf _. eexists. split; [now apply SetDeviceLocation_ok|].
  rewrite GetPositions_ok by exact Hf.
  unfold select_position.
  cbn [later insert_position delete_position snd position with_clock with_serial
         with_position].
  rewrite filter_app, filter_negb_nil. cbn [filter app].
  unfold at_device at 1. cbn [pos_deviceId]. rewrite String.eqb_refl.
  reflexivity.
Qed.

(** X17, an instance: a position read one second after it was stored. *)
Lemma SetDeviceLocation_then_GetPositions_witness :
  exists s1,
    SetDeviceLocation "dev-1" here empty_store = Ret None s1
    /\ GetPositions "dev-1" (later 1000000 s1)
       = Ret ([{| Latitude := float32 (float32 (Latitude here));
                  Longitude := float32 (float32 (Longitude here));
                  Altitude := float32 (float32 (Altitude here));
                  Accuracy := float32 (float32 (Accuracy here));
                  Time := epoch_int (clock empty_store) |}], None) (later 1000000 s1).
Proof.
  apply (SetDeviceLocation_then_GetPositions empty_store "dev-1" here 1000000).
  - reflexivity.
  - unfold fits_int32. vm_compute. split; [discriminate | reflexivity].
Defined.

(** X18.  [SetDeviceLocation] does not look at the result of [PurgePosition]:
    when the purge fails and the other driver calls succeed, the call returns
    nil, the device has two position rows, and [GetPositions], which takes
    the row of least time, keeps returning the old position. *)
Theorem failed_purge_leaves_stale_position
    (s : pgStore) (devId : string) (p : Position) (old : positionRow) :
  faults s = [true] ->
  filter (at_device devId) (position s) = [old] ->
  pos_time old < clock s ->
  fits_int32 (pos_time old) ->
  exists s1,
    SetDeviceLocation devId p s = Ret None s1
    /\ List.length (filter (at_device devId) (position s1)) = 2%nat
    /\ GetPositions devId s1 = Ret ([scanned old], None) s1.
Proof.
  intros Hf Hold Ht _.
  unfold SetDeviceLocation, PurgePosition, bind.
  rewrite (Exec_fails _ _ _ Hf). cbv beta iota. unfold ret at 1. cbv beta iota.
  assert (Hf1 : faults (with_faults [] s) = []) by reflexivity.
  rewrite (Prepare_ok _ Hf1). unfold dbNow, StmtExec.
  rewrite (Exec_ok _ _ Hf1). cbn [StmtClose ret].
  eexists. split; [reflexivity|].
  assert (E : filter (at_device devId)
                (position (snd (insert_position devId (clock (with_faults [] s))
                   (float32 (Latitude p)) (float32 (Longitude p))
                   (float32 (Altitude p)) (float32 (Accuracy p)) (with_faults [] s))))
              = [old; {| pos_id := serial s; pos_deviceId := devId; pos_time := clock s;
                         pos_latitude := float32 (Latitude p);
                         pos_longitude := float32 (Longitude p);
                         pos_altitude := float32 (Altitude p);
                         pos_accuracy := float32 (Accuracy p) |}]).
  { cbn [insert_position snd position with_serial with_position with_faults clock serial].
    rewrite filter_app, Hold. cbn [filter app].
    unfold at_device at 1. cbn [pos_deviceId]. now rewrite String.eqb_refl. }
  split; [now rewrite E|].
  rewrite GetPositions_ok by reflexivity.
  unfold select_position. rewrite E.
  cbn [earliest pos_time].
  assert (L : (clock s <? pos_time old) = false) by (apply Z.ltb_ge; lia).
  now rewrite L.
Qed.


(** X18, an instance: a device with an old position. *)
Lemma failed_purge_leaves_stale_position_witness :
  exists s1,
    SetDeviceLocation "dev-1" there (with_faults [true] located) = Ret None s1
    /\ List.length (filter (at_device "dev-1") (position s1)) = 2%nat
    /\ GetPositions "dev-1" s1
       = Ret ([scanned {| pos_id := 1; pos_deviceId := "dev-1";
                          pos_time := 1414972000000000;
                          pos_latitude := 37.5; pos_longitude := -122.25;
                          pos_altitude := 12; pos_accuracy := 8 |}], None) s1.
Proof.
  apply (failed_purge_leaves_stale_position (with_faults [true] located) "dev-1" there).
  - reflexivity.
  - reflexivity.
  - reflexivity.
  - unfold fits_int32. vm_compute. split; [discriminate | reflexivity].
Defined.

Lemma GcDatabase_ok (defExpry : Z) (devId userId : string) (s : pgStore) :
  faults s = [] ->
  GcDatabase defExpry devId userId s
  = Ret None (snd (delete_expired_positions defExpry s)).
Proof.
  intros Hf. unfold GcDatabase, bind.
  rewrite (Prepare_ok _ Hf). unfold StmtExec.
  rewrite (Exec_ok _ _ Hf). reflexivity.
Qed.

(** X19.  [GcDatabase] purges by age alone, whatever its two arguments are: the
    rows left are those that are not older than defExpry seconds, so a
    position stored d microseconds before the call is kept exactly when d is
    at most defExpry seconds.  Stated for runs in which no driver call
    fails. *)
Theorem GcDatabase_keeps_recent_positions
    (s : pgStore) (defExpry d : Z) (devId devId' userId : string) (p : Position) :
  faults s = [] ->
  exists s1 s2,
    SetDeviceLocation devId p s = Ret None s1
    /\ GcDatabase defExpry devId' userId (later d s1) = Ret None s2
    /\ position s2
       = filter (fun r => negb (pos_time r <? clock s + d - seconds defExpry))
           (position s1)
    /\ filter (at_device devId) (position s2)
       = if d <=? seconds defExpry
         then filter (at_device devId) (position s1) else [].
Proof.
  intros Hf. eexists _, _. split; [now apply SetDeviceLocation_ok|].
  split; [now apply GcDatabase_ok|].
  split; [reflexivity|].
  cbn [later delete_expired_positions insert_position delete_position snd position
         with_clock with_serial with_position clock].
  unfold position_expired.
  rewrite filter_comm.
  assert (E1 : forall row,
             at_device devId row = true ->
             filter (at_device devId)
               (filter (fun r => negb (at_device devId r)) (position s) ++ [row])%list
             = [row]).
  { intros row Hrow. rewrite filter_app, filter_negb_nil. cbn [filter app].
    now rewrite Hrow. }
  rewrite E1 by (unfold at_device; cbn [pos_deviceId]; apply String.eqb_refl).
  cbn [filter pos_time].
  destruct (d <=? seconds defExpry) eqn:E.
  - apply Z.leb_le in E.
    assert (L : (clock s <? clock s + d - seconds defExpry) = false)
      by (apply Z.ltb_ge; lia).
    now rewrite L.
  - apply Z.leb_gt in E.
    assert (L : (clock s <? clock s + d - seconds defExpry) = true)
      by (apply Z.ltb_lt; lia).
    now rewrite L.
Qed.

(** X19, an instance: a position that is one second older than five days. *)
Lemma GcDatabase_keeps_recent_positions_witness :
  exists s1 s2,
    SetDeviceLocation "dev-1" here empty_store = Ret None s1
    /\ GcDatabase 432000 "dev-2" "user-2" (later (seconds 432001) s1) = Ret None s2
    /\ position s2
       = filter (fun r => negb (pos_time r <? clock empty_store + seconds 432001
                                            - seconds 432000))
           (position s1)
    /\ filter (at_device "dev-1") (position s2)
       = if seconds 432001 <=? seconds 432000
         then filter (at_device "dev-1") (position s1) else [].
Proof.
  apply (GcDatabase_keeps_recent_positions empty_store 432000 (seconds 432001)
           "dev-1" "dev-2" "user-2" here).
  reflexivity.
Defined.

(** X20.  When dbh.Prepare fails, [SetDeviceLocation] and [GcDatabase] panic
    (both call Exec on the nil statement) instead of returning the error; in
    [SetDeviceLocation] the positions of the device have been purged by then
    unless the purge failed too. *)
Theorem failed_Prepare_panics (s : pgStore) (rest : list bool) :
  (forall f devId p,
     faults s = f :: true :: rest ->
     exists s', SetDeviceLocation devId p s = Panic s' /\ position s' = position
       (if f then s else snd (delete_position devId s)))
  /\ (forall defExpry devId userId,
        faults s = true :: rest ->
        GcDatabase defExpry devId userId s = Panic (with_faults rest s)).
Proof.
  split.
  - intros f devId p Hf. unfold SetDeviceLocation, PurgePosition, bind.
    destruct f.
    + rewrite (Exec_fails _ _ _ Hf). cbv beta iota. unfold ret at 1. cbv beta iota.
      rewrite (Prepare_fails (with_faults (true :: rest) s) rest eq_refl).
      eexists; split; reflexivity.
    + rewrite (Exec_passes _ _ _ Hf). cbv beta iota. unfold ret at 1. cbv beta iota.
      rewrite (Prepare_fails (snd (delete_position devId (with_faults (true :: rest) s)))
                 rest eq_refl).
      eexists; split; reflexivity.
  - intros defExpry devId userId Hf. unfold GcDatabase, bind.
    now rewrite (Prepare_fails _ _ Hf).
Qed.

(** ** Devices that are not registered *)

Lemma map_untouched {A : Type} (p : A -> bool) (f : A -> A) (l : list A) :
  (forall x, In x l -> p x = false) ->
  map (fun x => if p x then f x else x) l = l.
Proof.
  induction l as [|x l IH]; intros H; [reflexivity|].
  simpl. rewrite (H x (or_introl eq_refl)). f_equal. apply IH.
  intros y Hy. apply H. now right.
Qed.

(** X21.  [Touch], [SetAccessToken] and [SetDeviceLock] for a device that has
    no row in deviceInfo return nil and leave the store as it is: an unknown
    device is not reported.  Stated for runs in which no driver call fails. *)
Theorem unknown_device_is_updated_silently
    (s : pgStore) (devId token : string) (state : bool) :
  faults s = [] ->
  (forall r, In r (deviceInfo s) -> String.eqb (dev_deviceId r) devId = false) ->
  Touch devId s = Ret None s
  /\ SetAccessToken devId token s = Ret None s
  /\ SetDeviceLock devId state s = Ret None s.
Proof.
  intros Hf Hno.
  unfold Touch, SetAccessToken, SetDeviceLock, bind.
  rewrite !(Exec_ok _ _ Hf).
  unfold update_lastexchange, update_accesstoken, update_lockable. cbn [snd ret].
  rewrite !(map_untouched (fun r => String.eqb (dev_deviceId r) devId)) by exact Hno.
  now rewrite with_deviceInfo_same.
Qed.

(** X21, an instance: the store without devices. *)
Lemma unknown_device_is_updated_silently_witness :
  Touch "dev-9" empty_store = Ret None empty_store
  /\ SetAccessToken "dev-9" "t0k3n" empty_store = Ret None empty_store
  /\ SetDeviceLock "dev-9" true empty_store = Ret None empty_store.
Proof.
  apply (unknown_device_is_updated_silently empty_store "dev-9" "t0k3n" true).
  - reflexivity.
  - intros r [].
Defined.

(** ** Nonces *)

(** X22.  A check with a wrong signature consumes the nonce: [CheckNonce] on
    the key of an issued nonce with a signature other than the issued one
    returns false with no error and deletes the row, and a later check of
    the issued string returns false as well.  Stated for runs in which no
    driver call fails, a key without '.' that is new to the table, and a
    first check within five minutes. *)
Theorem wrong_signature_consumes_nonce
    (s : pgStore) (key val sig : string) (d1 d2 : Z) :
  faults s = [] ->
  strings.Contains key "." = false ->
  filter (has_key key) (nonce s) = [] ->
  d1 <= minutes 5 ->
  sig <> genSig key val ->
  exists n s1 s2 s3,
    GetNonce key val s = Ret (n, None) s1
    /\ CheckNonce (key ++ "." ++ sig) (later d1 s1) = Ret (false, None) s2
    /\ filter (has_key key) (nonce s2) = []
    /\ CheckNonce n (later d2 s2) = Ret (false, None) s3.
Proof.
  intros Hf Hdot Hnew Hd Hsig.
  exists (key ++ "." ++ genSig key val), (snd (insert_nonce key val s)).
  rewrite (GetNonce_ok key val s Hf).
  rewrite CheckNonce_ok by exact Hf. cbv zeta.
  change ("." ++ sig) with (String "." sig).
  change ("." ++ genSig key val) with (String "." (genSig key val)).
  rewrite (cut_append key sig "." Hdot).
  assert (Hrow : nonce_expired (clock s + d1)
                   {| nonce_key := key; nonce_val := val; nonce_time := clock s |}
                 = false).
  { unfold nonce_expired; simpl. apply Z.ltb_ge. lia. }
  assert (Hn1 : nonce (snd (delete_expired_nonces (later d1 (snd (insert_nonce key val s)))))
                = (filter (fun r => negb (nonce_expired (clock s + d1) r)) (nonce s)
                     ++ [{| nonce_key := key; nonce_val := val;
                            nonce_time := clock s |}])%list).
  { simpl. rewrite filter_app. simpl. now rewrite Hrow. }
  rewrite Hn1, filter_app, (filter_filter_nil _ _ _ Hnew).
  simpl filter. rewrite has_key_refl, app_nil_l. cbn [nonce_val].
  assert (Hne : String.eqb (genSig key val) sig = false)
    by (apply String.eqb_neq; congruence).
  rewrite Hne.
  set (s2 := snd (delete_nonce key _)).
  assert (Hn2 : filter (has_key key) (nonce s2) = []).
  { unfold s2. simpl. apply filter_negb_nil. }
  exists s2, (snd (delete_expired_nonces (later d2 s2))).
  split; [reflexivity|]. split; [reflexivity|]. split; [exact Hn2|].
  rewrite CheckNonce_ok by exact Hf. cbv zeta.
  rewrite (cut_append key (genSig key val) "." Hdot).
  assert (Hn3 : filter (has_key key) (nonce (snd (delete_expired_nonces (later d2 s2)))) = []).
  { simpl. apply filter_filter_nil. exact Hn2. }
  now rewrite Hn3.
Qed.

(** X22, an instance: a nonce checked with the signature 00. *)
Lemma wrong_signature_consumes_nonce_witness :
  exists n s1 s2 s3,
    GetNonce "0be1a9e2" "5f3c7d10" empty_store = Ret (n, None) s1
    /\ CheckNonce ("0be1a9e2" ++ "." ++ "00") (later 60000000 s1) = Ret (false, None) s2
    /\ filter (has_key "0be1a9e2") (nonce s2) = []
    /\ CheckNonce n (later 0 s2) = Ret (false, None) s3.
Proof.
  apply (wrong_signature_consumes_nonce empty_store "0be1a9e2" "5f3c7d10" "00"
           60000000 0).
  - reflexivity.
  - reflexivity.
  - reflexivity.
  - vm_compute; discriminate.
  - vm_compute; discriminate.
Defined.


Lemma nonce_row_live (now d : Z) (key val : string) :
  d <= minutes 5 ->
  nonce_expired (now + d) {| nonce_key := key; nonce_val := val; nonce_time := now |}
  = false.
Proof. intros H. unfold nonce_expired; simpl. apply Z.ltb_ge. lia. Qed.

Lemma has_key_other (key key' val : string) (t : Z) :
  key <> key' ->
  has_key key' {| nonce_key := key; nonce_val := val; nonce_time := t |} = false.
Proof. intros H. unfold has_key; simpl. now apply String.eqb_neq. Qed.

(** X23.  Two nonces issued one after the other are accepted in the reverse
    order: the check of the second leaves the row of the first, whose check
    then returns true.  Stated for runs in which no driver call fails, two
    different keys without '.' that are new to the table, and checks within
    five minutes of issuance. *)
Theorem nonces_verify_in_any_order
    (s : pgStore) (k1 v1 k2 v2 : string) (d1 d2 : Z) :
  faults s = [] ->
  strings.Contains k1 "." = false -> strings.Contains k2 "." = false ->
  k1 <> k2 ->
  filter (has_key k1) (nonce s) = [] -> filter (has_key k2) (nonce s) = [] ->
  d1 <= minutes 5 -> d1 + d2 <= minutes 5 ->
  exists n1 n2 s1 s2 s3 s4,
    GetNonce k1 v1 s = Ret (n1, None) s1
    /\ GetNonce k2 v2 s1 = Ret (n2, None) s2
    /\ CheckNonce n2 (later d1 s2) = Ret (true, None) s3
    /\ CheckNonce n1 (later d2 s3) = Ret (true, None) s4.
Proof.
  intros Hf Hdot1 Hdot2 Hk Hnew1 Hnew2 Hd1 Hd2.
  set (r1 := {| nonce_key := k1; nonce_val := v1; nonce_time := clock s |}).
  set (r2 := {| nonce_key := k2; nonce_val := v2; nonce_time := clock s |}).
  exists (k1 ++ "." ++ genSig k1 v1), (k2 ++ "." ++ genSig k2 v2).
  exists (snd (insert_nonce k1 v1 s)).
  exists (snd (insert_nonce k2 v2 (snd (insert_nonce k1 v1 s)))).
  rewrite (GetNonce_ok k1 v1 s Hf).
  rewrite (GetNonce_ok k2 v2 (snd (insert_nonce k1 v1 s)) Hf).
  set (s2 := snd (insert_nonce k2 v2 (snd (insert_nonce k1 v1 s)))).
  assert (N2 : nonce s2 = ((nonce s ++ [r1]) ++ [r2])%list) by reflexivity.
  assert (C2 : clock s2 = clock s) by reflexivity.
  assert (F2 : faults s2 = []) by exact Hf.
  clearbody s2.
  (* the first check *)
  rewrite (CheckNonce_ok _ (later d1 s2) F2). cbv zeta.
  change ("." ++ genSig k2 v2) with (String "." (genSig k2 v2)).
  change ("." ++ genSig k1 v1) with (String "." (genSig k1 v1)).
  rewrite (cut_append k2 (genSig k2 v2) "." Hdot2).
  set (s2' := snd (delete_expired_nonces (later d1 s2))).
  assert (N2' : nonce s2'
                = filter (fun r => negb (nonce_expired (clock s + d1) r))
                    ((nonce s ++ [r1]) ++ [r2])%list).
  { unfold s2'. simpl. now rewrite C2, N2. }
  assert (L2 : filter (has_key k2) (nonce s2') = [r2]).
  { rewrite N2', filter_comm, !filter_app, Hnew2. cbn [filter app].
    unfold r1 at 1. rewrite (has_key_other k1 k2 v1 _ Hk).
    unfold r2 at 1. rewrite has_key_refl. cbn [filter app].
    unfold r2 at 1. now rewrite (nonce_row_live _ _ _ _ Hd1). }
  rewrite L2. cbn [nonce_val r2]. rewrite String.eqb_refl.
  set (s3 := snd (delete_nonce k2 s2')).
  assert (N3 : nonce s3 = filter (fun r => negb (has_key k2 r)) (nonce s2'))
    by reflexivity.
  assert (C3 : clock s3 = clock s + d1) by (unfold s3, s2'; simpl; now rewrite C2).
  assert (F3 : faults s3 = []) by exact F2.
  clearbody s3.
  exists s3. eexists. split; [reflexivity|]. split; [reflexivity|].
  split; [reflexivity|].
  (* the second check *)
  rewrite (CheckNonce_ok _ (later d2 s3) F3). cbv zeta.
  rewrite (cut_append k1 (genSig k1 v1) "." Hdot1).
  set (s3' := snd (delete_expired_nonces (later d2 s3))).
  assert (L1 : filter (has_key k1) (nonce s3') = [r1]).
  { unfold s3'. simpl. rewrite C3, N3, N2'.
    rewrite !(filter_comm (has_key k1)).
    rewrite !filter_app, Hnew1. cbn [filter app].
    unfold r1 at 1. rewrite has_key_refl.
    unfold r2 at 1. rewrite (has_key_other k2 k1 v2 _ (not_eq_sym Hk)).
    cbn [filter app].
    unfold r1 at 1. rewrite (nonce_row_live _ _ _ _ Hd1). cbn [negb filter].
    unfold r1 at 1. rewrite (has_key_other k1 k2 v1 _ Hk). cbn [negb filter].
    unfold r1 at 1.
    replace (clock s + d1 + d2) with (clock s + (d1 + d2)) by lia.
    now rewrite (nonce_row_live _ _ _ _ Hd2). }
  rewrite L1. cbn [nonce_val r1]. now rewrite String.eqb_refl.
Qed.

(** X23, an instance: two nonces, each checked a minute after the step before. *)
Lemma nonces_verify_in_any_order_witness :
  exists n1 n2 s1 s2 s3 s4,
    GetNonce "0be1a9e2" "5f3c7d10" empty_store = Ret (n1, None) s1
    /\ GetNonce "77aa01c4" "c0ffee11" s1 = Ret (n2, None) s2
    /\ CheckNonce n2 (later 60000000 s2) = Ret (true, None) s3
    /\ CheckNonce n1 (later 60000000 s3) = Ret (true, None) s4.
Proof.
  apply (nonces_verify_in_any_order empty_store "0be1a9e2" "5f3c7d10"
           "77aa01c4" "c0ffee11" 60000000 60000000);
    try reflexivity; try discriminate; vm_compute; discriminate.
Defined.

End StoreFurther.

(** * The device registry *)

Section RegistryFacts.
Import storage registry.
Local Open Scope Z_scope.
Local Open Scope registry_scope.

Lemma lift_driver_ok (st : Store) :
  faults (db st) = [] -> lift driver_call st = Ret false st.
Proof. unfold lift, driver_call. intros ->. now destruct st. Qed.

Lemma Exec_runs (stmt : Store -> Z * Store) (st : Store) :
  faults (db st) = [] ->
  registry.Exec stmt st = Ret (Some (fst (stmt st)), None) (snd (stmt st)).
Proof. intros Hf. unfold registry.Exec, bind. now rewrite (lift_driver_ok _ Hf). Qed.

Lemma Query_runs {A : Type} (q : Store -> list A) (st : Store) :
  faults (db st) = [] -> registry.Query q st = Ret (Some (q st), None) st.
Proof. intros Hf. unfold registry.Query, bind. now rewrite (lift_driver_ok _ Hf). Qed.

Lemma QueryExec_runs (stmt : Store -> Z * Store) (st : Store) :
  faults (db st) = [] -> QueryExec stmt st = Ret (Some [], None) (snd (stmt st)).
Proof. intros Hf. unfold QueryExec, bind. now rewrite (lift_driver_ok _ Hf). Qed.

Lemma QueryRowScan_runs {A : Type} (q : Store -> list A) (st : Store) :
  faults (db st) = [] ->
  QueryRowScan q st = match q st with
                      | [] => Ret ErrNoRows st
                      | a :: _ => Ret (Row a) st
                      end.
Proof. intros Hf. unfold QueryRowScan, bind. now rewrite (lift_driver_ok _ Hf). Qed.

Lemma with_db_same (st : Store) : with_db (db st) st = st.
Proof. now destruct st. Qed.

Lemma lift_Scan_runs (st : Store) :
  faults (db st) = [] -> lift Scan st = Ret None st.
Proof. intros Hf. unfold lift. rewrite (Scan_ok _ Hf). now rewrite with_db_same. Qed.

Lemma maps_of_device (userid devId : string) (l : list userToDeviceMapRow) :
  filter (of_device devId) l = [] -> filter (maps userid devId) l = [].
Proof.
  intros H. induction l as [|x l IH]; [reflexivity|].
  simpl in H |- *. unfold maps at 1. unfold of_device at 1 in H.
  destruct (String.eqb (map_deviceId x) devId); [discriminate|].
  rewrite andb_false_r. now apply IH.
Qed.

Lemma insert_device_runs (userid : string) (dev : Device) (st : Store) :
  faults (db st) = [] ->
  insert_device userid dev st
  = Ret (ID dev, None)
      (snd (insert_mapping userid (ID dev)
              (snd (on_db (insert_deviceinfo dev (clock (db st))) st)))).
Proof.
  intros Hf. unfold insert_device, bind.
  unfold lift at 1. unfold dbNow. rewrite with_db_same.
  rewrite (QueryExec_runs _ _ Hf). unfold defer.
  rewrite QueryExec_runs by exact Hf.
  unfold lift, Close, storage.ret, ret. cbn [db with_db snd].
  now rewrite !with_db_same.
Qed.

(** X24.  [RegisterDevice] called twice for the same user and device leaves
    one mapping row and one deviceInfo row for the device: the first call
    inserts them, the second finds the mapping and updates the deviceInfo row
    with its fields and the time of the second call; both return the device
    identifier.  Stated for runs in which no driver call fails and a device
    identifier that is not empty and new to both tables. *)
Theorem RegisterDevice_twice_keeps_one_mapping
    (st : Store) (uuid uuid' userid : string) (dev dev' : Device) (d : Z) :
  faults (db st) = [] ->
  ID dev <> EmptyString ->
  ID dev' = ID dev ->
  filter (of_device (ID dev)) (userToDeviceMap st) = [] ->
  filter (has_device (ID dev)) (deviceInfo (db st)) = [] ->
  exists st1 st2,
    RegisterDevice uuid userid dev st = Ret (ID dev, None) st1
    /\ RegisterDevice uuid' userid dev' (after d st1) = Ret (ID dev, None) st2
    /\ filter (of_device (ID dev)) (userToDeviceMap st2)
       = [{| map_userId := userid; map_deviceId := ID dev;
             map_name := Some EmptyString; map_date := clock (db st) |}]
    /\ filter (has_device (ID dev)) (deviceInfo (db st2))
       = [{| dev_deviceId := ID dev; dev_lockable := HasPasscode dev';
             dev_loggedin := LoggedIn dev'; dev_lastExchange := clock (db st) + d;
             dev_hawkSecret := Secret dev'; dev_pushUrl := PushUrl dev';
             dev_accepts := Accepts dev'; dev_accesstoken := EmptyString |}].
Proof.
  intros Hf Hid Hsame Hmap Hinfo.
  assert (Eid : String.eqb (ID dev) EmptyString = false) by now apply String.eqb_neq.
  assert (Eid' : String.eqb (ID dev') EmptyString = false) by now rewrite Hsame.
  (* the first call inserts *)
  assert (R1 : RegisterDevice uuid userid dev st
               = Ret (ID dev, None)
                   (snd (insert_mapping userid (ID dev)
                           (snd (on_db (insert_deviceinfo dev (clock (db st))) st))))).
  { unfold RegisterDevice. rewrite Eid. cbv zeta. unfold bind at 1.
    rewrite (QueryRowScan_runs _ _ Hf). unfold select_mapping.
    rewrite (maps_of_device userid (ID dev) _ Hmap). cbn [map].
    now apply insert_device_runs. }
  set (st1 := snd (insert_mapping userid (ID dev)
                     (snd (on_db (insert_deviceinfo dev (clock (db st))) st)))) in *.
  assert (M1 : userToDeviceMap st1
               = (userToDeviceMap st
                    ++ [{| map_userId := userid; map_deviceId := ID dev;
                           map_name := Some EmptyString; map_date := clock (db st) |}])%list)
    by reflexivity.
  assert (D1 : deviceInfo (db st1)
               = (deviceInfo (db st)
                    ++ [{| dev_deviceId := ID dev; dev_lockable := HasPasscode dev;
                           dev_loggedin := LoggedIn dev;
                           dev_lastExchange := clock (db st);
                           dev_hawkSecret := Secret dev; dev_pushUrl := PushUrl dev;
                           dev_accepts := Accepts dev;
                           dev_accesstoken := EmptyString |}])%list)
    by reflexivity.
  assert (C1 : clock (db st1) = clock (db st)) by reflexivity.
  assert (F1 : faults (db (after d st1)) = []) by exact Hf.
  clearbody st1.
  exists st1. eexists. split; [exact R1|].
  (* the second call updates *)
  unfold RegisterDevice. rewrite Eid'. cbv zeta. unfold bind at 1.
  rewrite (QueryRowScan_runs _ _ F1). unfold select_mapping.
  change (userToDeviceMap (after d st1)) with (userToDeviceMap st1).
  rewrite M1, filter_app, Hsame, (maps_of_device userid (ID dev) _ Hmap).
  cbn [filter app]. unfold maps at 1. cbn [map_userId map_deviceId].
  rewrite !String.eqb_refl. cbn [andb]. rewrite app_nil_l. cbn [map]. rewrite String.eqb_refl.
  unfold bind. unfold lift at 1. unfold dbNow. rewrite with_db_same.
  rewrite (QueryExec_runs _ _ F1). unfold defer.
  unfold lift, Close, storage.ret, ret. rewrite with_db_same.
  split; [reflexivity|]. split.
  - cbn [on_db snd userToDeviceMap with_db after]. rewrite M1, filter_app, Hmap.
    cbn [filter app]. unfold of_device. cbn [map_deviceId].
    now rewrite String.eqb_refl.
  - cbn [on_db snd db with_db after update_deviceinfo deviceInfo with_deviceInfo later
           with_clock clock].
    rewrite D1, C1, Hsame, map_app, filter_app.
    cbn [map filter app dev_deviceId]. rewrite String.eqb_refl.
    unfold has_device at 2. cbn [dev_deviceId]. rewrite String.eqb_refl.
    rewrite (map_untouched (fun r => String.eqb (dev_deviceId r) (ID dev))).
    + now rewrite Hinfo.
    + intros x Hx. destruct (String.eqb (dev_deviceId x) (ID dev)) eqn:E; [|reflexivity].
      assert (In x (filter (has_device (ID dev)) (deviceInfo (db st))))
        by (apply filter_In; now split).
      rewrite Hinfo in H. contradiction.
Qed.


(** X24, an instance: a phone registered twice by one user. *)
Lemma RegisterDevice_twice_keeps_one_mapping_witness :
  exists st1 st2,
    RegisterDevice "uuid-1" "user-1" phone no_devices = Ret ("dev-1", None) st1
    /\ RegisterDevice "uuid-2" "user-1" (set_ID "dev-1" phone) (after 1000000 st1)
       = Ret ("dev-1", None) st2
    /\ filter (of_device "dev-1") (userToDeviceMap st2)
       = [{| map_userId := "user-1"; map_deviceId := "dev-1";
             map_name := Some EmptyString; map_date := clock (db no_devices) |}]
    /\ filter (has_device "dev-1") (deviceInfo (db st2))
       = [{| dev_deviceId := "dev-1"; dev_lockable := true;
             dev_loggedin := true; dev_lastExchange := clock (db no_devices) + 1000000;
             dev_hawkSecret := "s3cr3t";
             dev_pushUrl := "https://push.example.com/dev-1";
             dev_accepts := "elrt"; dev_accesstoken := EmptyString |}].
Proof.
  apply (RegisterDevice_twice_keeps_one_mapping no_devices "uuid-1" "uuid-2" "user-1"
           phone (set_ID "dev-1" phone) 1000000);
    try reflexivity.
  discriminate.
Defined.

Lemma GetUserFromDevice_runs (deviceId : string) (st : Store) :
  faults (db st) = [] ->
  GetUserFromDevice deviceId st
  = match filter (of_device deviceId) (userToDeviceMap st) with
    | [] => Ret (EmptyString, EmptyString, Some ErrUnknownDevice) st
    | row :: _ =>
        match map_name row with
        | Some name => Ret (map_userId row, name, None) st
        | None => Ret (EmptyString, EmptyString, Some ErrDriver) st
        end
    end.
Proof.
  intros Hf. unfold GetUserFromDevice. unfold bind at 1.
  rewrite (Query_runs _ _ Hf). unfold defer, select_user.
  destruct (filter (of_device deviceId) (userToDeviceMap st)) as [|row l].
  - cbn [firstn]. unfold bind, lift, Next, Close, storage.ret, ret.
    now rewrite !with_db_same.
  - cbn [firstn]. unfold bind. unfold lift at 1. unfold Next, storage.ret.
    rewrite with_db_same. unfold ScanStrings, bind.
    rewrite (lift_Scan_runs _ Hf).
    destruct (map_name row); unfold ret, lift, Close, storage.ret;
      now rewrite with_db_same.
Qed.

(** X25.  [RegisterDevice] returns the identifier of the device, the generated
    one when the device has none, and stores the empty string as the name of
    the mapping, whatever the Name of the device is: [GetUserFromDevice]
    afterwards returns the user and an empty name.  Stated for runs in which
    no driver call fails and an identifier that is new to both tables. *)
Theorem RegisterDevice_does_not_store_the_name
    (st : Store) (uuid userid : string) (dev : Device) (d : Z) :
  let id := if String.eqb (ID dev) EmptyString then uuid else ID dev in
  faults (db st) = [] ->
  filter (of_device id) (userToDeviceMap st) = [] ->
  filter (has_device id) (deviceInfo (db st)) = [] ->
  exists st1,
    RegisterDevice uuid userid dev st = Ret (id, None) st1
    /\ GetUserFromDevice id (after d st1)
       = Ret (userid, EmptyString, None) (after d st1).
Proof.
  intros id Hf Hmap _.
  set (dev1 := if String.eqb (ID dev) EmptyString then set_ID uuid dev else dev).
  assert (Hid : ID dev1 = id).
  { unfold dev1, id. now destruct (String.eqb (ID dev) EmptyString). }
  assert (R1 : RegisterDevice uuid userid dev st
               = Ret (id, None)
                   (snd (insert_mapping userid id
                           (snd (on_db (insert_deviceinfo dev1 (clock (db st))) st))))).
  { unfold RegisterDevice. fold dev1. cbv zeta. unfold bind at 1.
    rewrite (QueryRowScan_runs _ _ Hf). unfold select_mapping. rewrite Hid.
    rewrite (maps_of_device userid id _ Hmap). cbn [map].
    rewrite (insert_device_runs userid dev1 st Hf). now rewrite Hid. }
  eexists. split; [exact R1|].
  rewrite GetUserFromDevice_runs by exact Hf.
  cbn [after userToDeviceMap with_db insert_mapping snd with_userToDeviceMap on_db].
  rewrite filter_app, Hmap. cbn [filter app].
  unfold of_device at 1. cbn [map_deviceId]. rewrite String.eqb_refl.
  reflexivity.
Qed.

(** X25, an instance: a phone with a name. *)
Lemma RegisterDevice_does_not_store_the_name_witness :
  exists st1,
    RegisterDevice "uuid-1" "user-1" phone no_devices = Ret ("dev-1", None) st1
    /\ GetUserFromDevice "dev-1" (after 1000000 st1)
       = Ret ("user-1", EmptyString, None) (after 1000000 st1).
Proof.
  apply (RegisterDevice_does_not_store_the_name no_devices "uuid-1" "user-1" phone
           1000000);
    reflexivity.
Defined.

(** ** DeleteDevice *)

Lemma Exec_stops (stmt : Store -> Z * Store) (st : Store) (rest : list bool) :
  faults (db st) = true :: rest ->
  registry.Exec stmt st = Ret (None, Some ErrDriver) (with_db (with_faults rest (db st)) st).
Proof.
  intros Hf. unfold registry.Exec, bind, lift, driver_call. now rewrite Hf.
Qed.

Lemma Exec_goes_on (stmt : Store -> Z * Store) (st : Store) (rest : list bool) :
  faults (db st) = false :: rest ->
  registry.Exec stmt st
  = Ret (Some (fst (stmt (with_db (with_faults rest (db st)) st))), None)
      (snd (stmt (with_db (with_faults rest (db st)) st))).
Proof.
  intros Hf. unfold registry.Exec, bind, lift, driver_call. now rewrite Hf.
Qed.

(** X26.  [DeleteDevice] removes the rows of the device from the four tables
    and no other row, and [GetUserFromDevice] for the device then returns
    ErrUnknownDevice.  Stated for runs in which no driver call fails. *)
Theorem DeleteDevice_removes_the_device (st : Store) (devId : string) :
  faults (db st) = [] ->
  exists st1,
    DeleteDevice devId st = Ret None st1
    /\ filter (for_device devId) (pendingCommands (db st1)) = []
    /\ filter (at_device devId) (position (db st1)) = []
    /\ filter (of_device devId) (userToDeviceMap st1) = []
    /\ filter (has_device devId) (deviceInfo (db st1)) = []
    /\ filter (fun r => negb (for_device devId r)) (pendingCommands (db st1))
       = filter (fun r => negb (for_device devId r)) (pendingCommands (db st))
    /\ filter (fun r => negb (at_device devId r)) (position (db st1))
       = filter (fun r => negb (at_device devId r)) (position (db st))
    /\ filter (fun r => negb (of_device devId r)) (userToDeviceMap st1)
       = filter (fun r => negb (of_device devId r)) (userToDeviceMap st)
    /\ filter (fun r => negb (has_device devId r)) (deviceInfo (db st1))
       = filter (fun r => negb (has_device devId r)) (deviceInfo (db st))
    /\ GetUserFromDevice devId st1
       = Ret (EmptyString, EmptyString, Some ErrUnknownDevice) st1.
Proof.
  intros Hf. unfold DeleteDevice, device_deletes. cbn [run_deletes]. unfold bind.
  rewrite (Exec_runs _ _ Hf).
  rewrite Exec_runs by exact Hf.
  rewrite Exec_runs by exact Hf.
  rewrite Exec_runs by exact Hf.
  eexists. split; [reflexivity|].
  cbn [on_db snd db with_db userToDeviceMap delete_pending_for delete_position
         delete_mapping delete_deviceinfo pendingCommands position deviceInfo
         with_pendingCommands with_position with_deviceInfo with_userToDeviceMap].
  assert (Skip : forall (A : Type) (p : A -> bool) (l : list A),
             filter (fun r => negb (p r)) (filter (fun r => negb (p r)) l)
             = filter (fun r => negb (p r)) l).
  { intros A p l. apply filter_skip. intros x _ H; exact H. }
  repeat split; try apply filter_negb_nil; try apply Skip.
  rewrite GetUserFromDevice_runs by exact Hf.
  cbn [on_db snd db with_db userToDeviceMap delete_mapping with_userToDeviceMap].
  now rewrite filter_negb_nil.
Qed.

(** X26, an instance: the only device of the registry. *)
Lemma DeleteDevice_removes_the_device_witness :
  exists st1,
    DeleteDevice "dev-1" one_phone = Ret None st1
    /\ pendingCommands (db st1) = [] /\ userToDeviceMap st1 = []
    /\ deviceInfo (db st1) = []
    /\ GetUserFromDevice "dev-1" st1
       = Ret (EmptyString, EmptyString, Some ErrUnknownDevice) st1.
Proof.
  destruct (DeleteDevice_removes_the_device one_phone "dev-1" eq_refl)
    as (st1 & H1 & _ & _ & _ & _ & _ & _ & _ & _ & H2).
  exists st1. split; [exact H1|].
  vm_compute in H1. injection H1 as <-.
  repeat split; exact H2.
Defined.

(** X27.  [DeleteDevice] ends at the first statement that fails: when the
    delete on userToDeviceMap fails, the call returns the error, the pending
    commands and the positions of the device are gone, and the mappings and
    the deviceInfo rows are as before. *)
Theorem DeleteDevice_stops_at_the_first_failure
    (st : Store) (devId : string) (rest : list bool) :
  faults (db st) = false :: false :: true :: rest ->
  exists st1,
    DeleteDevice devId st = Ret (Some ErrDriver) st1
    /\ filter (for_device devId) (pendingCommands (db st1)) = []
    /\ filter (at_device devId) (position (db st1)) = []
    /\ userToDeviceMap st1 = userToDeviceMap st
    /\ deviceInfo (db st1) = deviceInfo (db st)
    /\ faults (db st1) = rest.
Proof.
  intros Hf. unfold DeleteDevice, device_deletes. cbn [run_deletes]. unfold bind.
  rewrite (Exec_goes_on _ _ _ Hf).
  rewrite (Exec_goes_on _ _ (true :: rest)) by reflexivity.
  rewrite (Exec_stops _ _ rest) by reflexivity.
  eexists. split; [reflexivity|].
  cbn [on_db snd db with_db userToDeviceMap delete_pending_for delete_position
         pendingCommands position deviceInfo faults with_faults
         with_pendingCommands with_position].
  repeat split; apply filter_negb_nil.
Qed.


(** X27, an instance: the only device of the registry. *)
Lemma DeleteDevice_stops_at_the_first_failure_witness :
  exists st1,
    DeleteDevice "dev-1" (with_db (with_faults [false; false; true] (db one_phone)) one_phone)
    = Ret (Some ErrDriver) st1
    /\ filter (for_device "dev-1") (pendingCommands (db st1)) = []
    /\ filter (at_device "dev-1") (position (db st1)) = []
    /\ userToDeviceMap st1 = userToDeviceMap one_phone
    /\ deviceInfo (db st1) = deviceInfo (db one_phone)
    /\ faults (db st1) = [].
Proof.
  apply (DeleteDevice_stops_at_the_first_failure
           (with_db (with_faults [false; false; true] (db one_phone)) one_phone)
           "dev-1" []).
  reflexivity.
Defined.

(** ** GetDevicesForUser *)

Lemma scan_devices_runs (rows data : list DeviceList) (st : Store) :
  faults (db st) = [] ->
  scan_devices rows data st = Ret ((data ++ rows)%list, None) st.
Proof.
  intros Hf. revert data; induction rows as [|r rows IH]; intros data; simpl.
  - now rewrite app_nil_r.
  - unfold bind. rewrite (lift_Scan_runs _ Hf). rewrite IH. now rewrite <- app_assoc.
Qed.






Lemma GetDevicesForUser_lists (limit : nat) (userId : string) (st : Store) :
  faults (db st) = [] ->
  (' (rows, err) <- registry.Query (select_devices userId limit) ;;
   registry.defer (lift (Close rows))
     match err with
     | None =>
         match rows with
         | Some l => scan_devices l []
         | None => registry.panic
         end
     | Some e => registry.ret ([], Some e)
     end) st
  = Ret (select_devices userId limit st, None) st.
Proof.
  intros Hf. unfold bind. rewrite (Query_runs _ _ Hf). unfold registry.defer.
  rewrite (scan_devices_runs _ _ _ Hf). unfold lift, Close, storage.ret.
  now rewrite with_db_same.
Qed.




(** X29.  When the update of the user identifier fails, [GetDevicesForUser]
    reports no error: it leaves the mappings as they are and lists the
    devices of the old identifier. *)
Theorem GetDevicesForUser_falls_back_to_the_old_user
    (st : Store) (limit : nat) (userId oldUserId : string) :
  faults (db st) = [true] ->
  oldUserId <> EmptyString ->
  userId <> oldUserId ->
  exists st1,
    GetDevicesForUser limit userId oldUserId st
    = Ret (select_devices oldUserId limit st, None) st1
    /\ userToDeviceMap st1 = userToDeviceMap st.
Proof.
  intros Hf Hold Hne.
  assert (E1 : (0 <? String.length oldUserId)%nat = true).
  { destruct oldUserId; [contradiction | reflexivity]. }
  assert (E2 : String.eqb userId oldUserId = false) by now apply String.eqb_neq.
  unfold GetDevicesForUser. rewrite E1, E2. cbn [andb negb].
  unfold bind at 1. unfold bind at 1.
  rewrite (Exec_stops _ _ [] Hf). cbv beta iota. unfold ret at 1.
  set (st1 := with_db (with_faults [] (db st)) st).
  rewrite (GetDevicesForUser_lists limit oldUserId st1 eq_refl).
  exists st1. split; reflexivity.
Qed.

(** X29, an instance: user-1 stays user-1. *)
Lemma GetDevicesForUser_falls_back_to_the_old_user_witness :
  exists st1,
    GetDevicesForUser 1 "fxa-1" "user-1"
      (with_db (with_faults [true] (db one_phone)) one_phone)
    = Ret ([{| list_ID := "dev-1"; list_Name := EmptyString |}], None) st1
    /\ userToDeviceMap st1 = userToDeviceMap one_phone.
Proof.
  apply (GetDevicesForUser_falls_back_to_the_old_user
           (with_db (with_faults [true] (db one_phone)) one_phone) 1 "fxa-1" "user-1");
    [reflexivity | discriminate | discriminate].
Defined.

End RegistryFacts.
